(** * Trust-form extraction pipeline: section classification, pattern and
      model-backed extraction, per-section normalisation.

    A shallow embedding of the Python sources
      src/schemas/base.py, src/processors/pdf_processor.py,
      src/processors/text_processor.py, src/extractors/*.py,
      src/utils/llm_utils.py and src/main.py
    together with the properties stated about them.

    Modelling conventions.
    - Python text is a Rocq [string], i.e. a sequence of bytes holding the
      UTF-8 encoding of the text.  The ASCII fragment of the behaviour of
      [str] and [re] is modelled exactly; a character outside ASCII is its
      byte sequence, whose bytes are neither white space, digits nor cased.
    - JSON-like Python values are the inductive type [value]; a Python
      dictionary is an association list with unique keys kept in insertion
      order.  Floating-point numbers are outside the model.
    - A Python call that may raise is a function into [Result]. *)

From Stdlib Require Import String Ascii List Bool Arith ZArith Lia.
Import ListNotations.
Set Warnings "-register-all".
Open Scope list_scope.
Open Scope string_scope.

(* ------------------------------------------------------------------ *)
(** ** Exceptions *)

Inductive exn : Type :=
| ValueError
| TypeError
| AttributeError
| IndexError
| ProviderError.

Inductive Result (A : Type) : Type :=
| Return (a : A)
| Raise (e : exn).

Arguments Return {A} a.
Arguments Raise {A} e.

Definition bind {A B : Type} (m : Result A) (f : A -> Result B) : Result B :=
  match m with
  | Return a => f a
  | Raise e => Raise e
  end.

Notation "x <- m ;; k" := (bind m (fun x => k))
  (at level 61, m at next level, right associativity).
Notation "' p <- m ;; k" := (bind m (fun x => let p := x in k))
  (at level 61, p pattern, m at next level, right associativity).

(* ------------------------------------------------------------------ *)
(** ** The fragment of Python's [str] used by the sources *)

Module PyStr.

Definition code (c : ascii) : nat := nat_of_ascii c.

Definition in_range (lo hi : nat) (c : ascii) : bool :=
  (lo <=? code c)%nat && (code c <=? hi)%nat.

(** [str.isspace] on ASCII: TAB..CR, FS..US and the blank. *)
Definition isspace (c : ascii) : bool := in_range 9 13 c || in_range 28 32 c.
Definition isdigit (c : ascii) : bool := in_range 48 57 c.
Definition isupper (c : ascii) : bool := in_range 65 90 c.
Definition islower (c : ascii) : bool := in_range 97 122 c.
Definition isalpha (c : ascii) : bool := isupper c || islower c.
(** The class [\w]: letters, digits and the underscore. *)
Definition isword (c : ascii) : bool :=
  isalpha c || isdigit c || (code c =? 95)%nat.

(** [len(s)] counts code points: every byte of the UTF-8 encoding except
    the continuation bytes [0x80..0xBF]. *)
Definition is_continuation (c : ascii) : bool := in_range 128 191 c.

Fixpoint len (text : string) : nat :=
  match text with
  | EmptyString => 0
  | String c text' => (if is_continuation c then 0 else 1) + len text'
  end.

Definition lower_char (c : ascii) : ascii :=
  if isupper c then ascii_of_nat (code c + 32) else c.
Definition upper_char (c : ascii) : ascii :=
  if islower c then ascii_of_nat (code c - 32) else c.

Fixpoint map_chars (f : ascii -> ascii) (s : string) : string :=
  match s with
  | EmptyString => EmptyString
  | String c s' => String (f c) (map_chars f s')
  end.

Definition lower : string -> string := map_chars lower_char.
Definition upper : string -> string := map_chars upper_char.

Fixpoint lstrip (s : string) : string :=
  match s with
  | EmptyString => EmptyString
  | String c s' => if isspace c then lstrip s' else s
  end.

Fixpoint rstrip (s : string) : string :=
  match s with
  | EmptyString => EmptyString
  | String c s' =>
      match rstrip s' with
      | EmptyString => if isspace c then EmptyString else String c EmptyString
      | r => String c r
      end
  end.

Definition strip (s : string) : string := rstrip (lstrip s).

(** [s.replace(" ", "")] and friends: drop every character satisfying [p]. *)
Fixpoint remove_chars (p : ascii -> bool) (s : string) : string :=
  match s with
  | EmptyString => EmptyString
  | String c s' => if p c then remove_chars p s' else String c (remove_chars p s')
  end.

Definition is_blank (c : ascii) : bool := (code c =? 32)%nat.

(** [s.split(sep)] for a one-character separator. *)
Fixpoint split_aux (sep : ascii) (s : string) (cur : string) : list string :=
  match s with
  | EmptyString => [cur]
  | String c s' =>
      if Ascii.eqb c sep then cur :: split_aux sep s' EmptyString
      else split_aux sep s' (cur ++ String c EmptyString)
  end.
Definition split (sep : ascii) (s : string) : list string :=
  split_aux sep s EmptyString.

(** [needle in hay]. *)
Fixpoint contains (needle hay : string) : bool :=
  prefix needle hay ||
  match hay with
  | EmptyString => false
  | String _ hay' => contains needle hay'
  end.

(** [s.endswith(suffix)]. *)
Fixpoint endswith (s suffix : string) : bool :=
  String.eqb s suffix ||
  match s with
  | EmptyString => false
  | String _ s' => endswith s' suffix
  end.

(** [s[:-n]] for [n >= 1]. *)
Definition drop_last (n : nat) (s : string) : string :=
  substring 0 (String.length s - n) s.

(** [s.zfill(w)] on a string without sign. *)
Definition zfill (w : nat) (s : string) : string :=
  String.concat EmptyString (repeat "0" (w - String.length s)) ++ s.

Definition digit_val (c : ascii) : Z := Z.of_nat (code c - 48).

(** Digits with single underscores allowed between them: the body of an
    integer literal as [int] reads it.  [acc] is the value read so far and
    [prev_digit] tells whether the previous character was a digit. *)
Fixpoint int_body (s : string) (acc : Z) (prev_digit : bool) : option Z :=
  match s with
  | EmptyString => if prev_digit then Some acc else None
  | String c s' =>
      if isdigit c then int_body s' (10 * acc + digit_val c)%Z true
      else if (code c =? 95)%nat && prev_digit then int_body s' acc false
      else None
  end.

(** The white space [int] skips around a literal: TAB..CR and the blank.
    The separators FS..US, which [str.isspace] and [str.strip] count as
    white space, are not skipped: [int] raises on them. *)
Definition is_int_space (c : ascii) : bool :=
  in_range 9 13 c || (code c =? 32)%nat.

Fixpoint int_lstrip (s : string) : string :=
  match s with
  | EmptyString => EmptyString
  | String c s' => if is_int_space c then int_lstrip s' else s
  end.

Fixpoint int_rstrip (s : string) : string :=
  match s with
  | EmptyString => EmptyString
  | String c s' =>
      match int_rstrip s' with
      | EmptyString =>
          if is_int_space c then EmptyString else String c EmptyString
      | r => String c r
      end
  end.

(** [int(s)]: surrounding white space, an optional sign, then the digits.
    [None] stands for the [ValueError] Python raises. *)
Definition int (s : string) : option Z :=
  match int_rstrip (int_lstrip s) with
  | String "+" body => int_body body 0%Z false
  | String "-" body => option_map Z.opp (int_body body 0%Z false)
  | body => int_body body 0%Z false
  end.

(** [sep.join(parts)]. *)
Definition join (sep : string) (parts : list string) : string :=
  String.concat sep parts.

(** Insertion of [x] in a list sorted by code-point order, and [sorted]. *)
Fixpoint insert_sorted (x : string) (l : list string) : list string :=
  match l with
  | [] => [x]
  | y :: l' => if String.leb x y then x :: l else y :: insert_sorted x l'
  end.
Definition sorted (l : list string) : list string :=
  fold_right insert_sorted [] l.

End PyStr.

(* ------------------------------------------------------------------ *)
(** ** The fragment of Python's [re] used by the sources

    Patterns are kept as the source writes them and compiled by [parse] to
    a syntax tree; [run] is a backtracking matcher in continuation-passing
    style with Python's priorities: alternatives left to right, greedy
    repetition longest first, lazy repetition shortest first. *)

Module Re.

Import PyStr.

Inductive class_item : Type :=
| CChar (c : ascii)
| CRange (lo hi : ascii)
| CSpace
| CDigit
| CWord.

Inductive regex : Type :=
| REmpty
| RChar (c : ascii)
| RAny
| RClass (negated : bool) (items : list class_item)
| RBol
| REol
| RSeq (r1 r2 : regex)
| RAlt (r1 r2 : regex)
| RGroup (n : nat) (r : regex)
| RRepeat (lo : nat) (hi : option nat) (greedy : bool) (r : regex).

(** *** Parsing *)

Fixpoint read_nat (s : string) (acc : option nat) : option nat * string :=
  match s with
  | String c s' =>
      if isdigit c
      then read_nat s' (Some (10 * match acc with Some a => a | None => 0 end
                              + (code c - 48)))
      else (acc, s)
  | EmptyString => (acc, s)
  end.

(** An escape sequence [\c]: a character class or the literal [c]. *)
Definition escape_item (c : ascii) : class_item :=
  match c with
  | "s"%char => CSpace
  | "d"%char => CDigit
  | "w"%char => CWord
  | _ => CChar c
  end.

Definition item_char (i : class_item) : option ascii :=
  match i with CChar c => Some c | _ => None end.

(** One member of a bracketed set, with the rest of the input. *)
Definition read_item (s : string) : option (class_item * string) :=
  match s with
  | String "\"%char (String c s') => Some (escape_item c, s')
  | String c s' => Some (CChar c, s')
  | EmptyString => None
  end.

(** The members of a bracketed set up to the closing bracket. *)
Fixpoint parse_set (fuel : nat) (s : string) (acc : list class_item)
  : option (list class_item * string) :=
  match fuel with
  | O => None
  | S fuel' =>
      match s with
      | String "]"%char s' => Some (rev acc, s')
      | _ =>
          match read_item s with
          | None => None
          | Some (i1, s1) =>
              match s1 with
              | String "-"%char (String "]"%char s2) =>
                  Some (rev (CChar "-"%char :: i1 :: acc), s2)
              | String "-"%char s2 =>
                  match item_char i1, read_item s2 with
                  | Some lo, Some (CChar hi, s3) =>
                      parse_set fuel' s3 (CRange lo hi :: acc)
                  | _, _ => None
                  end
              | _ => parse_set fuel' s1 (i1 :: acc)
              end
          end
      end
  end.

(** A quantifier after an atom, if any: bounds, greediness, rest. *)
Definition read_quant (s : string)
  : option (nat * option nat * bool * string) :=
  let lazy (lo : nat) (hi : option nat) (rest : string) :=
    match rest with
    | String "?"%char rest' => Some (lo, hi, false, rest')
    | _ => Some (lo, hi, true, rest)
    end in
  match s with
  | String "*"%char s' => lazy 0 None s'
  | String "+"%char s' => lazy 1 None s'
  | String "?"%char s' => lazy 0 (Some 1) s'
  | String "{"%char s' =>
      match read_nat s' None with
      | (Some lo, String "}"%char s1) => lazy lo (Some lo) s1
      | (Some lo, String ","%char s1) =>
          match read_nat s1 None with
          | (hi, String "}"%char s2) => lazy lo hi s2
          | _ => None
          end
      | _ => None
      end
  | _ => None
  end.

Definition quantified (a : regex) (s : string) : regex * string :=
  match read_quant s with
  | Some (lo, hi, greedy, rest) => (RRepeat lo hi greedy a, rest)
  | None => (a, s)
  end.

Definition rseq (r1 r2 : regex) : regex :=
  match r1 with
  | REmpty => r2
  | _ => RSeq r1 r2
  end.

(** [parse_alt fuel s g] reads an alternation from [s], numbering capturing
    groups from [g]; it stops at a closing parenthesis or at the end and
    returns the tree, the rest and the next free group number. *)
Fixpoint parse_alt (fuel : nat) (s : string) (g : nat)
  : option (regex * string * nat) :=
  match fuel with
  | O => None
  | S fuel' =>
      match parse_seq fuel' s g REmpty with
      | Some (r1, String "|"%char s1, g1) =>
          match parse_alt fuel' s1 g1 with
          | Some (r2, s2, g2) => Some (RAlt r1 r2, s2, g2)
          | None => None
          end
      | other => other
      end
  end
with parse_seq (fuel : nat) (s : string) (g : nat) (acc : regex)
  : option (regex * string * nat) :=
  match fuel with
  | O => None
  | S fuel' =>
      match s with
      | EmptyString => Some (acc, s, g)
      | String ")"%char _ => Some (acc, s, g)
      | String "|"%char _ => Some (acc, s, g)
      | String "("%char (String "?"%char (String ":"%char s1)) =>
          match parse_alt fuel' s1 g with
          | Some (r, String ")"%char s2, g2) =>
              let (a, s3) := quantified r s2 in
              parse_seq fuel' s3 g2 (rseq acc a)
          | _ => None
          end
      | String "("%char s1 =>
          match parse_alt fuel' s1 (S g) with
          | Some (r, String ")"%char s2, g2) =>
              let (a, s3) := quantified (RGroup g r) s2 in
              parse_seq fuel' s3 g2 (rseq acc a)
          | _ => None
          end
      | String "["%char (String "^"%char s1) =>
          match parse_set fuel' s1 [] with
          | Some (items, s2) =>
              let (a, s3) := quantified (RClass true items) s2 in
              parse_seq fuel' s3 g (rseq acc a)
          | None => None
          end
      | String "["%char s1 =>
          match parse_set fuel' s1 [] with
          | Some (items, s2) =>
              let (a, s3) := quantified (RClass false items) s2 in
              parse_seq fuel' s3 g (rseq acc a)
          | None => None
          end
      | String "\"%char (String c s1) =>
          let atom := match escape_item c with
                      | CChar c' => RChar c'
                      | i => RClass false [i]
                      end in
          let (a, s3) := quantified atom s1 in
          parse_seq fuel' s3 g (rseq acc a)
      | String "."%char s1 =>
          let (a, s3) := quantified RAny s1 in
          parse_seq fuel' s3 g (rseq acc a)
      | String "^"%char s1 => parse_seq fuel' s1 g (rseq acc RBol)
      | String "$"%char s1 => parse_seq fuel' s1 g (rseq acc REol)
      | String c s1 =>
          let (a, s3) := quantified (RChar c) s1 in
          parse_seq fuel' s3 g (rseq acc a)
      end
  end.

(** [re.compile(pattern)]; [None] when the pattern is outside the fragment. *)
Definition parse (source : string) : option regex :=
  match parse_alt (2 * String.length source + 2) source 1 with
  | Some (r, EmptyString, _) => Some r
  | _ => None
  end.

(** A pattern that matches nothing, for a pattern outside the fragment
    (no pattern of the sources is). *)
Definition never : regex := RClass false [].

Definition compile_tree (source : string) : regex :=
  match parse source with
  | Some r => r
  | None => never
  end.

(** *** Matching *)

(** Captured groups: group number and text, most recent binding first. *)
Definition captures : Type := list (nat * string).

Fixpoint lookup (g : nat) (cs : captures) : option string :=
  match cs with
  | [] => None
  | (n, t) :: cs' => if (n =? g)%nat then Some t else lookup g cs'
  end.

(** The part of [s] consumed when the rest is [s']. *)
Definition consumed (s s' : string) : string :=
  substring 0 (String.length s - String.length s') s.

Definition item_mem (a : ascii) (i : class_item) : bool :=
  match i with
  | CChar c => Ascii.eqb a c
  | CRange lo hi => in_range (code lo) (code hi) a
  | CSpace => isspace a
  | CDigit => isdigit a
  | CWord => isword a
  end.

(** Membership in a set; with [re.IGNORECASE] a character belongs to the
    set when one of its case variants does. *)
Definition set_mem (ic : bool) (a : ascii) (items : list class_item) : bool :=
  existsb (item_mem a) items ||
  (ic && (existsb (item_mem (lower_char a)) items ||
          existsb (item_mem (upper_char a)) items)).

Definition char_eq (ic : bool) (a c : ascii) : bool :=
  if ic then Ascii.eqb (lower_char a) (lower_char c) else Ascii.eqb a c.

Definition newline : ascii := ascii_of_nat 10.

Definition below (cnt : nat) (hi : option nat) : bool :=
  match hi with
  | None => true
  | Some h => (cnt <? h)%nat
  end.

Section Matcher.

Context {R : Type}.
(** [re.IGNORECASE], and the length of the whole subject (for [^]). *)
Variable ic : bool.
Variable total : nat.

Definition cont : Type := string -> captures -> option R.

(** The repetition of [body] with [cnt] iterations done.  Past the lower
    bound an iteration has to consume input, so [fuel] above the length of
    the input plus the lower bound is never exhausted ([rep_loop_fuel]). *)
Fixpoint rep_loop (body : string -> captures -> cont -> option R)
    (lo : nat) (hi : option nat) (greedy : bool) (k : cont)
    (fuel cnt : nat) (s : string) (cs : captures) {struct fuel} : option R :=
  match fuel with
  | O => None
  | S fuel' =>
      let more (_ : unit) :=
        if below cnt hi then
          body s cs (fun s1 cs1 =>
            if (String.length s1 <? String.length s)%nat || (cnt <? lo)%nat
            then rep_loop body lo hi greedy k fuel' (S cnt) s1 cs1
            else None)
        else None in
      let stop (_ : unit) := if (lo <=? cnt)%nat then k s cs else None in
      if greedy
      then match more tt with Some x => Some x | None => stop tt end
      else match stop tt with Some x => Some x | None => more tt end
  end.

Fixpoint run (r : regex) (s : string) (cs : captures) (k : cont)
    {struct r} : option R :=
  match r with
  | REmpty => k s cs
  | RChar c =>
      match s with
      | String a s' => if char_eq ic a c then k s' cs else None
      | EmptyString => None
      end
  | RAny =>
      match s with
      | String a s' => if Ascii.eqb a newline then None else k s' cs
      | EmptyString => None
      end
  | RClass negated items =>
      match s with
      | String a s' =>
          if xorb negated (set_mem ic a items) then k s' cs else None
      | EmptyString => None
      end
  | RBol => if (String.length s =? total)%nat then k s cs else None
  | REol =>
      match s with
      | EmptyString => k s cs
      | String a EmptyString => if Ascii.eqb a newline then k s cs else None
      | _ => None
      end
  | RSeq r1 r2 => run r1 s cs (fun s1 cs1 => run r2 s1 cs1 k)
  | RAlt r1 r2 =>
      match run r1 s cs k with
      | Some x => Some x
      | None => run r2 s cs k
      end
  | RGroup n r1 =>
      run r1 s cs (fun s1 cs1 => k s1 ((n, consumed s s1) :: cs1))
  | RRepeat lo hi greedy r1 =>
      rep_loop (run r1) lo hi greedy k (S (String.length s) + lo) 0 s cs
  end.

End Matcher.

(** A match object: the whole match (group 0) and the captured groups. *)
Record match_obj : Type := MatchObj {
  whole : string;
  groups : captures
}.

(** [m.group(g)]; [None] when the group did not take part in the match. *)
Definition group (m : match_obj) (g : nat) : option string :=
  if (g =? 0)%nat then Some (whole m) else lookup g (groups m).

Definition match_at (ic : bool) (total : nat) (r : regex) (s : string)
  : option match_obj :=
  run ic total r s [] (fun s' cs => Some (MatchObj (consumed s s') cs)).

Fixpoint search_from (ic : bool) (total : nat) (r : regex) (s : string)
  : option match_obj :=
  match match_at ic total r s with
  | Some m => Some m
  | None =>
      match s with
      | EmptyString => None
      | String _ s' => search_from ic total r s'
      end
  end.

(** A compiled pattern: the tree and the [re.IGNORECASE] flag. *)
Record pattern : Type := Pattern {
  tree : regex;
  ignorecase : bool
}.

Definition IGNORECASE : bool := true.
Definition NOFLAG : bool := false.

(** [re.compile(source, flags)]. *)
Definition compile (source : string) (flags : bool) : pattern :=
  Pattern (compile_tree source) flags.

(** [pattern.search(text)] and [pattern.match(text)]. *)
Definition search (p : pattern) (text : string) : option match_obj :=
  search_from (ignorecase p) (String.length text) (tree p) text.

Definition match_ (p : pattern) (text : string) : option match_obj :=
  match_at (ignorecase p) (String.length text) (tree p) text.

(** [m.groups()]: the texts of groups 1 to [n]. *)
Definition groups_upto (m : match_obj) (n : nat) : list (option string) :=
  map (fun g => lookup g (groups m)) (seq 1 n).

(** Whether the pattern matches exactly the one-character text [c]. *)
Definition matches_char (p : pattern) (c : ascii) : bool :=
  match run (ignorecase p) 1 (tree p) (String c EmptyString) []
          (fun s' _ => match s' with EmptyString => Some tt | _ => None end)
  with
  | Some _ => true
  | None => false
  end.

(** [pattern.sub(repl, text)] for a pattern that matches one character at a
    time, as all the substitutions of the sources do. *)
Fixpoint sub (p : pattern) (repl : string) (text : string) : string :=
  match text with
  | EmptyString => EmptyString
  | String c text' =>
      if matches_char p c then repl ++ sub p repl text'
      else String c (sub p repl text')
  end.

End Re.


(* ------------------------------------------------------------------ *)
(** ** Values and dictionaries *)

Inductive value : Type :=
| VNone
| VBool (b : bool)
| VInt (z : Z)
| VStr (s : string)
| VList (l : list value)
| VDict (d : list (string * value)).

Definition dict : Type := list (string * value).

(** [bool(v)]. *)
Definition truthy (v : value) : bool :=
  match v with
  | VNone => false
  | VBool b => b
  | VInt z => negb (z =? 0)%Z
  | VStr s => negb (String.eqb s EmptyString)
  | VList l => match l with [] => false | _ => true end
  | VDict d => match d with [] => false | _ => true end
  end.

(** [v == True]. *)
Definition eq_True (v : value) : bool :=
  match v with
  | VBool b => b
  | VInt z => (z =? 1)%Z
  | _ => false
  end.

Definition is_dict (v : value) : bool :=
  match v with VDict _ => true | _ => false end.

Definition is_str (v : value) : bool :=
  match v with VStr _ => true | _ => false end.

Module Dict.

Section Assoc.
Context {A : Type}.

Fixpoint get (k : string) (d : list (string * A)) : option A :=
  match d with
  | [] => None
  | (k', v) :: d' => if String.eqb k' k then Some v else get k d'
  end.

(** [k in d]. *)
Definition mem (k : string) (d : list (string * A)) : bool :=
  match get k d with
  | Some _ => true
  | None => false
  end.

(** [d[k] = v]: an existing key keeps its place, a new key goes last. *)
Fixpoint set (k : string) (v : A) (d : list (string * A))
  : list (string * A) :=
  match d with
  | [] => [(k, v)]
  | (k', v') :: d' =>
      if String.eqb k' k then (k, v) :: d' else (k', v') :: set k v d'
  end.

(** The dictionary left by [d.pop(k)]. *)
Fixpoint remove (k : string) (d : list (string * A)) : list (string * A) :=
  match d with
  | [] => []
  | (k', v') :: d' =>
      if String.eqb k' k then d' else (k', v') :: remove k d'
  end.

Definition keys (d : list (string * A)) : list string := map fst d.

(** [d.update(other)]. *)
Definition update (d other : list (string * A)) : list (string * A) :=
  fold_left (fun acc kv => set (fst kv) (snd kv) acc) other d.

End Assoc.

(** [d.get(k)], with Python's default [None]. *)
Definition get_default (k : string) (d : dict) : value :=
  match get k d with
  | Some v => v
  | None => VNone
  end.

End Dict.

(** [x in xs] for a list of strings. *)
Definition str_in (x : string) (xs : list string) : bool :=
  existsb (String.eqb x) xs.

(* ------------------------------------------------------------------ *)
(** ** src/schemas/base.py: sections and the schema registry *)

Inductive DocumentSection : Type :=
| TRUST_REGISTRATION
| DONOR_DETAILS
| TRUSTEE_DETAILS
| BENEFICIARY_DETAILS
| NOMINATED_BANK_ACCOUNT
| SECURITY_INFORMATION
| DATA_PRIVACY_STATEMENT.

(** Iteration over the enumeration, in declaration order. *)
Definition all_sections : list DocumentSection :=
  [TRUST_REGISTRATION; DONOR_DETAILS; TRUSTEE_DETAILS; BENEFICIARY_DETAILS;
   NOMINATED_BANK_ACCOUNT; SECURITY_INFORMATION; DATA_PRIVACY_STATEMENT].

Definition section_eqb (a b : DocumentSection) : bool :=
  match a, b with
  | TRUST_REGISTRATION, TRUST_REGISTRATION
  | DONOR_DETAILS, DONOR_DETAILS
  | TRUSTEE_DETAILS, TRUSTEE_DETAILS
  | BENEFICIARY_DETAILS, BENEFICIARY_DETAILS
  | NOMINATED_BANK_ACCOUNT, NOMINATED_BANK_ACCOUNT
  | SECURITY_INFORMATION, SECURITY_INFORMATION
  | DATA_PRIVACY_STATEMENT, DATA_PRIVACY_STATEMENT => true
  | _, _ => false
  end.

(** [section.value]. *)
Definition section_value (s : DocumentSection) : string :=
  match s with
  | TRUST_REGISTRATION => "trust_registration"
  | DONOR_DETAILS => "donor_details"
  | TRUSTEE_DETAILS => "trustee_details"
  | BENEFICIARY_DETAILS => "beneficiary_details"
  | NOMINATED_BANK_ACCOUNT => "nominated_bank_account"
  | SECURITY_INFORMATION => "security_information"
  | DATA_PRIVACY_STATEMENT => "data_privacy_statement"
  end.

Definition get_schema_id (s : DocumentSection) : string :=
  match s with
  | TRUST_REGISTRATION => "trust_registration"
  | DONOR_DETAILS => "donor_details"
  | TRUSTEE_DETAILS => "trustee_details"
  | BENEFICIARY_DETAILS => "beneficiary_details"
  | NOMINATED_BANK_ACCOUNT => "nominated_bank_account"
  | SECURITY_INFORMATION => "security_information"
  | DATA_PRIVACY_STATEMENT => "data_privacy_statement"
  end.

(** The type of a schema field; every field of the schemas is [Optional]
    with default [None]. *)
Inductive field_type : Type :=
| TStr
| TBool
| TModel (fields : list (string * field_type))
| TList (elem : field_type).

Definition schema : Type := list (string * field_type).

(** src/schemas/trustee_details.py and beneficiary_details.py declare the
    same [NonUKDetails]. *)
Definition NonUKDetails : schema :=
  [("country_of_birth", TStr); ("nationality", TStr); ("id_number", TStr);
   ("type_of_number", TStr); ("passport_number", TStr);
   ("primary_residence", TStr); ("secondary_residence", TStr);
   ("country_of_citizenship", TStr); ("second_country_of_citizenship", TStr)].

Definition TrustRegistrationDetails : schema :=
  [("HMRC_unique_reference_number", TStr);
   ("proof_of_registration_attached", TBool)].

Definition DonorDetails : schema :=
  [("title", TStr); ("surname", TStr); ("forenames", TStr);
   ("date_of_birth", TStr); ("national_insurance_number", TStr);
   ("permanent_residential_address", TStr); ("postcode", TStr);
   ("country_of_residence", TStr); ("country_of_nationality", TStr);
   ("deceased", TBool)].

Definition TrusteeDetails : schema :=
  [("title", TStr); ("surname", TStr); ("forenames", TStr);
   ("date_of_birth", TStr); ("national_insurance_number", TStr);
   ("permanent_residential_address", TStr); ("postcode", TStr);
   ("country", TStr); ("telephone_number", TStr); ("email_address", TStr);
   ("existing_account", TBool); ("account_number", TStr);
   ("born_in_uk", TBool); ("solely_uk_citizen", TBool);
   ("not_uk_details", TModel NonUKDetails)].

Definition BeneficiaryDetails : schema :=
  [("title", TStr); ("surname", TStr); ("forenames", TStr);
   ("date_of_birth", TStr); ("national_insurance_number", TStr);
   ("permanent_residential_address", TStr); ("postcode", TStr);
   ("country", TStr); ("telephone_number", TStr); ("email_address", TStr);
   ("born_in_uk", TBool); ("not_born_in_uk", TModel NonUKDetails)].

Definition NominatedBankAccount : schema :=
  [("account_holder_name", TStr); ("account_number", TStr);
   ("sort_code", TStr)].

Definition SecurityQuestions : schema :=
  [("mother_maiden_name", TStr); ("first_school_name", TStr)].

Definition SecurityInformation : schema :=
  [("username", TStr); ("security_questions", TModel SecurityQuestions)].

Definition TrusteeSignature : schema :=
  [("name", TStr); ("date", TStr); ("signature", TStr)].

Definition DataPrivacyStatement : schema :=
  [("identity_verification_consent", TBool);
   ("fraud_prevention_checks_consent", TBool);
   ("communication_preference_consent", TBool);
   ("trustee_signatures", TList (TModel TrusteeSignature))].

(** [SchemaRegistry._schemas] once src/schemas/__init__.py has run the
    [register_schema] decorators. *)
Definition SchemaRegistry : list (string * schema) :=
  [("trust_registration", TrustRegistrationDetails);
   ("donor_details", DonorDetails);
   ("trustee_details", TrusteeDetails);
   ("beneficiary_details", BeneficiaryDetails);
   ("nominated_bank_account", NominatedBankAccount);
   ("security_information", SecurityInformation);
   ("data_privacy_statement", DataPrivacyStatement)].

Fixpoint get_schema (schema_id : string) (reg : list (string * schema))
  : option schema :=
  match reg with
  | [] => None
  | (k, sc) :: reg' => if String.eqb k schema_id then Some sc else get_schema schema_id reg'
  end.

(* ------------------------------------------------------------------ *)
(** ** src/extractors/base_extractor.py *)

(** [BaseExtractor.__init__]: the schema of the section, or [ValueError]
    when none is registered. *)
Definition BaseExtractor_init (section : DocumentSection) : Result schema :=
  match get_schema (get_schema_id section) SchemaRegistry with
  | Some sc => Return sc
  | None => Raise ValueError
  end.

(* ------------------------------------------------------------------ *)
(** ** src/extractors/regex_extractor.py: the pattern strategy *)

(** A transform receives the match object of a group-0 pattern or the
    stripped text of a capturing group. *)
Definition transform : Type := Re.match_obj + string -> value.

(** An entry of a pattern list: [(pattern, group)] or
    [(pattern, group, transform_func)]. *)
Inductive pattern_tuple : Type :=
| Tuple2 (p : Re.pattern) (group : nat)
| Tuple3 (p : Re.pattern) (group : nat) (transform_func : transform).

Definition pattern_table : Type := list (string * list pattern_tuple).

(** [RegexExtractor._configure_patterns]: for each section the fields in
    declaration order, each with its patterns in priority order. *)
Definition _configure_patterns (section : DocumentSection) : pattern_table :=
  match section with
  | TRUST_REGISTRATION =>
  [
   ("HMRC_unique_reference_number",
      [Tuple2 (Re.compile "URN[=:\s-]*([A-Za-z0-9-]+)" Re.IGNORECASE) 1;
       Tuple2 (Re.compile "HMRC\s+unique\s+reference\s+(?:number|URN)[=:\s-]*([A-Za-z0-9-]+)" Re.IGNORECASE) 1;
       Tuple2 (Re.compile "(?:reference|URN)[=:\s-]*([A-Za-z0-9-]+)" Re.IGNORECASE) 1]);
   ("proof_of_registration_attached",
      [Tuple2 (Re.compile "proof\s+of\s+registration\s+(?:is\s+)?attached" Re.IGNORECASE) 0;
       Tuple2 (Re.compile "attached\s+proof\s+of\s+registration" Re.IGNORECASE) 0;
       Tuple2 (Re.compile "(?:have|has)\s+(?:included|attached)\s+(?:the\s+)?proof" Re.IGNORECASE) 0])
  ]
  | DONOR_DETAILS =>
  [
   ("title",
      [Tuple2 (Re.compile "Title[:\s]*([A-Za-z]+\.*(?:\s*/\s*[A-Za-z]+\.*)*)" Re.IGNORECASE) 1]);
   ("surname",
      [Tuple2 (Re.compile "Surname[:\s]*([A-Za-z-]+)" Re.IGNORECASE) 1]);
   ("forenames",
      [Tuple2 (Re.compile "Forename(?:\(s\))?[:\s]*([A-Za-z\s-]+)" Re.IGNORECASE) 1]);
   ("date_of_birth",
      [Tuple2 (Re.compile "Date\s+of\s+birth[:\s]*(\d{1,2}[\/-]\d{1,2}[\/-]\d{2,4})" Re.IGNORECASE) 1;
       Tuple2 (Re.compile "DOB[:\s]*(\d{1,2}[\/-]\d{1,2}[\/-]\d{2,4})" Re.IGNORECASE) 1]);
   ("national_insurance_number",
      [Tuple2 (Re.compile "National\s+[Ii]nsurance\s+[Nn]umber[:\s]*([A-Za-z0-9\s]+)" Re.IGNORECASE) 1;
       Tuple2 (Re.compile "NI(?:NO)?[:\s]*([A-Za-z0-9\s]+)" Re.IGNORECASE) 1]);
   ("permanent_residential_address",
      [Tuple2 (Re.compile "(?:Permanent\s+)?[Rr]esidential\s+[Aa]ddress[:\s]*([A-Za-z0-9\s,.-]+)" Re.IGNORECASE) 1]);
   ("postcode",
      [Tuple2 (Re.compile "[Pp]ostcode[:\s]*([A-Za-z0-9\s]+)" Re.IGNORECASE) 1]);
   ("country_of_residence",
      [Tuple2 (Re.compile "[Cc]ountry\s+of\s+[Rr]esidence[:\s]*([A-Za-z\s]+)" Re.IGNORECASE) 1]);
   ("country_of_nationality",
      [Tuple2 (Re.compile "[Cc]ountry\s+of\s+[Nn]ationality[:\s]*([A-Za-z\s]+)" Re.IGNORECASE) 1]);
   ("deceased",
      [Tuple2 (Re.compile "donor\s+has\s+passed\s+away" Re.IGNORECASE) 0;
       Tuple2 (Re.compile "deceased" Re.IGNORECASE) 0])
  ]
  | TRUSTEE_DETAILS =>
  [
   ("title",
      [Tuple2 (Re.compile "Title[:\s]*([A-Za-z]+\.*(?:\s*/\s*[A-Za-z]+\.*)*)" Re.IGNORECASE) 1]);
   ("surname",
      [Tuple2 (Re.compile "Surname[:\s]*([A-Za-z-]+)" Re.IGNORECASE) 1]);
   ("forenames",
      [Tuple2 (Re.compile "Forename(?:\(s\))?[:\s]*([A-Za-z\s-]+)" Re.IGNORECASE) 1]);
   ("date_of_birth",
      [Tuple2 (Re.compile "Date\s+of\s+birth[:\s]*(\d{1,2}[\/-]\d{1,2}[\/-]\d{2,4})" Re.IGNORECASE) 1;
       Tuple2 (Re.compile "DOB[:\s]*(\d{1,2}[\/-]\d{1,2}[\/-]\d{2,4})" Re.IGNORECASE) 1]);
   ("national_insurance_number",
      [Tuple2 (Re.compile "National\s+[Ii]nsurance\s+[Nn]umber[:\s]*([A-Za-z0-9\s]+)" Re.IGNORECASE) 1;
       Tuple2 (Re.compile "NI(?:NO)?[:\s]*([A-Za-z0-9\s]+)" Re.IGNORECASE) 1]);
   ("permanent_residential_address",
      [Tuple2 (Re.compile "(?:Permanent\s+)?[Rr]esidential\s+[Aa]ddress[:\s]*([A-Za-z0-9\s,.-]+)" Re.IGNORECASE) 1]);
   ("postcode",
      [Tuple2 (Re.compile "[Pp]ostcode[:\s]*([A-Za-z0-9\s]+)" Re.IGNORECASE) 1]);
   ("country",
      [Tuple2 (Re.compile "^Country[:\s]*([A-Za-z\s]+)" Re.IGNORECASE) 1]);
   ("telephone_number",
      [Tuple2 (Re.compile "(?:[Dd]aytime\s+)?[Tt]elephone\s+[Nn]umber[:\s]*([0-9\s]+)" Re.IGNORECASE) 1]);
   ("email_address",
      [Tuple2 (Re.compile "[Ee]mail\s+[Aa]ddress[:\s]*([A-Za-z0-9._%+-]+@[A-Za-z0-9.-]+\.[A-Za-z]{2,})" Re.IGNORECASE) 1]);
   ("existing_aj_bell_account",
      [Tuple2 (Re.compile "existing\s+AJ\s+Bell\s+Account\?[:\s]*Yes" Re.IGNORECASE) 0]);
   ("existing_account_number",
      [Tuple2 (Re.compile "existing\s+account\s+number[:\s]*([A-Za-z0-9\s]+)" Re.IGNORECASE) 1]);
   ("born_in_uk",
      [Tuple2 (Re.compile "born\s+in\s+the\s+UK\?.*Yes" Re.IGNORECASE) 0]);
   ("solely_uk_citizen",
      [Tuple2 (Re.compile "solely\s+a\s+UK\s+citizen.*Yes" Re.IGNORECASE) 0]);
   ("country_of_birth",
      [Tuple2 (Re.compile "Country\s+of\s+birth[:\s]*([A-Za-z\s]+)" Re.IGNORECASE) 1]);
   ("nationality",
      [Tuple2 (Re.compile "Nationality[:\s]*([A-Za-z\s]+)" Re.IGNORECASE) 1]);
   ("id_number",
      [Tuple2 (Re.compile "Identification\s+number[:\s]*([A-Za-z0-9\s-]+)" Re.IGNORECASE) 1]);
   ("type_of_number",
      [Tuple2 (Re.compile "Type\s+of\s+number[:\s]*([A-Za-z\s]+)" Re.IGNORECASE) 1]);
   ("passport_number",
      [Tuple2 (Re.compile "Passport\s+number[:\s]*([A-Za-z0-9\s-]+)" Re.IGNORECASE) 1]);
   ("primary_residence",
      [Tuple2 (Re.compile "Country\s+of\s+residence\s+for\s+tax\s+purposes[:\s]*([A-Za-z\s]+)" Re.IGNORECASE) 1]);
   ("secondary_residence",
      [Tuple2 (Re.compile "Second\s+country\s+of\s+residence\s+for\s+tax\s+purposes[:\s]*([A-Za-z\s]+)" Re.IGNORECASE) 1]);
   ("primary_citizenship",
      [Tuple2 (Re.compile "Country\s+of\s+citizenship[:\s]*([A-Za-z\s]+)" Re.IGNORECASE) 1]);
   ("secondary_citizenship",
      [Tuple2 (Re.compile "Second\s+country\s+of\s+citizenship[:\s]*([A-Za-z\s]+)" Re.IGNORECASE) 1])
  ]
  | BENEFICIARY_DETAILS =>
  [
   ("title",
      [Tuple2 (Re.compile "Title[:\s]*(Dr|Mr|Mrs|Miss|Ms|Other)" Re.IGNORECASE) 1;
       Tuple2 (Re.compile "(?:Dr|Mr|Mrs|Miss|Ms)(?:/(?:Dr|Mr|Mrs|Miss|Ms))*" Re.IGNORECASE) 0]);
   ("surname",
      [Tuple2 (Re.compile "Surname[:\s]*([A-Za-z\s.-]+)" Re.IGNORECASE) 1;
       Tuple2 (Re.compile "Last\s+name[:\s]*([A-Za-z\s.-]+)" Re.IGNORECASE) 1]);
   ("forenames",
      [Tuple2 (Re.compile "Forename\(s\)[:\s]*([A-Za-z\s.-]+)" Re.IGNORECASE) 1;
       Tuple2 (Re.compile "First\s+name[:\s]*([A-Za-z\s.-]+)" Re.IGNORECASE) 1]);
   ("date_of_birth",
      [Tuple2 (Re.compile "Date\s+of\s+birth[:\s]*(\d{1,2}[\/-]\d{1,2}[\/-]\d{2,4})" Re.IGNORECASE) 1;
       Tuple2 (Re.compile "DOB[:\s]*(\d{1,2}[\/-]\d{1,2}[\/-]\d{2,4})" Re.IGNORECASE) 1]);
   ("national_insurance_number",
      [Tuple2 (Re.compile "National\s+Insurance\s+number[:\s]*([A-Z0-9\s]+)" Re.IGNORECASE) 1;
       Tuple2 (Re.compile "NI\s+number[:\s]*([A-Z0-9\s]+)" Re.IGNORECASE) 1]);
   ("permanent_residential_address",
      [Tuple2 (Re.compile "Permanent\s+residential\s+address[:\s]*([A-Za-z0-9\s,.-]+)" Re.IGNORECASE) 1;
       Tuple2 (Re.compile "Address[:\s]*([A-Za-z0-9\s,.-]+)" Re.IGNORECASE) 1]);
   ("postcode",
      [Tuple2 (Re.compile "Postcode[:\s]*([A-Z0-9\s]+)" Re.IGNORECASE) 1]);
   ("country",
      [Tuple2 (Re.compile "Country[:\s]*([A-Za-z\s]+)" Re.IGNORECASE) 1]);
   ("telephone_number",
      [Tuple2 (Re.compile "(?:Daytime\s+)?[Tt]elephone\s+number[:\s]*([0-9+\s]+)" Re.IGNORECASE) 1;
       Tuple2 (Re.compile "Phone[:\s]*([0-9+\s]+)" Re.IGNORECASE) 1]);
   ("email_address",
      [Tuple2 (Re.compile "Email\s+address[:\s]*([A-Za-z0-9@._-]+)" Re.IGNORECASE) 1;
       Tuple2 (Re.compile "Email[:\s]*([A-Za-z0-9@._-]+)" Re.IGNORECASE) 1]);
   ("born_in_uk",
      [Tuple2 (Re.compile "born\s+in\s+the\s+UK\?.*Yes" Re.IGNORECASE) 0]);
   ("solely_uk_citizen",
      [Tuple2 (Re.compile "solely\s+a\s+UK\s+citizen.*Yes" Re.IGNORECASE) 0]);
   ("country_of_birth",
      [Tuple2 (Re.compile "Country\s+of\s+birth[:\s]*([A-Za-z\s]+)" Re.IGNORECASE) 1]);
   ("nationality",
      [Tuple2 (Re.compile "Nationality[:\s]*([A-Za-z\s]+)" Re.IGNORECASE) 1]);
   ("primary_residence",
      [Tuple2 (Re.compile "Country\s+of\s+residence\s+for\s+tax\s+purposes[:\s]*([A-Za-z\s]+)" Re.IGNORECASE) 1]);
   ("secondary_residence",
      [Tuple2 (Re.compile "Second\s+country\s+of\s+residence\s+for\s+tax\s+purposes[:\s]*([A-Za-z\s]+)" Re.IGNORECASE) 1]);
   ("primary_citizenship",
      [Tuple2 (Re.compile "Country\s+of\s+citizenship[:\s]*([A-Za-z\s]+)" Re.IGNORECASE) 1]);
   ("secondary_citizenship",
      [Tuple2 (Re.compile "Second\s+country\s+of\s+citizenship[:\s]*([A-Za-z\s]+)" Re.IGNORECASE) 1])
  ]
  | NOMINATED_BANK_ACCOUNT =>
  [
   ("account_holder_name",
      [Tuple2 (Re.compile "Account\s+holder(?:\'s)?\s+name[:\s]*([A-Za-z\s.-]+)" Re.IGNORECASE) 1;
       Tuple2 (Re.compile "Name\s+of\s+account\s+holder[:\s]*([A-Za-z\s.-]+)" Re.IGNORECASE) 1]);
   ("account_number",
      [Tuple2 (Re.compile "(?:Bank|Building\s+society)\s+account\s+number[:\s]*([0-9\s]+)" Re.IGNORECASE) 1;
       Tuple2 (Re.compile "Account\s+number[:\s]*([0-9\s]+)" Re.IGNORECASE) 1]);
   ("sort_code",
      [Tuple2 (Re.compile "Sort\s+code[:\s]*([0-9-\s]+)" Re.IGNORECASE) 1])
  ]
  | SECURITY_INFORMATION =>
  [
   ("username",
      [Tuple2 (Re.compile "Username[:\s]*([A-Za-z0-9\s]+)" Re.IGNORECASE) 1;
       Tuple2 (Re.compile "Create\s+(?:the\s+)?username[^:]*?[:\s]*([A-Za-z0-9\s]+)" Re.IGNORECASE) 1]);
   ("mother_maiden_name",
      [Tuple2 (Re.compile "mother(?:\'s)?\s+maiden\s+name[:\s]*([A-Za-z\s.-]+)" Re.IGNORECASE) 1]);
   ("first_school_name",
      [Tuple2 (Re.compile "(?:name\s+of\s+(?:your\s+)?first\s+school|first\s+school\s+name)[:\s]*([A-Za-z0-9\s,.-]+)" Re.IGNORECASE) 1])
  ]
  | DATA_PRIVACY_STATEMENT =>
  [
   ("identity_verification_consent",
      [Tuple2 (Re.compile "identity\s+verification.*?Yes" Re.IGNORECASE) 0;
       Tuple2 (Re.compile "identity\s+verification.*?No" Re.IGNORECASE) 0]);
   ("fraud_prevention_checks_consent",
      [Tuple2 (Re.compile "fraud\s+prevention.*?Yes" Re.IGNORECASE) 0;
       Tuple2 (Re.compile "fraud\s+prevention.*?No" Re.IGNORECASE) 0]);
   ("communication_preference_consent",
      [Tuple2 (Re.compile "would\s+like\s+to\s+receive\s+communications.*?Yes" Re.IGNORECASE) 0;
       Tuple2 (Re.compile "would\s+like\s+to\s+receive\s+communications.*?No" Re.IGNORECASE) 0]);
   ("trustee1_name",
      [Tuple2 (Re.compile "Trustee\s+1.*?Name[:\s]*([A-Za-z\s.-]+)" Re.IGNORECASE) 1]);
   ("trustee1_date",
      [Tuple2 (Re.compile "Trustee\s+1.*?Date[:\s]*(\d{1,2}[/.-]\d{1,2}[/.-]\d{2,4})" Re.IGNORECASE) 1]);
   ("trustee1_signature",
      [Tuple2 (Re.compile "Trustee\s+1.*?Signature" Re.IGNORECASE) 0]);
   ("trustee2_name",
      [Tuple2 (Re.compile "Trustee\s+2.*?Name[:\s]*([A-Za-z\s.-]+)" Re.IGNORECASE) 1]);
   ("trustee2_date",
      [Tuple2 (Re.compile "Trustee\s+2.*?Date[:\s]*(\d{1,2}[/.-]\d{1,2}[/.-]\d{2,4})" Re.IGNORECASE) 1]);
   ("trustee2_signature",
      [Tuple2 (Re.compile "Trustee\s+2.*?Signature" Re.IGNORECASE) 0])
  ]
  end.

Definition tuple_pattern (t : pattern_tuple) : Re.pattern :=
  match t with Tuple2 p _ | Tuple3 p _ _ => p end.
Definition tuple_group (t : pattern_tuple) : nat :=
  match t with Tuple2 _ g | Tuple3 _ g _ => g end.
Definition tuple_transform (t : pattern_tuple) : option transform :=
  match t with Tuple2 _ _ => None | Tuple3 _ _ f => Some f end.

(** The value a matching pattern gives its field; [m.group(group)] of a
    group that took no part in the match is [None], whose [strip] raises. *)
Definition matched_value (t : pattern_tuple) (m : Re.match_obj) : Result value :=
  if (tuple_group t =? 0)%nat then
    match tuple_transform t with
    | Some f => Return (f (inl m))
    | None => Return (VBool true)
    end
  else
    match Re.group m (tuple_group t) with
    | None => Raise AttributeError
    | Some g =>
        let extracted_value := PyStr.strip g in
        match tuple_transform t with
        | Some f => Return (f (inr extracted_value))
        | None => Return (VStr extracted_value)
        end
    end.

(** The inner loop of [extract]: the patterns of one field are tried in
    order and the first that matches decides. *)
Fixpoint try_patterns (text : string) (patterns : list pattern_tuple)
    (field : string) (result : dict) : Result dict :=
  match patterns with
  | [] => Return result
  | t :: rest =>
      match Re.search (tuple_pattern t) text with
      | Some m =>
          v <- matched_value t m ;;
          Return (Dict.set field v result)
      | None => try_patterns text rest field result
      end
  end.

(** The default of a field none of whose patterns matched. *)
Definition default_value (field : string) : value :=
  if str_in field ["proof_of_registration_attached"; "deceased"; "born_in_uk"]
  then VBool false
  else if str_in field ["not_born_in_uk"; "security_questions"]
  then VNone
  else VStr EmptyString.

(** The outer loop of [extract]. *)
Fixpoint extract_fields (text : string) (table : pattern_table) (result : dict)
  : Result dict :=
  match table with
  | [] => Return result
  | (field, patterns) :: rest =>
      result1 <- try_patterns text patterns field result ;;
      let result2 :=
        if negb (Dict.mem field result1)
        then Dict.set field (default_value field) result1
        else result1 in
      extract_fields text rest result2
  end.

(** [RegexExtractor(section).extract(text)]. *)
Definition RegexExtractor_extract (section : DocumentSection) (text : string)
  : Result dict :=
  _ <- BaseExtractor_init section ;;
  extract_fields text (_configure_patterns section) [].

(* ------------------------------------------------------------------ *)
(** ** The LangChain classes

    The model classes, the prompt template and the JSON parser are
    external collaborators.  A chain [prompt | llm | parser] is given by
    what its [invoke] answers for a text: the parsed JSON value or the
    exception raised by the provider or the parser. *)

Definition chain_t : Type := string -> Result value.

(** The classes the sources import.  [llm] is the type of the model
    objects; a constructor returns the object or raises, as the class
    decides from its arguments.  [chain_of model section] stands for the
    parser and the prompt built for a section and for their composition
    with the model, [prompt | llm | parser]: the chain, or what building
    it raises.  The temperature is a float that is only passed on, so its
    type [T] is left open. *)
Record LangChain (T : Type) : Type := {
  llm : Type;
  OllamaLLM : string -> T -> Result llm;
  ChatOpenAI : option string -> string -> T -> Result llm;
  ChatGoogleGenerativeAI : option string -> string -> T -> Result llm;
  chain_of : llm -> DocumentSection -> Result chain_t
}.
Arguments llm {T}.
Arguments OllamaLLM {T}.
Arguments ChatOpenAI {T}.
Arguments ChatGoogleGenerativeAI {T}.
Arguments chain_of {T}.

(* ------------------------------------------------------------------ *)
(** ** src/utils/llm_utils.py *)

(** The truth value of an [Optional[str]]. *)
Definition given (x : option string) : bool :=
  match x with
  | Some s => negb (String.eqb s EmptyString)
  | None => false
  end.

(** [model_name or default]. *)
Definition or_default (x : option string) (default : string) : string :=
  match x with
  | Some s => if given x then s else default
  | None => default
  end.

(** [get_llm]; [environ] is [os.environ].  The arguments of the three
    classes are, in this order, the key, the model and the temperature. *)
Definition get_llm {T : Type} (lc : LangChain T) (provider : string)
    (model_name : option string) (api_key : option string) (temperature : T)
    (environ : list (string * string)) : Result (llm lc) :=
  if String.eqb provider "local" then
    OllamaLLM lc (or_default model_name "llama3") temperature
  else if String.eqb provider "openai" then
    if negb (given api_key) && negb (Dict.mem "OPENAI_API_KEY" environ)
    then Raise ValueError
    else
      let key :=
        if given api_key then api_key
        else Dict.get "OPENAI_API_KEY" environ in
      ChatOpenAI lc key (or_default model_name "gpt-4o") temperature
  else if String.eqb provider "google" then
    if negb (given api_key) && negb (Dict.mem "GOOGLE_API_KEY" environ)
    then Raise ValueError
    else
      let key :=
        if given api_key then api_key
        else Dict.get "GOOGLE_API_KEY" environ in
      ChatGoogleGenerativeAI lc key
        (or_default model_name "gemini-1.5-pro") temperature
  else Raise ValueError.

(** An entry of [get_available_providers]. *)
Record provider_info : Type := {
  name : string;
  description : string;
  default_model : string;
  requires_api_key : bool;
  env_var : option string;
  models : list string
}.

Definition get_available_providers : list (string * provider_info) :=
  [("local",
    {| name := "Local (Ollama)";
       description := "Run models locally using Ollama";
       default_model := "llama3";
       requires_api_key := false;
       env_var := None;
       models := ["llama3"; "mistral"; "mixtral"; "phi3"] |});
   ("openai",
    {| name := "OpenAI";
       description := "OpenAI's advanced models";
       default_model := "gpt-4o";
       requires_api_key := true;
       env_var := Some "OPENAI_API_KEY";
       models := ["gpt-4o"; "gpt-4-turbo"; "gpt-3.5-turbo"] |});
   ("google",
    {| name := "Google Gemini";
       description := "Google's Gemini models";
       default_model := "gemini-1.5-pro";
       requires_api_key := true;
       env_var := Some "GOOGLE_API_KEY";
       models := ["gemini-1.5-pro"; "gemini-1.5-flash"] |})].

(* ------------------------------------------------------------------ *)
(** ** src/extractors/llm_extractor.py: the model-backed strategy *)

(** The loop [for field in fields: if field in result: out[field] =
    result.pop(field)]: the dictionary left and the fields collected. *)
Fixpoint pop_fields (fields : list string) (result collected : dict)
  : dict * dict :=
  match fields with
  | [] => (result, collected)
  | field :: rest =>
      match Dict.get field result with
      | Some v =>
          pop_fields rest (Dict.remove field result) (Dict.set field v collected)
      | None => pop_fields rest result collected
      end
  end.

Definition nonempty (d : dict) : bool :=
  match d with [] => false | _ => true end.

Module LLMExtractor.

Definition non_uk_fields : list string :=
  ["country_of_birth"; "nationality"; "id_number"; "type_of_number";
   "passport_number"; "primary_residence"; "secondary_residence";
   "primary_citizenship"; "secondary_citizenship"].

(** Called for trustee details only; a result that is not a dictionary has
    no [get] and raises. *)
Definition _process_non_uk_details_structure (result : value) : Result value :=
  match result with
  | VDict result =>
      if eq_True (Dict.get_default "solely_uk_citizen" result) then
        Return (VDict (Dict.set "not_uk_details" VNone result))
      else
        let (result, non_uk_details) := pop_fields non_uk_fields result [] in
        if nonempty non_uk_details then
          match Dict.get "not_uk_details" result with
          | Some (VDict existing) =>
              Return (VDict (Dict.set "not_uk_details"
                               (VDict (Dict.update existing non_uk_details))
                               result))
          | _ =>
              Return (VDict (Dict.set "not_uk_details" (VDict non_uk_details)
                               result))
          end
        else if negb (truthy (Dict.get_default "not_uk_details" result)) then
          Return (VDict (Dict.set "not_uk_details" VNone result))
        else Return (VDict result)
  | _ => Raise AttributeError
  end.

(** [LLMExtractor.__init__], which the seven section extractors call with
    their own section: the schema of the section is looked up, the model
    is built by [get_llm], then the parser and the prompt.  The extractor
    is represented by the chain that its [extract] composes from these
    three, before the [try] block, as its first step. *)
Definition __init__ {T : Type} (lc : LangChain T)
    (environ : list (string * string)) (document_section : DocumentSection)
    (llm_provider : string) (model_name : option string)
    (api_key : option string) (temperature : T) : Result chain_t :=
  _ <- BaseExtractor_init document_section ;;
  llm <- get_llm lc llm_provider model_name api_key temperature environ ;;
  chain_of lc llm document_section.

(** The body of the [try] block. *)
Definition run_chain (chain : chain_t) (section : DocumentSection)
    (text : string) : Result value :=
  result <- chain text ;;
  match section with
  | TRUSTEE_DETAILS => _process_non_uk_details_structure result
  | _ => Return result
  end.

(** [LLMExtractor.extract]: any exception of the [try] block leads to the
    pattern strategy for the same section. *)
Definition extract (chain : chain_t) (section : DocumentSection)
    (text : string) : Result value :=
  match run_chain chain section text with
  | Return result => Return result
  | Raise _ =>
      fallback <- RegexExtractor_extract section text ;;
      Return (VDict fallback)
  end.

End LLMExtractor.

(** The dictionary a section extractor post-processes; [e] is what Python
    raises at the first access when the result is not a dictionary. *)
Definition as_dict (e : exn) (result : value) : Result dict :=
  match result with
  | VDict d => Return d
  | _ => Raise e
  end.

(* ------------------------------------------------------------------ *)
(** ** Transforms shared, with identical text, by the donor, trustee and
       beneficiary extractors *)

(** [_clean_date_of_birth]. *)
Definition clean_date_of_birth (result : dict) : Result dict :=
  let dob := Dict.get_default "date_of_birth" result in
  if negb (truthy dob) then Return result
  else
    match dob with
    | VStr dob =>
        let dob := Re.sub (Re.compile "[-.]" Re.NOFLAG) "/" dob in
        match PyStr.split "/" dob with
        | [day; month; year] =>
            year <-
              (if (PyStr.len year =? 2)%nat then
                 match PyStr.int year with
                 | None => Raise ValueError
                 | Some year_num =>
                     if (50 <=? year_num)%Z then Return ("19" ++ year)
                     else Return ("20" ++ year)
                 end
               else Return year) ;;
            Return (Dict.set "date_of_birth"
                      (VStr (day ++ "/" ++ month ++ "/" ++ year)) result)
        | _ => Return result
        end
    | _ => Raise TypeError
    end.

Definition ni_full : Re.pattern := Re.compile "^[A-Z]{2}\d{6}[A-Z]$" Re.NOFLAG.
Definition ni_short : Re.pattern := Re.compile "^[A-Z]{2}\d{6}$" Re.NOFLAG.

Definition matched (m : option Re.match_obj) : bool :=
  match m with Some _ => true | None => false end.

(** The clean-up of a non-blank number, common to the three classes. *)
Definition tidy_ni_number (ni_number : string) : string :=
  let ni_number := PyStr.upper (PyStr.remove_chars PyStr.is_blank ni_number) in
  if matched (Re.match_ ni_full ni_number) then ni_number
  else if matched (Re.match_ ni_short ni_number) then ni_number
  else Re.sub (Re.compile "[-\s]" Re.NOFLAG) EmptyString ni_number.

(** [_clean_address_fields]. *)
Definition clean_address_fields (result : dict) : Result dict :=
  result <-
    (let postcode := Dict.get_default "postcode" result in
     if truthy postcode then
       match postcode with
       | VStr postcode =>
           Return (Dict.set "postcode"
                     (VStr (PyStr.upper (PyStr.strip postcode))) result)
       | _ => Raise AttributeError
       end
     else Return result) ;;
  let address := Dict.get_default "permanent_residential_address" result in
  if truthy address then
    match address with
    | VStr address =>
        let address := PyStr.strip address in
        let postcode := Dict.get_default "postcode" result in
        address <-
          (if truthy postcode then
             match postcode with
             | VStr postcode =>
                 if PyStr.endswith address postcode
                 then Return (PyStr.strip
                                (PyStr.drop_last (String.length postcode) address))
                 else Return address
             | _ => Raise TypeError
             end
           else Return address) ;;
        Return (Dict.set "permanent_residential_address" (VStr address) result)
    | _ => Raise AttributeError
    end
  else Return result.

(** The loop of the three [_clean_boolean_fields]. *)
Fixpoint clean_booleans (tokens boolean_fields : list string) (result : dict)
  : dict :=
  match boolean_fields with
  | [] => result
  | field :: rest =>
      let result :=
        match Dict.get field result with
        | Some (VStr s) =>
            Dict.set field (VBool (str_in (PyStr.lower s) tokens)) result
        | _ => result
        end in
      clean_booleans tokens rest result
  end.

(** The token list as the trustee and data-privacy classes write it. *)
Definition truthy_tokens : list string :=
  ["yes"; "true"; "y"; "✓"; "x"; "checked"; "ticked"].

(* ------------------------------------------------------------------ *)
(** ** src/extractors/trust_extractor.py *)

Module TrustExtractor.

Definition extract (chain : chain_t) (text : string) : Result value :=
  LLMExtractor.extract chain TRUST_REGISTRATION text.

End TrustExtractor.

(* ------------------------------------------------------------------ *)
(** ** src/extractors/donor_extractor.py *)

Module DonorExtractor.

Definition _clean_date_of_birth : dict -> Result dict := clean_date_of_birth.

Definition _clean_national_insurance_number (result : dict) : Result dict :=
  let ni_number := Dict.get_default "national_insurance_number" result in
  if negb (truthy ni_number) then Return result
  else
    match ni_number with
    | VStr ni_number =>
        Return (Dict.set "national_insurance_number"
                  (VStr (tidy_ni_number ni_number)) result)
    | _ => Raise AttributeError
    end.

Definition _clean_address_fields : dict -> Result dict := clean_address_fields.

Definition deceased_indicators : list string :=
  ["has passed away"; "deceased donor";
   "leave the residential address blank";
   "tick here if the donor has passed away"].

Definition checkbox_indicators : list string :=
  ["☑"; "☒"; "[✓]"; "(✓)"; "✓"; "×"].

Definition _infer_deceased_status (result : dict) (text : string) : dict :=
  let result :=
    if negb (Dict.mem "deceased" result)
    then Dict.set "deceased" (VBool false) result else result in
  let result :=
    if existsb (fun indicator => PyStr.contains indicator (PyStr.lower text))
         deceased_indicators
    then Dict.set "deceased" (VBool true) result else result in
  if existsb (fun deceased_indicator =>
       existsb (fun checkbox =>
         PyStr.contains (checkbox ++ ".*" ++ deceased_indicator) text ||
         PyStr.contains (deceased_indicator ++ ".*" ++ checkbox) text)
         checkbox_indicators)
       deceased_indicators
  then Dict.set "deceased" (VBool true) result else result.

Definition extract (chain : chain_t) (text : string) : Result value :=
  result <- LLMExtractor.extract chain DONOR_DETAILS text ;;
  result <- as_dict AttributeError result ;;
  result <- _clean_date_of_birth result ;;
  result <- _clean_national_insurance_number result ;;
  result <- _clean_address_fields result ;;
  Return (VDict (_infer_deceased_status result text)).

End DonorExtractor.

(* ------------------------------------------------------------------ *)
(** ** src/extractors/trustee_extractor.py *)

Module TrusteeExtractor.

Definition _clean_date_of_birth : dict -> Result dict := clean_date_of_birth.

Definition _clean_national_insurance_number : dict -> Result dict :=
  DonorExtractor._clean_national_insurance_number.

Definition _clean_address_fields : dict -> Result dict := clean_address_fields.

Definition boolean_fields : list string :=
  ["existing_aj_bell_account"; "born_in_uk"; "solely_uk_citizen"].

Definition _clean_boolean_fields (result : dict) : dict :=
  clean_booleans truthy_tokens boolean_fields result.

Definition non_uk_fields : list string :=
  ["country_of_birth"; "nationality"; "id_number"; "type_of_number";
   "passport_number"; "primary_residence"; "secondary_residence";
   "primary_citizenship"; "secondary_citizenship"].

Definition _process_non_uk_details (result : dict) : dict :=
  if eq_True (Dict.get_default "solely_uk_citizen" result) then
    Dict.set "not_uk_details" VNone result
  else
    let (result, non_uk_details) := pop_fields non_uk_fields result [] in
    match Dict.get "not_uk_details" result with
    | Some (VDict existing) =>
        Dict.set "not_uk_details"
          (VDict (Dict.update existing non_uk_details)) result
    | _ =>
        if nonempty non_uk_details
        then Dict.set "not_uk_details" (VDict non_uk_details) result
        else Dict.set "not_uk_details" VNone result
    end.

Definition extract (chain : chain_t) (text : string) : Result value :=
  result <- LLMExtractor.extract chain TRUSTEE_DETAILS text ;;
  result <- as_dict AttributeError result ;;
  result <- _clean_date_of_birth result ;;
  result <- _clean_national_insurance_number result ;;
  result <- _clean_address_fields result ;;
  let result := _clean_boolean_fields result in
  Return (VDict (_process_non_uk_details result)).

End TrusteeExtractor.

(* ------------------------------------------------------------------ *)
(** ** src/extractors/beneficiary_extractor.py *)

Module BeneficiaryExtractor.

Definition _clean_date_of_birth : dict -> Result dict := clean_date_of_birth.

Definition _clean_national_insurance_number (result : dict) : Result dict :=
  let ni_number := Dict.get_default "national_insurance_number" result in
  if negb (truthy ni_number) then Return result
  else
    match ni_number with
    | VStr ni_number =>
        if String.eqb (PyStr.strip ni_number) EmptyString
        then Return (Dict.set "national_insurance_number" VNone result)
        else Return (Dict.set "national_insurance_number"
                       (VStr (tidy_ni_number ni_number)) result)
    | _ => Raise AttributeError
    end.

Definition _clean_address_fields : dict -> Result dict := clean_address_fields.

Definition boolean_fields : list string := ["born_in_uk"].

(** The token list as this class writes it: the fourth token is the
    three characters U+00E2 U+0153 U+201C. *)
Definition truthy_tokens : list string :=
  ["yes"; "true"; "y"; "âœ“"; "x"; "checked"; "ticked"].

Definition _clean_boolean_fields (result : dict) : dict :=
  clean_booleans truthy_tokens boolean_fields result.

Definition non_uk_fields : list string :=
  ["country_of_birth"; "nationality"; "id_number"; "type_of_number";
   "passport_number"; "primary_residence"; "secondary_residence";
   "country_of_citizenship"; "second_country_of_citizenship"].

Definition _process_non_uk_details (result : dict) : dict :=
  if eq_True (Dict.get_default "born_in_uk" result) then
    Dict.set "not_born_in_uk" VNone result
  else
    let (result, non_uk_details) := pop_fields non_uk_fields result [] in
    match Dict.get "not_born_in_uk" result with
    | Some (VDict existing) =>
        Dict.set "not_born_in_uk"
          (VDict (Dict.update existing non_uk_details)) result
    | _ =>
        if nonempty non_uk_details
        then Dict.set "not_born_in_uk" (VDict non_uk_details) result
        else Dict.set "not_born_in_uk" VNone result
    end.

Definition extract (chain : chain_t) (text : string) : Result value :=
  result <- LLMExtractor.extract chain BENEFICIARY_DETAILS text ;;
  result <- as_dict AttributeError result ;;
  result <- _clean_date_of_birth result ;;
  result <- _clean_national_insurance_number result ;;
  result <- _clean_address_fields result ;;
  let result := _clean_boolean_fields result in
  Return (VDict (_process_non_uk_details result)).

End BeneficiaryExtractor.

(* ------------------------------------------------------------------ *)
(** ** src/extractors/nominated_bank_account_extractor.py *)

Module NominatedBankAccountExtractor.

Definition non_digit : Re.pattern := Re.compile "[^0-9]" Re.NOFLAG.

Definition _clean_account_number (result : dict) : Result dict :=
  let account_number := Dict.get_default "account_number" result in
  if negb (truthy account_number) then Return result
  else
    match account_number with
    | VStr account_number =>
        Return (Dict.set "account_number"
                  (VStr (Re.sub non_digit EmptyString account_number)) result)
    | _ => Raise TypeError
    end.

Definition _clean_sort_code (result : dict) : Result dict :=
  let sort_code := Dict.get_default "sort_code" result in
  if negb (truthy sort_code) then Return result
  else
    match sort_code with
    | VStr sort_code =>
        let digits := Re.sub non_digit EmptyString sort_code in
        if (String.length digits =? 6)%nat then
          Return (Dict.set "sort_code"
                    (VStr (substring 0 2 digits ++ "-" ++ substring 2 2 digits
                           ++ "-" ++ substring 4 2 digits)) result)
        else Return (Dict.set "sort_code" (VStr digits) result)
    | _ => Raise TypeError
    end.

Definition extract (chain : chain_t) (text : string) : Result value :=
  result <- LLMExtractor.extract chain NOMINATED_BANK_ACCOUNT text ;;
  result <- as_dict AttributeError result ;;
  result <- _clean_account_number result ;;
  result <- _clean_sort_code result ;;
  Return (VDict result).

End NominatedBankAccountExtractor.

(* ------------------------------------------------------------------ *)
(** ** src/extractors/security_information_extractor.py *)

Module SecurityInformationExtractor.

Definition security_question_fields : list string :=
  ["mother_maiden_name"; "first_school_name"].

Definition _process_security_questions (result : dict) : dict :=
  let existing := Dict.get_default "security_questions" result in
  if negb (truthy existing) || negb (is_dict existing) then
    let (result, security_questions) :=
      pop_fields security_question_fields result [] in
    if nonempty security_questions
    then Dict.set "security_questions" (VDict security_questions) result
    else result
  else result.

Definition extract (chain : chain_t) (text : string) : Result value :=
  result <- LLMExtractor.extract chain SECURITY_INFORMATION text ;;
  result <- as_dict AttributeError result ;;
  Return (VDict (_process_security_questions result)).

End SecurityInformationExtractor.

(* ------------------------------------------------------------------ *)
(** ** src/extractors/data_privacy_statement_extractor.py *)

Module DataPrivacyStatementExtractor.

Definition trustee_key : Re.pattern := Re.compile "trustee(\d+)_(\w+)" Re.NOFLAG.

Definition signature_date : Re.pattern :=
  Re.compile "(\d{1,2})[/.-](\d{1,2})[/.-](\d{2,4})" Re.NOFLAG.

(** The fields collected per trustee number; the number is the text of the
    first group, a string. *)
Definition trustee_table : Type := list (string * dict).

Definition fields_of (trustee_num : string) (trustee_fields : trustee_table)
  : dict :=
  match Dict.get trustee_num trustee_fields with
  | Some fields => fields
  | None => []
  end.

(** The loop over [list(result.keys())].  Both groups of [trustee_key] lie
    outside any optional part, so they take part in every match. *)
Fixpoint collect_trustee_fields (keys : list string) (result : dict)
    (trustee_fields : trustee_table) : Result (dict * trustee_table) :=
  match keys with
  | [] => Return (result, trustee_fields)
  | key :: rest =>
      match Re.match_ trustee_key key with
      | Some m =>
          match Re.group m 1, Re.group m 2 with
          | Some trustee_num, Some field_name =>
              let trustee_fields :=
                if negb (Dict.mem trustee_num trustee_fields)
                then Dict.set trustee_num [] trustee_fields
                else trustee_fields in
              let value := Dict.get_default key result in
              let result := Dict.remove key result in
              let trustee_fields :=
                if truthy value || String.eqb field_name "signature"
                then Dict.set trustee_num
                       (Dict.set field_name value
                          (fields_of trustee_num trustee_fields))
                       trustee_fields
                else trustee_fields in
              collect_trustee_fields rest result trustee_fields
          | _, _ => Raise AttributeError
          end
      | None => collect_trustee_fields rest result trustee_fields
      end
  end.

(** The date of a signature entry brought to [DD/MM/YYYY]. *)
Definition clean_signature_date (date : value) : Result value :=
  if truthy date then
    match date with
    | VStr text =>
        match Re.search signature_date text with
        | Some date_match =>
            match Re.groups_upto date_match 3 with
            | [Some day; Some month; Some year] =>
                year <-
                  (if (PyStr.len year =? 2)%nat then
                     match PyStr.int year with
                     | None => Raise ValueError
                     | Some year_num =>
                         if (year_num <? 50)%Z then Return ("20" ++ year)
                         else Return ("19" ++ year)
                     end
                   else Return year) ;;
                Return (VStr (PyStr.zfill 2 day ++ "/" ++ PyStr.zfill 2 month
                              ++ "/" ++ year))
            | _ => Raise AttributeError
            end
        | None => Return date
        end
    | _ => Raise TypeError
    end
  else Return date.

(** The loop over [sorted(trustee_fields.keys())]. *)
Fixpoint append_signatures (nums : list string) (trustee_fields : trustee_table)
    (result : dict) : Result dict :=
  match nums with
  | [] => Return result
  | trustee_num :: rest =>
      let fields := fields_of trustee_num trustee_fields in
      if truthy (Dict.get_default "name" fields)
         || truthy (Dict.get_default "signature" fields)
      then
        let signature :=
          if truthy (Dict.get_default "signature" fields)
          then VStr "Present" else VNone in
        date <- clean_signature_date (Dict.get_default "date" fields) ;;
        let trustee :=
          VDict [("name", Dict.get_default "name" fields);
                 ("date", date);
                 ("signature", signature)] in
        match Dict.get "trustee_signatures" result with
        | Some (VList signatures) =>
            append_signatures rest trustee_fields
              (Dict.set "trustee_signatures"
                 (VList (signatures ++ [trustee])%list) result)
        | _ => Raise AttributeError
        end
      else append_signatures rest trustee_fields result
  end.

Definition _process_trustee_signatures_from_flat_structure (result : dict)
  : Result dict :=
  let result :=
    if negb (Dict.mem "trustee_signatures" result)
       || negb (truthy (Dict.get_default "trustee_signatures" result))
    then Dict.set "trustee_signatures" (VList []) result
    else result in
  '(result, trustee_fields) <-
     collect_trustee_fields (Dict.keys result) result [] ;;
  append_signatures (PyStr.sorted (Dict.keys trustee_fields))
    trustee_fields result.

Definition boolean_fields : list string :=
  ["identity_verification_consent"; "fraud_prevention_checks_consent";
   "communication_preference_consent"].

Definition _clean_boolean_fields (result : dict) : dict :=
  clean_booleans truthy_tokens boolean_fields result.

Definition extract (chain : chain_t) (text : string) : Result value :=
  result <- LLMExtractor.extract chain DATA_PRIVACY_STATEMENT text ;;
  result <- as_dict TypeError result ;;
  result <- _process_trustee_signatures_from_flat_structure result ;;
  Return (VDict (_clean_boolean_fields result)).

End DataPrivacyStatementExtractor.

(* ------------------------------------------------------------------ *)
(** ** src/processors/pdf_processor.py: the section classifier *)

Module PDFProcessor.

(** The marker list of the [if any(...)] that guards each section. *)
Definition section_markers (section : DocumentSection) : list string :=
  match section with
  | TRUST_REGISTRATION =>
      ["trust registration"; "hmrc unique reference"; "urn";
       "proof of registration"]
  | DONOR_DETAILS =>
      ["details of donor"; "donor details"; "person who made the gift";
       "national insurance number"; "permanent residential address"]
  | TRUSTEE_DETAILS =>
      ["details of trustees"; "trustee details"; "individual trustee";
       "first individual trustee"; "section c"; "nominated contact"]
  | BENEFICIARY_DETAILS =>
      ["beneficiary details"; "details of beneficiary"; "section e";
       "named beneficiary"; "bare trust"]
  | NOMINATED_BANK_ACCOUNT =>
      ["nominated bank account"; "section f"; "bank account";
       "building society account"; "cash withdrawals"]
  | SECURITY_INFORMATION =>
      ["username and security"; "section g"; "security question";
       "online account"; "mother's maiden name"; "first school"]
  | DATA_PRIVACY_STATEMENT =>
      ["data privacy statement"; "privacy policy"; "identity verification";
       "fraud prevention"; "communication preference"; "trustee signature"]
  end.

(** [any(marker in text_lower for marker in markers)]. *)
Definition has_marker (section : DocumentSection) (text_lower : string) : bool :=
  existsb (fun marker => PyStr.contains marker text_lower)
    (section_markers section).

Definition section_index : Type := list (DocumentSection * list nat).

(** [result[section].append(page_num)]. *)
Fixpoint append_page (section : DocumentSection) (page_num : nat)
    (result : section_index) : section_index :=
  match result with
  | [] => []
  | (s, pages) :: rest =>
      if section_eqb s section then (s, (pages ++ [page_num])%list) :: rest
      else (s, pages) :: append_page section page_num rest
  end.

(** The seven tests made on one page, in the order of the source. *)
Definition classify_page (page_num : nat) (text : string)
    (result : section_index) : section_index :=
  let text_lower := PyStr.lower text in
  fold_left
    (fun result section =>
       if has_marker section text_lower
       then append_page section page_num result else result)
    all_sections result.

Definition identify_sections (extracted_text : list (nat * string))
  : section_index :=
  fold_left (fun result page => classify_page (fst page) (snd page) result)
    extracted_text
    (map (fun section => (section, [])) all_sections).

End PDFProcessor.

(* ------------------------------------------------------------------ *)
(** ** src/main.py: the orchestrator

    [process_document] below starts after the file check and the text
    extraction: it receives the page texts [process_pdf] returned.  The
    classes of [lc] and the environment [environ] are what the program
    runs with. *)

(** [extractor.extract(section_text)] for the extractor of a section,
    given by its chain. *)
Definition extractor_extract (section : DocumentSection) (chain : chain_t)
    (text : string) : Result value :=
  match section with
  | TRUST_REGISTRATION => TrustExtractor.extract chain text
  | DONOR_DETAILS => DonorExtractor.extract chain text
  | TRUSTEE_DETAILS => TrusteeExtractor.extract chain text
  | BENEFICIARY_DETAILS => BeneficiaryExtractor.extract chain text
  | NOMINATED_BANK_ACCOUNT => NominatedBankAccountExtractor.extract chain text
  | SECURITY_INFORMATION => SecurityInformationExtractor.extract chain text
  | DATA_PRIVACY_STATEMENT => DataPrivacyStatementExtractor.extract chain text
  end.

Fixpoint page_text (page : nat) (extracted_text : list (nat * string))
  : string :=
  match extracted_text with
  | [] => EmptyString
  | (n, text) :: rest =>
      if (n =? page)%nat then text else page_text page rest
  end.

Fixpoint get_pages (section : DocumentSection)
    (identified_sections : PDFProcessor.section_index) : list nat :=
  match identified_sections with
  | [] => []
  | (s, pages) :: rest =>
      if section_eqb s section then pages else get_pages section rest
  end.

(** [" ".join(extracted_text[page] for page in pages)]. *)
Definition section_text (extracted_text : list (nat * string))
    (pages : list nat) : string :=
  PyStr.join " " (map (fun page => page_text page extracted_text) pages).

Definition results_t : Type := list (string * value).

(** The loop over [sections_to_process]: for a section with pages, the
    extractor is built, then run on the text of the pages. *)
Fixpoint process_sections {T : Type} (lc : LangChain T)
    (environ : list (string * string))
    (extracted_text : list (nat * string))
    (identified_sections : PDFProcessor.section_index)
    (llm_provider : string) (model_name : option string)
    (api_key : option string) (temperature : T)
    (sections_to_process : list DocumentSection) (results : results_t)
  : Result results_t :=
  match sections_to_process with
  | [] => Return results
  | section :: rest =>
      match get_pages section identified_sections with
      | [] =>
          process_sections lc environ extracted_text identified_sections
            llm_provider model_name api_key temperature rest results
      | pages =>
          let section_text := section_text extracted_text pages in
          extractor <-
            LLMExtractor.__init__ lc environ section llm_provider model_name
              api_key temperature ;;
          section_result <- extractor_extract section extractor section_text ;;
          process_sections lc environ extracted_text identified_sections
            llm_provider model_name api_key temperature rest
            (Dict.set (section_value section) section_result results)
      end
  end.

Definition sections_to_process (sections : option (list string))
    (identified_sections : PDFProcessor.section_index) : list DocumentSection :=
  match sections with
  | Some ((_ :: _) as names) =>
      filter (fun section => str_in (section_value section) names) all_sections
  | _ =>
      map fst (filter (fun entry => match snd entry with [] => false | _ => true end)
                 identified_sections)
  end.

Definition process_document {T : Type} (lc : LangChain T)
    (environ : list (string * string))
    (extracted_text : list (nat * string)) (sections : option (list string))
    (llm_provider : string) (model_name : option string)
    (api_key : option string) (temperature : T) : Result results_t :=
  let identified_sections := PDFProcessor.identify_sections extracted_text in
  match sections_to_process sections identified_sections with
  | [] => Return []
  | to_process =>
      process_sections lc environ extracted_text identified_sections
        llm_provider model_name api_key temperature to_process []
  end.

(* ------------------------------------------------------------------ *)
(** ** [BaseExtractor.validate]

    The schema class built from the data, followed by [model_dump].  The schema
    classes are pydantic models with default configuration: a key that is
    not a field is ignored, a missing field is [None], a string field takes
    only a string, a boolean field takes a boolean, 0 or 1, or one of the
    spellings pydantic reads as a boolean, a model field takes a
    dictionary and a list field takes a list of elements none of which is
    [None]. *)

Definition pydantic_true : list string := ["1"; "on"; "t"; "true"; "y"; "yes"].
Definition pydantic_false : list string := ["0"; "off"; "f"; "false"; "n"; "no"].

Definition validate_str (v : value) : Result value :=
  match v with
  | VNone => Return VNone
  | VStr s => Return (VStr s)
  | _ => Raise ValueError
  end.

Definition validate_bool (v : value) : Result value :=
  match v with
  | VNone => Return VNone
  | VBool b => Return (VBool b)
  | VInt z =>
      if (z =? 0)%Z then Return (VBool false)
      else if (z =? 1)%Z then Return (VBool true)
      else Raise ValueError
  | VStr s =>
      if str_in (PyStr.lower s) pydantic_true then Return (VBool true)
      else if str_in (PyStr.lower s) pydantic_false then Return (VBool false)
      else Raise ValueError
  | _ => Raise ValueError
  end.

(** Every field of the schemas is declared [Optional[...]], so a field
    takes [None]; the elements of a [List[...]] are not optional. *)
Definition required (v : value) : Result value :=
  match v with
  | VNone => Raise ValueError
  | _ => Return v
  end.

Fixpoint validate_value (t : field_type) (v : value) {struct t}
  : Result value :=
  match t with
  | TStr => validate_str v
  | TBool => validate_bool v
  | TModel fields =>
      match v with
      | VNone => Return VNone
      | VDict d =>
          d' <- (fix model (fields : list (string * field_type))
                   : Result dict :=
                   match fields with
                   | [] => Return []
                   | (name, ft) :: rest =>
                       x <- validate_value ft (Dict.get_default name d) ;;
                       xs <- model rest ;;
                       Return ((name, x) :: xs)
                   end) fields ;;
          Return (VDict d')
      | _ => Raise ValueError
      end
  | TList elem =>
      match v with
      | VNone => Return VNone
      | VList l =>
          l' <- (fix items (l : list value) : Result (list value) :=
                   match l with
                   | [] => Return []
                   | x :: rest =>
                       x <- required x ;;
                       y <- validate_value elem x ;;
                       ys <- items rest ;;
                       Return (y :: ys)
                   end) l ;;
          Return (VList l')
      | _ => Raise ValueError
      end
  end.

(** [BaseExtractor.validate]: any failure is re-raised as [ValueError]. *)
Definition validate (section : DocumentSection) (data : dict) : Result value :=
  schema_class <- BaseExtractor_init section ;;
  validate_value (TModel schema_class) (VDict data).

(* ------------------------------------------------------------------ *)
(** ** src/processors/pdf_processor.py: text-based or scanned

    A document is given by the texts [page.get_text()] returns for its
    pages, in page order. *)

(** The loop of [_is_scanned_pdf] over the pages to check. *)
Fixpoint scan_pages (min_text_threshold : Z) (texts : list string)
    (total_text : Z) : bool :=
  match texts with
  | [] => (total_text <? min_text_threshold)%Z
  | text :: rest =>
      let total_text := (total_text + Z.of_nat (PyStr.len text))%Z in
      if (min_text_threshold <? Z.of_nat (PyStr.len text))%Z then false
      else scan_pages min_text_threshold rest total_text
  end.

Definition _is_scanned_pdf (min_text_threshold : Z) (page_texts : list string)
  : bool :=
  let pages_to_check := Nat.min 3 (List.length page_texts) in
  scan_pages min_text_threshold (firstn pages_to_check page_texts) 0.

(* ------------------------------------------------------------------ *)
(** ** src/processors/text_processor.py *)

Module TextProcessor.

(** [re.sub(pattern, repl, text)] for a pattern that matches no empty
    text, as the three of [_clean_text] do: the text is read from left to
    right, a match is replaced by [repl] and the reading resumes where the
    match ended; [skip] counts the characters of a match still to pass. *)
Fixpoint sub_from (p : Re.pattern) (repl : string) (total skip : nat)
    (text : string) : string :=
  match text with
  | EmptyString => EmptyString
  | String c rest =>
      match skip with
      | S skip' => sub_from p repl total skip' rest
      | O =>
          match Re.match_at (Re.ignorecase p) total (Re.tree p) text with
          | Some m =>
              match String.length (Re.whole m) with
              | S skip' => repl ++ sub_from p repl total skip' rest
              | O => String c (sub_from p repl total 0 rest)
              end
          | None => String c (sub_from p repl total 0 rest)
          end
      end
  end.

Definition sub (p : Re.pattern) (repl : string) (text : string) : string :=
  sub_from p repl (String.length text) 0 text.

(** The patterns [\n{3,}], [ {2,}] and [[^\x00-\x7F]+].  The first and the
    last are given by their trees: their escapes are none of those the
    extraction patterns use. *)
Definition newlines : Re.pattern :=
  Re.Pattern (Re.RRepeat 3 None true (Re.RChar Re.newline)) Re.NOFLAG.

Definition spaces : Re.pattern := Re.compile " {2,}" Re.NOFLAG.

Definition non_ascii : Re.pattern :=
  Re.Pattern
    (Re.RRepeat 1 None true
       (Re.RClass true [Re.CRange (ascii_of_nat 0) (ascii_of_nat 127)]))
    Re.NOFLAG.

Definition nl : string := String Re.newline EmptyString.

(** [_clean_text]. *)
Definition _clean_text (text : string) : string :=
  let text := sub newlines (nl ++ nl) text in
  let text := sub spaces " " text in
  let text := sub non_ascii " " text in
  let lines := map PyStr.strip (PyStr.split Re.newline text) in
  PyStr.join nl lines.

(** [process_page] on the text [page.get_text()] gives. *)
Definition process_page (clean_text : bool) (page_text : string) : string :=
  if clean_text then _clean_text page_text else page_text.

End TextProcessor.

(* ------------------------------------------------------------------ *)
(** ** src/processors/pdf_processor.py: the text of the pages

    A page of an open document is given by what the two external
    collaborators make of it: the text layer PyMuPDF returns and the text
    the OCR of its rendering returns. *)

Record Page : Type := {
  get_text : string;
  image_to_string : string
}.

(** [result[page_num] = text] on a dictionary keyed by page numbers. *)
Fixpoint set_page (page_num : nat) (text : string)
    (result : list (nat * string)) : list (nat * string) :=
  match result with
  | [] => [(page_num, text)]
  | (n, t) :: rest =>
      if (n =? page_num)%nat then (n, text) :: rest
      else (n, t) :: set_page page_num text rest
  end.

(** The loop of [process_pdf] from page [page_num] on. *)
Fixpoint process_pages (is_scanned : bool) (page_num : nat)
    (pages : list Page) (result : list (nat * string))
  : list (nat * string) :=
  match pages with
  | [] => result
  | page :: rest =>
      let text :=
        if is_scanned then image_to_string page
        else TextProcessor.process_page true (get_text page) in
      process_pages is_scanned (S page_num) rest (set_page page_num text result)
  end.

(** [process_pdf] on an existing file, opened as [pdf_document]. *)
Definition process_pdf (min_text_threshold : Z) (pdf_document : list Page)
  : list (nat * string) :=
  let is_scanned :=
    _is_scanned_pdf min_text_threshold (map get_text pdf_document) in
  process_pages is_scanned 0 pdf_document [].


(* ================================================================== *)
(** * Vocabulary of the properties *)

(** [sure_group g r]: group [g] lies on every path through [r]. *)
Fixpoint sure_group (g : nat) (r : Re.regex) : bool :=
  match r with
  | Re.RGroup n r1 => (n =? g)%nat || sure_group g r1
  | Re.RSeq r1 r2 => sure_group g r1 || sure_group g r2
  | Re.RAlt r1 r2 => sure_group g r1 && sure_group g r2
  | Re.RRepeat lo _ _ r1 => (1 <=? lo)%nat && sure_group g r1
  | _ => false
  end.

Definition has_group (g : nat) (cs : Re.captures) : bool :=
  match Re.lookup g cs with Some _ => true | None => false end.

(** What a successful run tells: the continuation was entered with
    captures that extend the initial ones and hold every sure group. *)
Definition run_post {R : Type} (sure : nat -> bool) (cs : Re.captures)
    (k : Re.cont) (res : R) : Prop :=
  exists s' cs',
    k s' cs' = Some res /\
    (forall g, has_group g cs = true -> has_group g cs' = true) /\
    (forall g, sure g = true -> has_group g cs' = true).

(** A table entry whose match always yields a value: a two-element tuple
    whose group is 0 or is set by every match of its pattern. *)
Definition tuple_ok (t : pattern_tuple) : bool :=
  match t with
  | Tuple2 p g => (g =? 0)%nat || sure_group g (Re.tree p)
  | Tuple3 _ _ _ => false
  end.

Definition table_ok (table : pattern_table) : bool :=
  forallb (fun entry => forallb tuple_ok (snd entry)) table.

Fixpoint nodupb (l : list string) : bool :=
  match l with
  | [] => true
  | x :: l' => negb (str_in x l') && nodupb l'
  end.

(** The first pattern of a list that matches the text, with its match. *)
Fixpoint first_match (text : string) (patterns : list pattern_tuple)
  : option (pattern_tuple * Re.match_obj) :=
  match patterns with
  | [] => None
  | t :: rest =>
      match Re.search (tuple_pattern t) text with
      | Some m => Some (t, m)
      | None => first_match text rest
      end
  end.

(** None of the patterns matches the text. *)
Definition no_match (text : string) (patterns : list pattern_tuple) : Prop :=
  forall t, In t patterns -> Re.search (tuple_pattern t) text = None.

(** A string without leading or trailing white space. *)
Definition trimmed (s : string) : Prop := PyStr.strip s = s.

(** A boolean, null, or a trimmed string. *)
Definition flat_value (v : value) : Prop :=
  match v with
  | VBool _ | VNone => True
  | VStr s => trimmed s
  | _ => False
  end.

(** The state of the outer loop after the fields of [done] were treated:
    the keys are those fields in order, and every value is flat. *)
Definition loop_inv (done : list string) (result : dict) : Prop :=
  Dict.keys result = done /\ forall k v, In (k, v) result -> flat_value v.

(** The default the specification words give a field: [False] for a
    boolean-presence field, one all of whose patterns have group 0, null
    for a nested-object placeholder, the empty string otherwise. *)
Definition presence_field (patterns : list pattern_tuple) : bool :=
  forallb (fun t => (tuple_group t =? 0)%nat) patterns.

(** A provider that always fails. *)
Definition failing_chain : chain_t := fun _ => Raise ProviderError.

(** Classes that build a model whatever their arguments, with chains that
    raise at every call. *)
Definition failing_provider : LangChain unit :=
  {| llm := unit;
     OllamaLLM := fun _ _ => Return tt;
     ChatOpenAI := fun _ _ _ => Return tt;
     ChatGoogleGenerativeAI := fun _ _ _ => Return tt;
     chain_of := fun _ _ => Return failing_chain |}.

(** The pages of a section: those pages of the input, in input order,
    whose lower-cased text holds one of the markers of the section. *)
Definition pages_of (section : DocumentSection)
    (extracted_text : list (nat * string)) : list nat :=
  map fst (filter (fun page =>
                     PDFProcessor.has_marker section (PyStr.lower (snd page)))
             extracted_text).

(** A text made of white space only. *)
Fixpoint all_space (s : string) : bool :=
  match s with
  | EmptyString => true
  | String c s' => PyStr.isspace c && all_space s'
  end.

(** The tree [compile_tree] gives a source outside the fragment. *)
Definition is_never (r : Re.regex) : bool :=
  match r with
  | Re.RClass false [] => true
  | _ => false
  end.

Definition table_compiled (table : pattern_table) : bool :=
  forallb (fun entry =>
             forallb (fun t => negb (is_never (Re.tree (tuple_pattern t))))
               (snd entry)) table.

(** A matcher that hands its continuation nothing longer than its input:
    it cannot tell two continuations that agree on such inputs. *)
Definition local_matcher {R : Type}
    (body : string -> Re.captures -> @Re.cont R -> option R) : Prop :=
  forall s cs (k k' : @Re.cont R),
    (forall s1 cs1, String.length s1 <= String.length s -> k s1 cs1 = k' s1 cs1) ->
    body s cs k = body s cs k'.

(** Whether the section filter of [process_document] lets a section
    through: a missing or empty filter selects every section. *)
Definition selected (sections : option (list string))
    (section : DocumentSection) : bool :=
  match sections with
  | Some ((_ :: _) as names) => str_in (section_value section) names
  | _ => true
  end.

(** Whether the classifier gave the section at least one page. *)
Definition has_pages (extracted_text : list (nat * string))
    (section : DocumentSection) : bool :=
  match pages_of section extracted_text with
  | [] => false
  | _ => true
  end.

(** The sections [process_document] runs an extractor for, in order. *)
Definition active_sections (extracted_text : list (nat * string))
    (sections : option (list string)) : list DocumentSection :=
  filter (fun section => selected sections section
                         && has_pages extracted_text section) all_sections.

(** The run of the extractor of a section: the extractor is built for
    the provider asked for, then its [extract] is called on the texts of
    the pages of the section, joined by a blank. *)
Definition extractor_run {T : Type} (lc : LangChain T)
    (environ : list (string * string))
    (extracted_text : list (nat * string))
    (llm_provider : string) (model_name : option string)
    (api_key : option string) (temperature : T) (section : DocumentSection)
  : Result value :=
  extractor <-
    LLMExtractor.__init__ lc environ section llm_provider model_name api_key
      temperature ;;
  extractor_extract section extractor
    (section_text extracted_text (pages_of section extracted_text)).

(** The loop of [process_document] restricted to the sections that have
    pages; [run] is the run of the extractor of a section. *)
Fixpoint store_all (run : DocumentSection -> Result value)
    (active : list DocumentSection) (results : results_t)
  : Result results_t :=
  match active with
  | [] => Return results
  | section :: rest =>
      section_result <- run section ;;
      store_all run rest
        (Dict.set (section_value section) section_result results)
  end.

(** The result map that holds, for each of the sections and in their
    order, the entity of the section under the section id. *)
Definition result_map (sections : list DocumentSection)
    (entities : list value) : results_t :=
  combine (map section_value sections) entities.

(** The number of characters of a list of texts. *)
Definition total_length (texts : list string) : Z :=
  fold_right (fun text acc => (Z.of_nat (PyStr.len text) + acc)%Z) 0%Z texts.

(** What boolean coercion with the given tokens makes of the entry of a
    key: a string under a declared field becomes a boolean, anything else
    stays. *)
Definition coerced (tokens boolean_fields : list string) (k : string)
    (entry : option value) : option value :=
  match entry with
  | Some (VStr s) =>
      if str_in k boolean_fields
      then Some (VBool (str_in (PyStr.lower s) tokens))
      else Some (VStr s)
  | other => other
  end.

(** The branch of [_process_non_uk_details] taken when the governing flag
    is not true, for the nested key and dependent fields of a class. *)
Definition promote (nested_key : string) (fields : list string)
    (result : dict) : dict :=
  let (result, non_uk_details) := pop_fields fields result [] in
  match Dict.get nested_key result with
  | Some (VDict existing) =>
      Dict.set nested_key (VDict (Dict.update existing non_uk_details)) result
  | _ =>
      if nonempty non_uk_details
      then Dict.set nested_key (VDict non_uk_details) result
      else Dict.set nested_key VNone result
  end.

(** Whether one of the fields is a key of the dictionary. *)
Definition any_present (fields : list string) (result : dict) : bool :=
  existsb (fun f => Dict.mem f result) fields.

(** Every character of the text satisfies [p]. *)
Fixpoint all_chars (p : ascii -> bool) (s : string) : bool :=
  match s with
  | EmptyString => true
  | String c s' => p c && all_chars p s'
  end.

(** The digits of a text, in order. *)
Definition digits_of (s : string) : string :=
  PyStr.remove_chars (fun c => negb (PyStr.isdigit c)) s.

(** Whether the lower-cased text holds one of the phrases that tell the
    donor is deceased. *)
Definition says_deceased (text : string) : bool :=
  existsb (fun indicator => PyStr.contains indicator (PyStr.lower text))
    DonorExtractor.deceased_indicators.

(** Whether a key has the form of a flat trustee field. *)
Definition is_trustee_key (key : string) : bool :=
  matched (Re.match_ DataPrivacyStatementExtractor.trustee_key key).

(** The declared fields of a model, validated one after the other. *)
Fixpoint validate_fields (d : dict) (fields : schema) : Result dict :=
  match fields with
  | [] => Return []
  | (name, ft) :: rest =>
      x <- validate_value ft (Dict.get_default name d) ;;
      xs <- validate_fields d rest ;;
      Return ((name, x) :: xs)
  end.

(** A schema none of whose models declares a field twice. *)
Fixpoint distinct_fields (t : field_type) : bool :=
  match t with
  | TModel fields =>
      nodupb (map fst fields) &&
      (fix all (fields : list (string * field_type)) : bool :=
         match fields with
         | [] => true
         | (_, ft) :: rest => distinct_fields ft && all rest
         end) fields
  | TList elem => distinct_fields elem
  | _ => true
  end.

(** A hyphen or a full stop, the separators a date is rid of. *)
Definition dash_or_dot (c : ascii) : bool :=
  Ascii.eqb c "-" || Ascii.eqb c ".".

Definition not_slash (c : ascii) : bool := negb (Ascii.eqb c "/").
Definition not_dash_or_dot (c : ascii) : bool := negb (dash_or_dot c).

(** A hyphen or a white-space character. *)
Definition hyphen_or_space (c : ascii) : bool :=
  Ascii.eqb c "-" || PyStr.isspace c.

(** A character upper-casing leaves alone. *)
Definition upper_fixed (c : ascii) : bool := Ascii.eqb (PyStr.upper_char c) c.

(** The texts a tree denotes, captures aside; [ic] is [re.IGNORECASE]. *)
Fixpoint denotes (ic : bool) (r : Re.regex) (t : string) : Prop :=
  match r with
  | Re.REmpty | Re.RBol | Re.REol => t = EmptyString
  | Re.RChar c =>
      exists a, t = String a EmptyString /\ Re.char_eq ic a c = true
  | Re.RAny =>
      exists a, t = String a EmptyString /\ Ascii.eqb a Re.newline = false
  | Re.RClass negated items =>
      exists a, t = String a EmptyString /\
                xorb negated (Re.set_mem ic a items) = true
  | Re.RSeq r1 r2 =>
      exists t1 t2, t = t1 ++ t2 /\ denotes ic r1 t1 /\ denotes ic r2 t2
  | Re.RAlt r1 r2 => denotes ic r1 t \/ denotes ic r2 t
  | Re.RGroup _ r1 => denotes ic r1 t
  | Re.RRepeat lo hi _ r1 =>
      exists ts,
        t = String.concat EmptyString ts /\ Forall (denotes ic r1) ts /\
        lo <= List.length ts /\
        match hi with Some h => List.length ts <= h | None => True end
  end.

(** Every group of the tree captures only texts that satisfy [Q]. *)
Fixpoint groups_within (ic : bool) (Q : nat -> string -> Prop)
    (r : Re.regex) : Prop :=
  match r with
  | Re.RGroup n r1 =>
      (forall t, denotes ic r1 t -> Q n t) /\ groups_within ic Q r1
  | Re.RSeq r1 r2 | Re.RAlt r1 r2 =>
      groups_within ic Q r1 /\ groups_within ic Q r2
  | Re.RRepeat _ _ _ r1 => groups_within ic Q r1
  | _ => True
  end.

Definition caps_within (Q : nat -> string -> Prop) (cs : Re.captures) : Prop :=
  forall g t, In (g, t) cs -> Q g t.

(** What a successful run tells about the text consumed. *)
Definition sound_post {R : Type} (ic : bool) (Q : nat -> string -> Prop)
    (r : Re.regex) (s : string) (k : @Re.cont R) (res : R) : Prop :=
  exists t s' cs',
    s = t ++ s' /\ denotes ic r t /\ caps_within Q cs' /\
    k s' cs' = Some res.

(** What the three groups of the signature-date pattern capture: digits,
    one or two for the day and the month, two to four for the year. *)
Definition date_group (g : nat) (t : string) : Prop :=
  all_chars PyStr.isdigit t = true /\
  if (g =? 3)%nat
  then 2 <= String.length t <= 4
  else 1 <= String.length t <= 2.

(** A separator of the parts of a date as the patterns read it. *)
Definition is_sep (c : ascii) : bool := Ascii.eqb c "/" || dash_or_dot c.

(** A date as the patterns capture it: one or two digits, a separator, one
    or two digits, a separator, two to four digits. *)
Definition date_text (t : string) : Prop :=
  exists day sep1 month sep2 year,
    t = day ++ String sep1 (month ++ String sep2 year) /\
    (all_chars PyStr.isdigit day = true /\ 1 <= String.length day <= 2) /\
    (all_chars PyStr.isdigit month = true /\ 1 <= String.length month <= 2) /\
    (all_chars PyStr.isdigit year = true /\ 2 <= String.length year <= 4) /\
    is_sep sep1 = true /\ is_sep sep2 = true.

(** The tree of [\d{1,2}S\d{1,2}S\d{2,4}] for a separator class [S]. *)
Definition date_tree (seps : list Re.class_item) : Re.regex :=
  Re.RSeq (Re.RSeq (Re.RSeq (Re.RSeq
    (Re.RRepeat 1 (Some 2) true (Re.RClass false [Re.CDigit]))
    (Re.RClass false seps))
    (Re.RRepeat 1 (Some 2) true (Re.RClass false [Re.CDigit])))
    (Re.RClass false seps))
    (Re.RRepeat 2 (Some 4) true (Re.RClass false [Re.CDigit])).

Definition slash_dash : list Re.class_item := [Re.CChar "/"; Re.CChar "-"].
Definition slash_dot_dash : list Re.class_item :=
  [Re.CChar "/"; Re.CChar "."; Re.CChar "-"].

Definition class_item_eq_dec (a b : Re.class_item) : {a = b} + {a <> b}.
Proof. decide equality; apply ascii_dec. Defined.

Definition regex_eq_dec (a b : Re.regex) : {a = b} + {a <> b}.
Proof.
  decide equality;
    try apply ascii_dec; try apply Bool.bool_dec; try apply Nat.eq_dec;
    try (apply list_eq_dec; apply class_item_eq_dec).
  decide equality; apply Nat.eq_dec.
Defined.

(** Whether a tree is the date tree of one of the two separator classes
    the patterns use. *)
Definition is_date_tree (r : Re.regex) : bool :=
  if regex_eq_dec r (date_tree slash_dash) then true
  else if regex_eq_dec r (date_tree slash_dot_dash) then true
  else false.

(** Whether every group of a tree is a date tree. *)
Fixpoint date_groups (r : Re.regex) : bool :=
  match r with
  | Re.RGroup _ r1 => is_date_tree r1
  | Re.RSeq r1 r2 | Re.RAlt r1 r2 => date_groups r1 && date_groups r2
  | Re.RRepeat _ _ _ r1 => date_groups r1
  | _ => true
  end.

(** The patterns of a field of a section. *)
Definition patterns_of (section : DocumentSection) (field : string)
  : list pattern_tuple :=
  match Dict.get field (_configure_patterns section) with
  | Some patterns => patterns
  | None => []
  end.

(** A field all of whose patterns give the text of a group. *)
Definition text_field (patterns : list pattern_tuple) : bool :=
  forallb (fun t => negb (tuple_group t =? 0)%nat) patterns.

(** A field all of whose patterns capture a date. *)
Definition date_field (patterns : list pattern_tuple) : bool :=
  forallb (fun t => negb (tuple_group t =? 0)%nat
                    && date_groups (Re.tree (tuple_pattern t))) patterns.

(** An entry that holds a string. *)
Definition holds_str (k : string) (d : dict) : Prop :=
  exists s, Dict.get k d = Some (VStr s).

(** The two dictionaries agree outside the key [k]. *)
Definition same_but (k : string) (d d' : dict) : Prop :=
  forall k', k' <> k -> Dict.get k' d' = Dict.get k' d.

(** The field name a flat trustee key carries, if it is one. *)
Definition field_of_key (key : string) : option string :=
  match Re.match_ DataPrivacyStatementExtractor.trustee_key key with
  | Some m => Re.group m 2
  | None => None
  end.

(** Whether a key is the date of a trustee. *)
Definition is_date_key (key : string) : bool :=
  match field_of_key key with
  | Some field_name => String.eqb field_name "date"
  | None => false
  end.

(** A string, or a value Python takes for false. *)
Definition str_or_falsy (v : value) : Prop :=
  match v with
  | VStr _ => True
  | _ => truthy v = false
  end.

(** Every date collected for a trustee is a string or falsy. *)
Definition dates_ok (trustee_fields : DataPrivacyStatementExtractor.trustee_table)
  : Prop :=
  forall trustee_num,
    str_or_falsy
      (Dict.get_default "date"
         (DataPrivacyStatementExtractor.fields_of trustee_num trustee_fields)).

(** A date in the form the signature transform writes. *)
Definition written_date (v : value) : Prop :=
  exists dd mm yyyy,
    v = VStr (dd ++ "/" ++ mm ++ "/" ++ yyyy) /\
    all_chars PyStr.isdigit dd = true /\ String.length dd = 2 /\
    all_chars PyStr.isdigit mm = true /\ String.length mm = 2 /\
    all_chars PyStr.isdigit yyyy = true /\ 3 <= String.length yyyy <= 4.

(** What [_process_trustee_signatures_from_flat_structure] can work with:
    the existing list of signatures is absent, falsy or a list. *)
Definition signatures_slot_ok (result : dict) : Prop :=
  match Dict.get "trustee_signatures" result with
  | Some (VList _) | None => True
  | Some v => truthy v = false
  end.

(** A character of the ASCII range. *)
Definition is_ascii (c : ascii) : bool := (PyStr.code c <? 128)%nat.

(** The length of the longest prefix of [s] made of characters satisfying
    [p], and [s] without its first [n] characters. *)
Fixpoint span (p : ascii -> bool) (s : string) : nat :=
  match s with
  | String a s' => if p a then S (span p s') else 0
  | EmptyString => 0
  end.

Fixpoint drop (n : nat) (s : string) : string :=
  match n, s with
  | S n', String _ s' => drop n' s'
  | _, _ => s
  end.

(** A tree that matches exactly one character, those satisfying [p]. *)
Definition atom_of (ic : bool) (total : nat) (r : Re.regex)
    (p : ascii -> bool) : Prop :=
  forall (R : Type) s cs (k : @Re.cont R),
    Re.run ic total r s cs k
    = match s with
      | String a s' => if p a then k s' cs else None
      | EmptyString => None
      end.

(** The characters the class [[^\x00-\x7F]] takes. *)
Definition beyond_ascii (a : ascii) : bool :=
  xorb true (Re.set_mem false a [Re.CRange (ascii_of_nat 0) (ascii_of_nat 127)]).

(** The text [process_pdf] stores for a page. *)
Definition text_of (is_scanned : bool) (page : Page) : string :=
  if is_scanned then image_to_string page
  else TextProcessor._clean_text (get_text page).

(** Whether a page text carries a marker of the section. *)
Definition carries (section : DocumentSection) (text : string) : bool :=
  PDFProcessor.has_marker section (PyStr.lower text).

(** No run of [lo] or more characters satisfying [p] starts anywhere in
    the text. *)
Fixpoint no_run (p : ascii -> bool) (lo : nat) (s : string) : bool :=
  (span p s <? lo)%nat &&
  match s with
  | String _ s' => no_run p lo s'
  | EmptyString => true
  end.

(** The class [get_llm] uses for a listed provider, applied to a key, a
    model and a temperature; the local class takes no key. *)
Definition provider_class {T : Type} (lc : LangChain T) (provider : string)
    (key : option string) (model : string) (temperature : T)
  : Result (llm lc) :=
  if String.eqb provider "local" then OllamaLLM lc model temperature
  else if String.eqb provider "openai" then ChatOpenAI lc key model temperature
  else ChatGoogleGenerativeAI lc key model temperature.

(** The key for a listed provider: the one given in the call when it is
    not empty, else the value of the environment variable the listing
    names. *)
Definition key_for (info : provider_info) (api_key : option string)
    (environ : list (string * string)) : option string :=
  if given api_key then api_key
  else match env_var info with
       | Some var => Dict.get var environ
       | None => None
       end.

(** Whether a key can be found for a listed provider: given in the call,
    or set in the environment under the variable the listing names. *)
Definition key_found (info : provider_info) (api_key : option string)
    (environ : list (string * string)) : bool :=
  given api_key ||
  match env_var info with
  | Some var => Dict.mem var environ
  | None => false
  end.

(** A value the schema type accepts: validation of the value returns. *)
Definition well_typed (ft : field_type) (v : value) : Prop :=
  exists x, validate_value ft v = Return x.

(** Every declared field of the schema holds a value of its type. *)
Definition conforms (sc : schema) (r : dict) : Prop :=
  forall name ft, In (name, ft) sc -> well_typed ft (Dict.get_default name r).

Definition str_or_none (v : value) : Prop :=
  match v with VStr _ | VNone => True | _ => False end.

Definition bool_or_none (v : value) : Prop :=
  match v with VBool _ | VNone => True | _ => False end.

Definition is_return {A : Type} (m : Result A) : bool :=
  match m with Return _ => true | Raise _ => false end.

(** The fields of a section whose entry is a string whatever the text. *)
Definition text_fields (section : DocumentSection) (names : list string)
  : bool :=
  forallb (fun field =>
             Dict.mem field (_configure_patterns section)
             && text_field (patterns_of section field)
             && match default_value field with
                | VStr EmptyString => true
                | _ => false
                end) names.

(** The fields of a section whose entry is [True] or the default. *)
Definition flag_fields (section : DocumentSection) (names : list string)
  : bool :=
  forallb (fun field =>
             Dict.mem field (_configure_patterns section)
             && presence_field (patterns_of section field)) names.

(** Every value collected for the trustees under the field [f] satisfies
    [P]. *)
Definition fields_ok (f : string) (P : value -> Prop)
    (trustee_fields : DataPrivacyStatementExtractor.trustee_table) : Prop :=
  forall trustee_num,
    P (Dict.get_default f
         (DataPrivacyStatementExtractor.fields_of trustee_num trustee_fields)).

(* ================================================================== *)
(** * Properties *)

(* ------------------------------------------------------------------ *)
(** ** Dictionaries *)

Section DictFacts.
Context {A : Type}.
Implicit Types (d : list (string * A)) (k : string) (v : A).

Lemma get_set_same k v d : Dict.get k (Dict.set k v d) = Some v.
Proof.
  induction d as [|[k' v'] d IH]; simpl.
  - now rewrite String.eqb_refl.
  - destruct (String.eqb k' k) eqn:E; simpl.
    + now rewrite String.eqb_refl.
    + now rewrite E.
Qed.

Lemma get_set_other k k' v d :
  k <> k' -> Dict.get k (Dict.set k' v d) = Dict.get k d.
Proof.
  intros Hne. induction d as [|[k0 v0] d IH]; simpl.
  - destruct (String.eqb k' k) eqn:E; [|reflexivity].
    apply String.eqb_eq in E. congruence.
  - destruct (String.eqb k0 k') eqn:E; simpl.
    + apply String.eqb_eq in E. subst k0.
      destruct (String.eqb k' k) eqn:E'; [|reflexivity].
      apply String.eqb_eq in E'. congruence.
    + now rewrite IH.
Qed.

Lemma keys_set_present k v d :
  Dict.mem k d = true -> Dict.keys (Dict.set k v d) = Dict.keys d.
Proof.
  unfold Dict.mem, Dict.keys.
  induction d as [|[k' v'] d IH]; simpl; [discriminate|].
  destruct (String.eqb k' k) eqn:E; simpl; intros H.
  - apply String.eqb_eq in E. now subst.
  - now rewrite IH.
Qed.

Lemma keys_set_absent k v d :
  Dict.mem k d = false -> Dict.keys (Dict.set k v d) = (Dict.keys d ++ [k])%list.
Proof.
  unfold Dict.mem, Dict.keys.
  induction d as [|[k' v'] d IH]; simpl; [reflexivity|].
  destruct (String.eqb k' k) eqn:E; simpl; intros H; [discriminate|].
  now rewrite IH.
Qed.

Lemma mem_set_same k v d : Dict.mem k (Dict.set k v d) = true.
Proof. unfold Dict.mem. now rewrite get_set_same. Qed.

Lemma mem_set_other k k' v d :
  k <> k' -> Dict.mem k (Dict.set k' v d) = Dict.mem k d.
Proof. intros H. unfold Dict.mem. now rewrite get_set_other. Qed.

Lemma mem_keys k d : Dict.mem k d = true <-> In k (Dict.keys d).
Proof.
  unfold Dict.mem, Dict.keys.
  induction d as [|[k' v'] d IH]; simpl.
  - split; [discriminate|tauto].
  - destruct (String.eqb k' k) eqn:E.
    + apply String.eqb_eq in E. subst. intuition.
    + apply String.eqb_neq in E. rewrite IH. intuition congruence.
Qed.

(** Writing a key leaves every entry in place, except that of the key. *)
Lemma in_set_inv k v d k0 v0 :
  In (k0, v0) (Dict.set k v d) -> In (k0, v0) d \/ (k0 = k /\ v0 = v).
Proof.
  induction d as [|[k' v'] d IH]; simpl.
  - intros [H|[]]. inversion H. auto.
  - destruct (String.eqb k' k) eqn:E; simpl.
    + intros [H|H]; [inversion H; auto | auto].
    + intros [H|H]; [auto|]. destruct (IH H); auto.
Qed.

End DictFacts.

(* ------------------------------------------------------------------ *)
(** ** The matcher: groups that every match sets *)

Section MatcherFacts.
Context {R : Type}.
Variables (ic : bool) (total : nat).

Lemma rep_loop_captures
    (body : string -> Re.captures -> Re.cont -> option R)
    (sure : nat -> bool) lo hi greedy (k : Re.cont) :
  (forall s cs k' res, body s cs k' = Some res -> run_post sure cs k' res) ->
  forall fuel cnt s cs res,
    Re.rep_loop body lo hi greedy k fuel cnt s cs = Some res ->
    (1 <= cnt -> forall g, sure g = true -> has_group g cs = true) ->
    run_post (fun g => (1 <=? lo)%nat && sure g) cs k res.
Proof.
  intros Hbody. induction fuel as [|fuel IH]; intros cnt s cs res H Hcnt.
  - discriminate.
  - simpl in H.
    assert (Hstop : (if (lo <=? cnt)%nat then k s cs else None) = Some res ->
                    run_post (fun g => (1 <=? lo)%nat && sure g) cs k res).
    { destruct (lo <=? cnt)%nat eqn:Hlo; [|discriminate]. intros Hk.
      exists s, cs. split; [exact Hk|]. split; [auto|].
      intros g Hg. apply andb_prop in Hg as [H1 Hg].
      apply Nat.leb_le in Hlo, H1. apply Hcnt; [lia|exact Hg]. }
    assert (Hmore : forall k1,
               k1 = (fun s1 cs1 =>
                       if (String.length s1 <? String.length s)%nat
                          || (cnt <? lo)%nat
                       then Re.rep_loop body lo hi greedy k fuel (S cnt) s1 cs1
                       else None) ->
               (if Re.below cnt hi then body s cs k1 else None) = Some res ->
               run_post (fun g => (1 <=? lo)%nat && sure g) cs k res).
    { intros k1 -> Hm. destruct (Re.below cnt hi); [|discriminate].
      apply Hbody in Hm as (s1 & cs1 & Hk1 & Hmono & Hsure).
      destruct (_ || _); [|discriminate].
      apply IH in Hk1 as (s2 & cs2 & Hk & Hmono2 & Hsure2).
      - exists s2, cs2. split; [exact Hk|]. split; [|exact Hsure2].
        intros g Hg. auto.
      - intros _ g Hg. auto. }
    destruct greedy.
    + match type of H with
      | match ?m with _ => _ end = _ => destruct m as [x|] eqn:Em
      end.
      * inversion H; subst x. eapply Hmore; [reflexivity|exact Em].
      * auto.
    + match type of H with
      | match ?m with _ => _ end = _ => destruct m as [x|] eqn:Em
      end.
      * inversion H; subst x. auto.
      * eapply Hmore; [reflexivity|exact H].
Qed.

Lemma has_group_cons n t cs g :
  has_group g ((n, t) :: cs) = (n =? g)%nat || has_group g cs.
Proof. unfold has_group. simpl. now destruct (n =? g)%nat. Qed.

Lemma run_captures (r : Re.regex) :
  forall s cs (k : Re.cont) (res : R),
    Re.run ic total r s cs k = Some res ->
    run_post (fun g => sure_group g r) cs k res.
Proof.
  induction r; intros s cs k res H; cbn [Re.run] in H.
  - exists s, cs. repeat split; auto. discriminate.
  - destruct s as [|a s']; [discriminate|].
    destruct (Re.char_eq ic a c); [|discriminate].
    exists s', cs. repeat split; auto. discriminate.
  - destruct s as [|a s']; [discriminate|].
    destruct (Ascii.eqb a Re.newline); [discriminate|].
    exists s', cs. repeat split; auto. discriminate.
  - destruct s as [|a s']; [discriminate|].
    destruct (xorb _ _); [|discriminate].
    exists s', cs. repeat split; auto. discriminate.
  - destruct (_ =? _)%nat; [|discriminate].
    exists s, cs. repeat split; auto. discriminate.
  - assert (k s cs = Some res) as Hk.
    { destruct s as [|a [|b s']]; try discriminate; auto.
      destruct (Ascii.eqb a Re.newline); [auto|discriminate]. }
    exists s, cs. repeat split; auto. discriminate.
  - apply IHr1 in H as (s1 & cs1 & H1 & Hm1 & Hs1).
    apply IHr2 in H1 as (s2 & cs2 & H2 & Hm2 & Hs2).
    exists s2, cs2. split; [exact H2|]. split; [auto|].
    simpl. intros g Hg. apply orb_prop in Hg as [Hg|Hg]; auto.
  - destruct (Re.run ic total r1 s cs k) as [x|] eqn:E1.
    + inversion H; subst x.
      apply IHr1 in E1 as (s1 & cs1 & H1 & Hm1 & Hs1).
      exists s1, cs1. split; [exact H1|]. split; [auto|].
      simpl. intros g Hg. apply andb_prop in Hg as [Hg _]. auto.
    + apply IHr2 in H as (s1 & cs1 & H1 & Hm1 & Hs1).
      exists s1, cs1. split; [exact H1|]. split; [auto|].
      simpl. intros g Hg. apply andb_prop in Hg as [_ Hg]. auto.
  - apply IHr in H as (s1 & cs1 & H1 & Hm1 & Hs1).
    exists s1, ((n, Re.consumed s s1) :: cs1). split; [exact H1|].
    split; intros g Hg; rewrite has_group_cons.
    + rewrite (Hm1 g Hg). apply orb_true_r.
    + simpl in Hg. apply orb_prop in Hg as [Hg|Hg].
      * now rewrite Hg.
      * rewrite (Hs1 g Hg). apply orb_true_r.
  - eapply rep_loop_captures in H.
    + exact H.
    + intros s0 cs0 k' res' H'. apply IHr in H'. exact H'.
    + intros Hc. lia.
Qed.

(** The repetition of a local matcher is local. *)
Lemma rep_loop_local
    (body : string -> Re.captures -> Re.cont -> option R) lo hi greedy :
  local_matcher body ->
  forall fuel cnt s cs (k k' : Re.cont),
    (forall s1 cs1, String.length s1 <= String.length s -> k s1 cs1 = k' s1 cs1) ->
    Re.rep_loop body lo hi greedy k fuel cnt s cs
    = Re.rep_loop body lo hi greedy k' fuel cnt s cs.
Proof.
  intros Hbody. induction fuel as [|fuel IH]; intros cnt s cs k k' Hk;
    [reflexivity|].
  simpl. rewrite (Hk s cs (Nat.le_refl _)).
  rewrite (Hbody s cs _
             (fun s1 cs1 =>
                if (String.length s1 <? String.length s)%nat || (cnt <? lo)%nat
                then Re.rep_loop body lo hi greedy k' fuel (S cnt) s1 cs1
                else None)).
  - reflexivity.
  - intros s1 cs1 Hlen. destruct (_ || _); [|reflexivity].
    apply IH. intros s2 cs2 Hlen2. apply Hk. lia.
Qed.

Lemma run_local (r : Re.regex) : local_matcher (Re.run (R := R) ic total r).
Proof.
  induction r; intros s cs k k' Hk; cbn [Re.run].
  - apply Hk. lia.
  - destruct s as [|a s']; [reflexivity|].
    destruct (Re.char_eq ic a c); [|reflexivity]. apply Hk. simpl. lia.
  - destruct s as [|a s']; [reflexivity|].
    destruct (Ascii.eqb a Re.newline); [reflexivity|]. apply Hk. simpl. lia.
  - destruct s as [|a s']; [reflexivity|].
    destruct (xorb _ _); [|reflexivity]. apply Hk. simpl. lia.
  - now rewrite Hk by lia.
  - now rewrite Hk by lia.
  - apply IHr1. intros s1 cs1 H1. apply IHr2. intros s2 cs2 H2. apply Hk. lia.
  - rewrite (IHr1 s cs k k' Hk), (IHr2 s cs k k' Hk). reflexivity.
  - apply IHr. intros s1 cs1 H1. apply Hk. exact H1.
  - apply rep_loop_local; [exact IHr|exact Hk].
Qed.

(** Fuel above the length of the input plus the iterations still owed is
    never exhausted: more fuel gives the same answer. *)
Lemma rep_loop_fuel
    (body : string -> Re.captures -> Re.cont -> option R) lo hi greedy
    (k : Re.cont) :
  local_matcher body ->
  forall fuel fuel' cnt s cs,
    String.length s + (lo - cnt) < fuel ->
    String.length s + (lo - cnt) < fuel' ->
    Re.rep_loop body lo hi greedy k fuel cnt s cs
    = Re.rep_loop body lo hi greedy k fuel' cnt s cs.
Proof.
  intros Hbody. induction fuel as [|fuel IH]; intros fuel' cnt s cs Hf Hf';
    [lia|].
  destruct fuel' as [|fuel']; [lia|]. simpl.
  rewrite (Hbody s cs _
             (fun s1 cs1 =>
                if (String.length s1 <? String.length s)%nat || (cnt <? lo)%nat
                then Re.rep_loop body lo hi greedy k fuel' (S cnt) s1 cs1
                else None)).
  - reflexivity.
  - intros s1 cs1 Hlen.
    destruct (String.length s1 <? String.length s)%nat eqn:E1; simpl.
    + apply Nat.ltb_lt in E1. apply IH; lia.
    + destruct (cnt <? lo)%nat eqn:E2; [|reflexivity].
      apply Nat.ltb_lt in E2. apply IH; lia.
Qed.

(** The fuel [run] gives a repetition is enough. *)
Lemma run_repeat_fuel lo hi greedy r s cs (k : @Re.cont R) extra :
  Re.run ic total (Re.RRepeat lo hi greedy r) s cs k
  = Re.rep_loop (Re.run ic total r) lo hi greedy k
      (S (String.length s) + lo + extra) 0 s cs.
Proof.
  cbn [Re.run]. apply rep_loop_fuel; [apply run_local|lia|lia].
Qed.

End MatcherFacts.

(** A group that is sure in the tree of a pattern is set by every match
    the search returns. *)
Lemma search_sure_group p text m g :
  Re.search p text = Some m ->
  sure_group g (Re.tree p) = true ->
  exists t, Re.lookup g (Re.groups m) = Some t.
Proof.
  unfold Re.search. generalize (String.length text) as total.
  intros total. induction text as [|c text IH]; simpl; intros H Hg.
  - destruct (Re.match_at _ _ _ _) as [m'|] eqn:E; [|discriminate].
    inversion H; subst m'. unfold Re.match_at in E.
    apply run_captures in E as (s' & cs' & Hk & _ & Hs).
    inversion Hk; subst m. simpl. specialize (Hs g Hg).
    unfold has_group in Hs. destruct (Re.lookup g cs'); [eauto|discriminate].
  - destruct (Re.match_at _ _ _ _) as [m'|] eqn:E.
    + inversion H; subst m'. unfold Re.match_at in E.
      apply run_captures in E as (s' & cs' & Hk & _ & Hs).
      inversion Hk; subst m. simpl. specialize (Hs g Hg).
      unfold has_group in Hs. destruct (Re.lookup g cs'); [eauto|discriminate].
    + auto.
Qed.

(* ------------------------------------------------------------------ *)
(** ** Strings *)

Lemma rstrip_head c s :
  PyStr.rstrip (String c s) = EmptyString \/
  exists r, PyStr.rstrip (String c s) = String c r.
Proof.
  simpl. destruct (PyStr.rstrip s).
  - destruct (PyStr.isspace c); eauto.
  - eauto.
Qed.

Lemma lstrip_head s :
  PyStr.lstrip s = EmptyString \/
  exists c r, PyStr.lstrip s = String c r /\ PyStr.isspace c = false.
Proof.
  induction s as [|c s IH]; simpl; [auto|].
  destruct (PyStr.isspace c) eqn:E; [exact IH|]. right. eauto.
Qed.

Lemma rstrip_idem s : PyStr.rstrip (PyStr.rstrip s) = PyStr.rstrip s.
Proof.
  induction s as [|c s IH]; simpl; [reflexivity|].
  destruct (PyStr.rstrip s) as [|c' r] eqn:E.
  - destruct (PyStr.isspace c) eqn:Ec; simpl; [reflexivity|].
    now rewrite Ec.
  - change (PyStr.rstrip (String c (String c' r))) with
      (match PyStr.rstrip (String c' r) with
       | EmptyString => if PyStr.isspace c then EmptyString
                        else String c EmptyString
       | r0 => String c r0
       end).
    rewrite IH. reflexivity.
Qed.

Lemma strip_idem s : PyStr.strip (PyStr.strip s) = PyStr.strip s.
Proof.
  unfold PyStr.strip.
  destruct (lstrip_head s) as [E|(c & r & E & Hc)]; rewrite E.
  - reflexivity.
  - destruct (rstrip_head c r) as [E'|(r' & E')]; rewrite E'.
    + reflexivity.
    + simpl PyStr.lstrip. rewrite Hc. rewrite <- E'. apply rstrip_idem.
Qed.

Lemma strip_trimmed s : trimmed (PyStr.strip s).
Proof. apply strip_idem. Qed.

Lemma nodupb_NoDup l : nodupb l = true -> NoDup l.
Proof.
  induction l as [|x l IH]; simpl; intros H; constructor.
  - apply andb_prop in H as [H _]. intros Hin.
    unfold str_in in H. apply negb_true_iff in H.
    assert (existsb (String.eqb x) l = true); [|congruence].
    apply existsb_exists. exists x. split; [exact Hin|apply String.eqb_refl].
  - apply andb_prop in H as [_ H]. auto.
Qed.

(* ------------------------------------------------------------------ *)
(** ** The pattern strategy *)

Lemma tables_ok section : table_ok (_configure_patterns section) = true.
Proof. destruct section; vm_compute; reflexivity. Qed.

Lemma tables_compiled section :
  table_compiled (_configure_patterns section) = true.
Proof. destruct section; vm_compute; reflexivity. Qed.

Lemma tables_nodup section :
  nodupb (map fst (_configure_patterns section)) = true.
Proof. destruct section; vm_compute; reflexivity. Qed.

Lemma init_total section : exists sc, BaseExtractor_init section = Return sc.
Proof. destruct section; vm_compute; eauto. Qed.

Lemma try_patterns_first_match text patterns field result :
  try_patterns text patterns field result =
  match first_match text patterns with
  | None => Return result
  | Some (t, m) => v <- matched_value t m ;; Return (Dict.set field v result)
  end.
Proof.
  induction patterns as [|t rest IH]; simpl; [reflexivity|].
  destruct (Re.search (tuple_pattern t) text); [reflexivity|exact IH].
Qed.

Lemma first_match_in text patterns t m :
  first_match text patterns = Some (t, m) ->
  In t patterns /\ Re.search (tuple_pattern t) text = Some m.
Proof.
  induction patterns as [|t0 rest IH]; simpl; [discriminate|].
  destruct (Re.search (tuple_pattern t0) text) eqn:E.
  - intros H. inversion H; subst. auto.
  - intros H. destruct (IH H). auto.
Qed.

Lemma first_match_none text patterns :
  first_match text patterns = None <-> no_match text patterns.
Proof.
  unfold no_match. induction patterns as [|t0 rest IH]; simpl.
  - split; [intros _ t []|reflexivity].
  - destruct (Re.search (tuple_pattern t0) text) eqn:E.
    + split; [discriminate|]. intros H. rewrite (H t0) in E; [discriminate|auto].
    + rewrite IH. split.
      * intros H t [<-|Hin]; auto.
      * intros H t Hin. auto.
Qed.

(** The value of a well-formed entry that matched: [True] for group 0,
    otherwise the stripped text of the group. *)
Lemma matched_value_ok t text m :
  tuple_ok t = true ->
  Re.search (tuple_pattern t) text = Some m ->
  exists v, matched_value t m = Return v /\ flat_value v /\
            (tuple_group t = 0 -> v = VBool true).
Proof.
  destruct t as [p g|p g f]; simpl; [|discriminate].
  unfold matched_value. simpl. intros Hok Hm.
  destruct (g =? 0)%nat eqn:Eg.
  - exists (VBool true). simpl. auto.
  - simpl in Hok. unfold Re.group. rewrite Eg.
    destruct (search_sure_group _ _ _ g Hm Hok) as [txt Htxt]. rewrite Htxt.
    exists (VStr (PyStr.strip txt)). split; [reflexivity|].
    split; [apply strip_trimmed|].
    intros ->. discriminate.
Qed.

Lemma default_value_flat field : flat_value (default_value field).
Proof.
  unfold default_value.
  destruct (str_in field _); [exact I|].
  destruct (str_in field _); [exact I|]. reflexivity.
Qed.

(** One field of the outer loop. *)
Lemma extract_field_step text field patterns done result :
  forallb tuple_ok patterns = true ->
  ~ In field done ->
  loop_inv done result ->
  exists result1,
    try_patterns text patterns field result = Return result1 /\
    let result2 :=
      if negb (Dict.mem field result1)
      then Dict.set field (default_value field) result1 else result1 in
    loop_inv (done ++ [field])%list result2 /\
    (forall k, k <> field -> Dict.get k result2 = Dict.get k result) /\
    match first_match text patterns with
    | None => Dict.get field result2 = Some (default_value field)
    | Some (t, m) =>
        exists v, matched_value t m = Return v /\
                  Dict.get field result2 = Some v
    end.
Proof.
  intros Hok Hnew [Hkeys Hflat].
  assert (Habsent : Dict.mem field result = false).
  { destruct (Dict.mem field result) eqn:E; [|reflexivity].
    apply mem_keys in E. rewrite Hkeys in E. contradiction. }
  rewrite try_patterns_first_match.
  destruct (first_match text patterns) as [[t m]|] eqn:Efm.
  - apply first_match_in in Efm as [Hin Hm].
    rewrite forallb_forall in Hok.
    destruct (matched_value_ok t text m (Hok t Hin) Hm) as (v & Hv & Hfv & _).
    rewrite Hv. simpl. eexists. split; [reflexivity|].
    rewrite mem_set_same. simpl. repeat split.
    + rewrite keys_set_absent; [now rewrite Hkeys|exact Habsent].
    + intros k0 v0 Hin0. apply in_set_inv in Hin0 as [H|[_ ->]]; eauto.
    + intros k Hk. now apply get_set_other.
    + exists v. split; [reflexivity|apply get_set_same].
  - eexists. split; [reflexivity|]. rewrite Habsent. simpl. repeat split.
    + rewrite keys_set_absent; [now rewrite Hkeys|exact Habsent].
    + intros k0 v0 Hin0. apply in_set_inv in Hin0 as [H|[_ ->]]; eauto.
      apply default_value_flat.
    + intros k Hk. now apply get_set_other.
    + apply get_set_same.
Qed.

(** The outer loop on a well-formed table with distinct fields. *)
Lemma extract_fields_spec text table :
  table_ok table = true ->
  NoDup (map fst table) ->
  forall done result,
    loop_inv done result ->
    (forall f, In f (map fst table) -> ~ In f done) ->
    exists d,
      extract_fields text table result = Return d /\
      loop_inv (done ++ map fst table)%list d /\
      (forall k, ~ In k (map fst table) -> Dict.get k d = Dict.get k result) /\
      forall field patterns, In (field, patterns) table ->
        match first_match text patterns with
        | None => Dict.get field d = Some (default_value field)
        | Some (t, m) =>
            exists v, matched_value t m = Return v /\ Dict.get field d = Some v
        end.
Proof.
  induction table as [|[field patterns] table IH]; simpl;
    intros Hok Hnd done result Hinv Hfresh.
  - exists result. rewrite app_nil_r. repeat split; try tauto; apply Hinv.
  - apply andb_prop in Hok as [Hok1 Hok2]. inversion Hnd as [|? ? Hnotin Hnd']; subst.
    destruct (extract_field_step text field patterns done result Hok1
                (Hfresh field (or_introl eq_refl)) Hinv)
      as (result1 & Htry & Hinv2 & Hother & Hfield).
    rewrite Htry. simpl bind.
    set (result2 := if negb (Dict.mem field result1)
                    then Dict.set field (default_value field) result1
                    else result1) in *.
    destruct (IH Hok2 Hnd' (done ++ [field])%list result2 Hinv2)
      as (d & Hd & Hinvd & Hkeep & Hrest).
    { intros f Hf Hin. apply in_app_or in Hin as [Hin|[<-|[]]].
      - exact (Hfresh f (or_intror Hf) Hin).
      - contradiction. }
    exists d. split; [exact Hd|]. split; [|split].
    + now rewrite <- app_assoc in Hinvd.
    + intros k Hk. rewrite Hkeep by tauto. apply Hother. intros ->. tauto.
    + intros f ps [Heq|Hin].
      * inversion Heq; subst f ps. rewrite (Hkeep field Hnotin). exact Hfield.
      * apply Hrest. exact Hin.
Qed.

(** The pattern strategy always returns; its result has the configured
    fields as keys, in order, flat values, and for each field the value of
    the first matching pattern or the default. *)
Lemma RegexExtractor_extract_spec section text :
  exists d,
    RegexExtractor_extract section text = Return d /\
    Dict.keys d = map fst (_configure_patterns section) /\
    (forall k v, In (k, v) d -> flat_value v) /\
    forall field patterns, In (field, patterns) (_configure_patterns section) ->
      match first_match text patterns with
      | None => Dict.get field d = Some (default_value field)
      | Some (t, m) =>
          exists v, matched_value t m = Return v /\ Dict.get field d = Some v
      end.
Proof.
  unfold RegexExtractor_extract.
  destruct (init_total section) as [sc ->]. simpl bind.
  destruct (extract_fields_spec text (_configure_patterns section)
              (tables_ok section) (nodupb_NoDup _ (tables_nodup section))
              [] [])
    as (d & Hd & [Hkeys Hflat] & _ & Hfields).
  - split; [reflexivity|]. intros k v [].
  - intros f _ [].
  - exists d. auto.
Qed.

(** C10.  For every section and text the pattern strategy returns a
    dictionary all of whose values are a boolean, null or a string without
    leading or trailing white space, and a field whose first matching
    pattern has group index 0 holds exactly [True]. *)
Theorem regex_values_flat section text :
  exists d,
    RegexExtractor_extract section text = Return d /\
    (forall k v, In (k, v) d -> flat_value v) /\
    (forall field patterns t m,
        In (field, patterns) (_configure_patterns section) ->
        first_match text patterns = Some (t, m) ->
        tuple_group t = 0 ->
        Dict.get field d = Some (VBool true)).
Proof.
  destruct (RegexExtractor_extract_spec section text)
    as (d & Hd & _ & Hflat & Hfields).
  exists d. split; [exact Hd|]. split; [exact Hflat|].
  intros field patterns t m Hin Hfm Hg.
  specialize (Hfields field patterns Hin). rewrite Hfm in Hfields.
  destruct Hfields as (v & Hv & Hget). rewrite Hget. f_equal.
  destruct (first_match_in _ _ _ _ Hfm) as [Hint Hm].
  pose proof (tables_ok section) as Hok. unfold table_ok in Hok.
  rewrite forallb_forall in Hok. specialize (Hok _ Hin). simpl in Hok.
  rewrite forallb_forall in Hok.
  destruct (matched_value_ok t text m (Hok t Hint) Hm) as (v' & Hv' & _ & Htrue).
  rewrite Hv in Hv'. inversion Hv'; subst v'. auto.
Qed.

Lemma regex_values_flat_witness :
  exists d,
    RegexExtractor_extract BENEFICIARY_DETAILS "Mr Smith" = Return d /\
    Dict.get "title" d = Some (VBool true) /\
    Dict.get "surname" d = Some (VStr EmptyString).
Proof.
  destruct (regex_values_flat BENEFICIARY_DETAILS "Mr Smith")
    as (d & Hd & _ & _).
  exists d. split; [exact Hd|].
  vm_compute in Hd. inversion Hd. split; reflexivity.
Defined.

(** For every section and text the pattern strategy returns a dictionary
    whose keys are exactly the configured fields, in order, and a field
    none of whose patterns matches holds what [default_value] gives for
    its name. *)
Lemma regex_default_fill section text :
  exists d,
    RegexExtractor_extract section text = Return d /\
    Dict.keys d = map fst (_configure_patterns section) /\
    (forall field patterns,
        In (field, patterns) (_configure_patterns section) ->
        no_match text patterns ->
        Dict.get field d = Some (default_value field)).
Proof.
  destruct (RegexExtractor_extract_spec section text)
    as (d & Hd & Hkeys & _ & Hfields).
  exists d. split; [exact Hd|]. split; [exact Hkeys|].
  intros field patterns Hin Hno.
  specialize (Hfields field patterns Hin).
  apply first_match_none in Hno. now rewrite Hno in Hfields.
Qed.

(** C3 at the failing input.  On the empty text no pattern of the trustee
    section matches.  Its fields born_in_uk and solely_uk_citizen are both
    boolean-presence fields, each with one pattern of group 0, and both are
    declared boolean by the schema of the section, yet only the first gets
    the default [False]: the second holds the empty string, as do the
    three consent fields of the data-privacy section.  The names the
    defaults are chosen by do not follow the tables: of the five names
    listed, not_born_in_uk and security_questions are configured by no
    section, so no field ever defaults to null. *)
Theorem presence_default_is_empty_string :
  (forall field, In field ["born_in_uk"; "solely_uk_citizen"] ->
     presence_field (patterns_of TRUSTEE_DETAILS field) = true /\
     first_match EmptyString (patterns_of TRUSTEE_DETAILS field) = None /\
     Dict.get field TrusteeDetails = Some TBool) /\
  (d <- RegexExtractor_extract TRUSTEE_DETAILS EmptyString ;;
   Return (Dict.get "born_in_uk" d, Dict.get "solely_uk_citizen" d))
  = Return (Some (VBool false), Some (VStr EmptyString)) /\
  (forall field, In field DataPrivacyStatementExtractor.boolean_fields ->
     presence_field (patterns_of DATA_PRIVACY_STATEMENT field) = true /\
     Dict.get field DataPrivacyStatement = Some TBool /\
     (d <- RegexExtractor_extract DATA_PRIVACY_STATEMENT EmptyString ;;
      Return (Dict.get field d)) = Return (Some (VStr EmptyString))) /\
  (forall section field,
     In field ["not_born_in_uk"; "security_questions"] ->
     Dict.mem field (_configure_patterns section) = false).
Proof.
  split; [|split; [|split]].
  - intros field [<-|[<-|[]]]; vm_compute; repeat split; reflexivity.
  - vm_compute. reflexivity.
  - intros field [<-|[<-|[<-|[]]]]; vm_compute; repeat split; reflexivity.
  - intros section field [<-|[<-|[]]]; destruct section; vm_compute;
      reflexivity.
Qed.

(** C2.  When the chain raises, whatever the error, the model-backed
    strategy returns the dictionary the pattern strategy returns for the
    same section and text, and raises nothing. *)
Theorem llm_failure_falls_back (chain : chain_t) section text e :
  chain text = Raise e ->
  exists d,
    RegexExtractor_extract section text = Return d /\
    LLMExtractor.extract chain section text = Return (VDict d).
Proof.
  intros Hfail.
  destruct (RegexExtractor_extract_spec section text) as (d & Hd & _).
  exists d. split; [exact Hd|].
  unfold LLMExtractor.extract, LLMExtractor.run_chain.
  rewrite Hfail. simpl. rewrite Hd. reflexivity.
Qed.

Lemma llm_failure_falls_back_witness :
  exists d,
    RegexExtractor_extract DONOR_DETAILS "Surname: Smith" = Return d /\
    LLMExtractor.extract failing_chain DONOR_DETAILS "Surname: Smith"
      = Return (VDict d).
Proof.
  apply (llm_failure_falls_back failing_chain DONOR_DETAILS "Surname: Smith"
           ProviderError).
  reflexivity.
Defined.

(* ------------------------------------------------------------------ *)
(** ** The section classifier *)

Lemma section_eqb_eq a b : section_eqb a b = true <-> a = b.
Proof. destruct a, b; simpl; split; congruence. Qed.

Lemma section_eqb_refl a : section_eqb a a = true.
Proof. now apply section_eqb_eq. Qed.

Lemma append_page_keys section n result :
  map fst (PDFProcessor.append_page section n result) = map fst result.
Proof.
  induction result as [|[s pages] rest IH]; simpl; [reflexivity|].
  destruct (section_eqb s section); simpl; [reflexivity|now rewrite IH].
Qed.

Lemma get_pages_append section target n result :
  get_pages section (PDFProcessor.append_page target n result) =
  if section_eqb target section && existsb (section_eqb section) (map fst result)
  then (get_pages section result ++ [n])%list
  else get_pages section result.
Proof.
  induction result as [|[s pages] rest IH]; simpl.
  - now rewrite andb_false_r.
  - destruct (section_eqb s target) eqn:Est; simpl.
    + apply section_eqb_eq in Est. subst s.
      destruct (section_eqb target section) eqn:Ets; simpl; [|reflexivity].
      apply section_eqb_eq in Ets. subst. now rewrite section_eqb_refl.
    + destruct (section_eqb s section) eqn:Ess.
      * apply section_eqb_eq in Ess. subst s. rewrite section_eqb_refl.
        destruct (section_eqb target section) eqn:Ets; [|reflexivity].
        apply section_eqb_eq in Ets. subst. rewrite section_eqb_refl in Est.
        discriminate.
      * rewrite IH.
        destruct (section_eqb section s) eqn:E'.
        { apply section_eqb_eq in E'. subst. rewrite section_eqb_refl in Ess.
          discriminate. }
        reflexivity.
Qed.

(** The tests of one page over a list [secs] of distinct sections. *)
Lemma classify_fold section n text_lower secs :
  NoDup secs ->
  forall result,
    existsb (section_eqb section) (map fst result) = true ->
    let result' :=
      fold_left
        (fun result s =>
           if PDFProcessor.has_marker s text_lower
           then PDFProcessor.append_page s n result else result)
        secs result in
    map fst result' = map fst result /\
    get_pages section result' =
    if existsb (section_eqb section) secs
       && PDFProcessor.has_marker section text_lower
    then (get_pages section result ++ [n])%list
    else get_pages section result.
Proof.
  induction 1 as [|s secs Hnotin Hnd IH]; intros result Hin; simpl.
  - auto.
  - set (r1 := if PDFProcessor.has_marker s text_lower
               then PDFProcessor.append_page s n result else result).
    assert (Hk1 : map fst r1 = map fst result).
    { unfold r1. destruct (PDFProcessor.has_marker s text_lower);
        [apply append_page_keys|reflexivity]. }
    destruct (IH r1) as [Hk Hp]; [now rewrite Hk1|].
    split; [now rewrite Hk|]. rewrite Hp.
    assert (Hg1 : get_pages section r1 =
                  if section_eqb section s
                     && PDFProcessor.has_marker s text_lower
                  then (get_pages section result ++ [n])%list
                  else get_pages section result).
    { unfold r1. destruct (PDFProcessor.has_marker s text_lower).
      - rewrite get_pages_append, Hin, andb_true_r.
        destruct (section_eqb s section) eqn:E.
        + apply section_eqb_eq in E. subst. now rewrite section_eqb_refl.
        + destruct (section_eqb section s) eqn:E'; [|reflexivity].
          apply section_eqb_eq in E'. subst. rewrite section_eqb_refl in E.
          discriminate.
      - now rewrite andb_false_r. }
    rewrite Hg1.
    destruct (section_eqb section s) eqn:Es; simpl.
    + apply section_eqb_eq in Es. subst s.
      assert (existsb (section_eqb section) secs = false) as ->.
      { destruct (existsb (section_eqb section) secs) eqn:E; [|reflexivity].
        apply existsb_exists in E as (x & Hx & Ex).
        apply section_eqb_eq in Ex. subst. contradiction. }
      reflexivity.
    + reflexivity.
Qed.

Lemma all_sections_NoDup : NoDup all_sections.
Proof.
  unfold all_sections.
  repeat (constructor; [simpl; intuition discriminate|]). constructor.
Qed.

Lemma all_sections_complete section :
  existsb (section_eqb section) all_sections = true.
Proof. destruct section; reflexivity. Qed.

Lemma classify_page_spec section n text result :
  map fst result = all_sections ->
  map fst (PDFProcessor.classify_page n text result) = all_sections /\
  get_pages section (PDFProcessor.classify_page n text result) =
  if PDFProcessor.has_marker section (PyStr.lower text)
  then (get_pages section result ++ [n])%list
  else get_pages section result.
Proof.
  intros Hkeys. unfold PDFProcessor.classify_page.
  destruct (classify_fold section n (PyStr.lower text) all_sections
              all_sections_NoDup result) as [Hk Hp].
  - rewrite Hkeys. apply all_sections_complete.
  - split; [now rewrite Hk|]. rewrite Hp, all_sections_complete. reflexivity.
Qed.

Lemma identify_loop_spec section extracted_text :
  forall result,
    map fst result = all_sections ->
    let result' :=
      fold_left (fun result page =>
                   PDFProcessor.classify_page (fst page) (snd page) result)
        extracted_text result in
    map fst result' = all_sections /\
    get_pages section result' =
    (get_pages section result ++ pages_of section extracted_text)%list.
Proof.
  induction extracted_text as [|[n text] rest IH]; intros result Hkeys; simpl.
  - split; [exact Hkeys|]. now rewrite app_nil_r.
  - destruct (classify_page_spec section n text result Hkeys) as [Hk Hp].
    destruct (IH _ Hk) as [Hk' Hp']. split; [exact Hk'|].
    rewrite Hp', Hp. unfold pages_of. simpl.
    destruct (PDFProcessor.has_marker section (PyStr.lower text)); simpl.
    + now rewrite <- app_assoc.
    + reflexivity.
Qed.

Lemma get_pages_initial section :
  get_pages section (map (fun s => (s, [])) all_sections) = [].
Proof. destruct section; reflexivity. Qed.

Lemma identify_sections_spec section extracted_text :
  map fst (PDFProcessor.identify_sections extracted_text) = all_sections /\
  get_pages section (PDFProcessor.identify_sections extracted_text) =
  pages_of section extracted_text.
Proof.
  unfold PDFProcessor.identify_sections.
  destruct (identify_loop_spec section extracted_text
              (map (fun s => (s, [])) all_sections)) as [Hk Hp].
  - reflexivity.
  - split; [exact Hk|]. now rewrite Hp, get_pages_initial.
Qed.

Lemma NoDup_map_filter {A B : Type} (f : A -> B) (p : A -> bool) l :
  NoDup (map f l) -> NoDup (map f (filter p l)).
Proof.
  induction l as [|x l IH]; simpl; intros H; [constructor|].
  inversion H as [|? ? Hnotin Hnd]; subst.
  destruct (p x); simpl; [|auto].
  constructor; [|auto]. intros Hin. apply Hnotin.
  apply in_map_iff in Hin as (y & Hy & Hin). apply filter_In in Hin as [Hin _].
  apply in_map_iff. eauto.
Qed.

(** C9.  For every page-text mapping (a dictionary, so with distinct page
    numbers) the classifier returns a mapping whose keys are exactly the
    seven sections; the list of a section holds, in input order, the pages
    whose text carries one of its markers, so it is empty when none does,
    and holds no page twice. *)
Theorem identify_sections_index (extracted_text : list (nat * string)) :
  NoDup (map fst extracted_text) ->
  map fst (PDFProcessor.identify_sections extracted_text) = all_sections /\
  forall section,
    get_pages section (PDFProcessor.identify_sections extracted_text)
      = pages_of section extracted_text /\
    NoDup (get_pages section (PDFProcessor.identify_sections extracted_text)).
Proof.
  intros Hnd. split.
  - apply (identify_sections_spec TRUST_REGISTRATION).
  - intros section.
    destruct (identify_sections_spec section extracted_text) as [_ Hp].
    split; [exact Hp|]. rewrite Hp. unfold pages_of.
    now apply NoDup_map_filter.
Qed.

Lemma identify_sections_index_witness :
  map fst (PDFProcessor.identify_sections
             [(0, "Trustee details"); (1, "nothing here");
              (2, "Individual trustee, bank account")]) = all_sections /\
  get_pages TRUSTEE_DETAILS
    (PDFProcessor.identify_sections
       [(0, "Trustee details"); (1, "nothing here");
        (2, "Individual trustee, bank account")]) = [0; 2] /\
  get_pages DONOR_DETAILS
    (PDFProcessor.identify_sections
       [(0, "Trustee details"); (1, "nothing here");
        (2, "Individual trustee, bank account")]) = [].
Proof.
  destruct (identify_sections_index
              [(0, "Trustee details"); (1, "nothing here");
               (2, "Individual trustee, bank account")]) as [Hk Hp].
  - repeat (constructor; [simpl; intuition discriminate|]). constructor.
  - split; [exact Hk|]. split.
    + rewrite (proj1 (Hp TRUSTEE_DETAILS)). reflexivity.
    + rewrite (proj1 (Hp DONOR_DETAILS)). reflexivity.
Defined.

(* ------------------------------------------------------------------ *)
(** ** National-insurance numbers made of white space *)

Lemma lstrip_empty s : PyStr.lstrip s = EmptyString -> all_space s = true.
Proof.
  induction s as [|c s IH]; simpl; [reflexivity|].
  destruct (PyStr.isspace c); [exact IH|discriminate].
Qed.

Lemma strip_empty s : PyStr.strip s = EmptyString -> all_space s = true.
Proof.
  unfold PyStr.strip. intros H. apply lstrip_empty.
  destruct (lstrip_head s) as [E|(c & r & E & Hc)]; [exact E|].
  rewrite E in H. simpl in H.
  destruct (PyStr.rstrip r); [rewrite Hc in H|]; discriminate.
Qed.

Lemma space_char_facts c :
  PyStr.isspace c = true ->
  PyStr.upper_char c = c /\
  Re.set_mem false c [Re.CRange "A" "Z"] = false /\
  Re.set_mem false c [Re.CChar "-"; Re.CSpace] = true.
Proof.
  destruct c as [[] [] [] [] [] [] [] []]; vm_compute; intros H;
    try discriminate H; repeat split.
Qed.

Lemma all_space_tidy s :
  all_space s = true ->
  all_space (PyStr.upper (PyStr.remove_chars PyStr.is_blank s)) = true.
Proof.
  induction s as [|c s IH]; simpl; [reflexivity|].
  intros H. apply andb_prop in H as [Hc Hs].
  destruct (PyStr.is_blank c); [auto|]. simpl.
  destruct (space_char_facts c Hc) as [-> _]. rewrite Hc. auto.
Qed.

Lemma ni_full_tree :
  Re.tree ni_full =
  Re.RSeq (Re.RSeq (Re.RSeq (Re.RSeq Re.RBol
    (Re.RRepeat 2 (Some 2) true (Re.RClass false [Re.CRange "A" "Z"])))
    (Re.RRepeat 6 (Some 6) true (Re.RClass false [Re.CDigit])))
    (Re.RClass false [Re.CRange "A" "Z"])) Re.REol.
Proof. reflexivity. Qed.

Lemma ni_short_tree :
  Re.tree ni_short =
  Re.RSeq (Re.RSeq (Re.RSeq Re.RBol
    (Re.RRepeat 2 (Some 2) true (Re.RClass false [Re.CRange "A" "Z"])))
    (Re.RRepeat 6 (Some 6) true (Re.RClass false [Re.CDigit])))
    Re.REol.
Proof. reflexivity. Qed.

Lemma blank_class_tree :
  Re.tree (Re.compile "[-\s]" Re.NOFLAG)
  = Re.RClass false [Re.CChar "-"; Re.CSpace].
Proof. reflexivity. Qed.

(** Neither pattern matches a text made of white space. *)
Lemma ni_patterns_reject_space s :
  all_space s = true ->
  Re.match_ ni_full s = None /\ Re.match_ ni_short s = None.
Proof.
  destruct s as [|c s]; [split; reflexivity|].
  simpl. intros H. apply andb_prop in H as [Hc _].
  destruct (space_char_facts c Hc) as (_ & Hnot & _).
  unfold Re.match_, Re.match_at. rewrite ni_full_tree, ni_short_tree.
  change (Re.ignorecase ni_full) with false.
  change (Re.ignorecase ni_short) with false.
  cbn [Re.run]. rewrite Nat.eqb_refl.
  cbn [Re.run Re.rep_loop Nat.add Re.below Nat.ltb Nat.leb xorb].
  rewrite Hnot. split; reflexivity.
Qed.

Lemma sub_blank_class s :
  all_space s = true ->
  Re.sub (Re.compile "[-\s]" Re.NOFLAG) EmptyString s = EmptyString.
Proof.
  induction s as [|c s IH]; simpl; [reflexivity|].
  intros H. apply andb_prop in H as [Hc Hs].
  destruct (space_char_facts c Hc) as (_ & _ & Hin).
  unfold Re.matches_char. rewrite blank_class_tree.
  change (Re.ignorecase (Re.compile "[-\s]" Re.NOFLAG)) with false.
  cbn [Re.run xorb]. rewrite Hin. simpl. auto.
Qed.

Lemma tidy_ni_space s :
  PyStr.strip s = EmptyString -> tidy_ni_number s = EmptyString.
Proof.
  intros H. apply strip_empty, all_space_tidy in H.
  unfold tidy_ni_number.
  destruct (ni_patterns_reject_space _ H) as [-> ->]. simpl.
  now apply sub_blank_class.
Qed.

(** A raw national-insurance value made only of white space: the
    beneficiary class turns it into null when it is not empty; the donor
    and trustee classes leave the empty string in the result, for an empty
    value too. *)
Lemma ni_blank_normalisation (result : dict) (s : string) :
  Dict.get "national_insurance_number" result = Some (VStr s) ->
  PyStr.strip s = EmptyString ->
  (s <> EmptyString ->
   BeneficiaryExtractor._clean_national_insurance_number result
   = Return (Dict.set "national_insurance_number" VNone result)) /\
  (exists result',
      DonorExtractor._clean_national_insurance_number result = Return result' /\
      Dict.get "national_insurance_number" result' = Some (VStr EmptyString)) /\
  (exists result',
      TrusteeExtractor._clean_national_insurance_number result = Return result' /\
      Dict.get "national_insurance_number" result' = Some (VStr EmptyString)).
Proof.
  intros Hget Hstrip.
  assert (Hdonor : exists result',
             DonorExtractor._clean_national_insurance_number result
             = Return result' /\
             Dict.get "national_insurance_number" result'
             = Some (VStr EmptyString)).
  { unfold DonorExtractor._clean_national_insurance_number, Dict.get_default.
    rewrite Hget. destruct s as [|c s'].
    - simpl. exists result. auto.
    - simpl truthy. simpl negb. cbv iota.
      rewrite (tidy_ni_space _ Hstrip). eexists. split; [reflexivity|].
      apply get_set_same. }
  split; [|split; exact Hdonor].
  intros Hne.
  unfold BeneficiaryExtractor._clean_national_insurance_number,
    Dict.get_default.
  rewrite Hget. destruct s as [|c s']; [congruence|].
  simpl truthy. simpl negb. cbv iota. rewrite Hstrip. reflexivity.
Qed.

(** C7 at the failing input.  The donor and the trustee classes turn a
    value of three blanks into the empty string, not into null; the
    beneficiary class, the only one with a null branch, turns the three
    blanks into null but returns the empty value as it is, its test for a
    falsy value coming first. *)
Theorem blank_ni_number_not_null :
  DonorExtractor._clean_national_insurance_number
    [("national_insurance_number", VStr "   ")]
  = Return [("national_insurance_number", VStr EmptyString)] /\
  TrusteeExtractor._clean_national_insurance_number
    [("national_insurance_number", VStr "   ")]
  = Return [("national_insurance_number", VStr EmptyString)] /\
  BeneficiaryExtractor._clean_national_insurance_number
    [("national_insurance_number", VStr "   ")]
  = Return [("national_insurance_number", VNone)] /\
  (forall _clean_national_insurance_number,
     In _clean_national_insurance_number
       [DonorExtractor._clean_national_insurance_number;
        TrusteeExtractor._clean_national_insurance_number;
        BeneficiaryExtractor._clean_national_insurance_number] ->
     _clean_national_insurance_number
       [("national_insurance_number", VStr EmptyString)]
     = Return [("national_insurance_number", VStr EmptyString)]).
Proof.
  repeat split; try (vm_compute; reflexivity).
  intros f [<-|[<-|[<-|[]]]]; vm_compute; reflexivity.
Qed.

(* ------------------------------------------------------------------ *)
(** ** Boolean coercion *)

Lemma clean_booleans_other tokens fields k :
  ~ In k fields ->
  forall result,
    Dict.get k (clean_booleans tokens fields result) = Dict.get k result.
Proof.
  induction fields as [|f fields IH]; simpl; intros Hnotin result; [reflexivity|].
  rewrite IH by tauto.
  destruct (Dict.get f result) as [[]|]; try reflexivity.
  apply get_set_other. intros ->. tauto.
Qed.

(** A declared boolean field holding a string becomes [True] exactly when
    the lower-cased string is one of the tokens of the class. *)
Lemma clean_booleans_field tokens fields k s :
  NoDup fields -> In k fields ->
  forall result,
    Dict.get k result = Some (VStr s) ->
    Dict.get k (clean_booleans tokens fields result)
    = Some (VBool (str_in (PyStr.lower s) tokens)).
Proof.
  induction 1 as [|f fields Hnotin Hnd IH]; simpl; [tauto|].
  intros [->|Hin] result Hget.
  - rewrite clean_booleans_other by exact Hnotin.
    rewrite Hget. apply get_set_same.
  - apply IH; [exact Hin|].
    assert (k <> f) by (intros ->; contradiction).
    destruct (Dict.get f result) as [[]|]; try exact Hget.
    now rewrite get_set_other.
Qed.

(** C8 at the failing input.  The beneficiary class coerces the check mark
    to [False], because the fourth token of its list is not the check mark;
    the trustee and data-privacy classes coerce it to [True]. *)
Theorem beneficiary_check_mark_is_false :
  BeneficiaryExtractor._clean_boolean_fields [("born_in_uk", VStr "✓")]
    = [("born_in_uk", VBool false)] /\
  TrusteeExtractor._clean_boolean_fields [("born_in_uk", VStr "✓")]
    = [("born_in_uk", VBool true)] /\
  DataPrivacyStatementExtractor._clean_boolean_fields
    [("identity_verification_consent", VStr "✓")]
    = [("identity_verification_consent", VBool true)].
Proof. vm_compute. repeat split; reflexivity. Qed.

(* ------------------------------------------------------------------ *)
(** ** Conditional sub-structures *)

Lemma beneficiary_flag_true result :
  eq_True (Dict.get_default "born_in_uk" result) = true ->
  BeneficiaryExtractor._process_non_uk_details result
  = Dict.set "not_born_in_uk" VNone result.
Proof.
  intros H. unfold BeneficiaryExtractor._process_non_uk_details.
  now rewrite H.
Qed.

Lemma trustee_flag_true result :
  eq_True (Dict.get_default "solely_uk_citizen" result) = true ->
  TrusteeExtractor._process_non_uk_details result
  = Dict.set "not_uk_details" VNone result.
Proof.
  intros H. unfold TrusteeExtractor._process_non_uk_details.
  now rewrite H.
Qed.

(** C4 at the failing input.  With the governing flag true the nested key
    is null, and the flat dependent fields stay at the top level of the
    result. *)
Theorem flag_true_keeps_flat_fields :
  BeneficiaryExtractor._process_non_uk_details
    [("born_in_uk", VBool true); ("country_of_birth", VStr "France");
     ("nationality", VStr "French")]
  = [("born_in_uk", VBool true); ("country_of_birth", VStr "France");
     ("nationality", VStr "French"); ("not_born_in_uk", VNone)] /\
  TrusteeExtractor._process_non_uk_details
    [("solely_uk_citizen", VBool true); ("country_of_birth", VStr "France");
     ("nationality", VStr "French")]
  = [("solely_uk_citizen", VBool true); ("country_of_birth", VStr "France");
     ("nationality", VStr "French"); ("not_uk_details", VNone)].
Proof. split; reflexivity. Qed.

(* ------------------------------------------------------------------ *)
(** ** Trustee signatures *)

(** C5 at the failing input.  The groups are ordered by the text of their
    number: the entry of group 10 comes before the entry of group 2. *)
Theorem signatures_ordered_as_text :
  DataPrivacyStatementExtractor._process_trustee_signatures_from_flat_structure
    [("trustee2_name", VStr "Second"); ("trustee10_name", VStr "Tenth")]
  = Return
      [("trustee_signatures",
        VList [VDict [("name", VStr "Tenth"); ("date", VNone);
                      ("signature", VNone)];
               VDict [("name", VStr "Second"); ("date", VNone);
                      ("signature", VNone)]])].
Proof. vm_compute. reflexivity. Qed.

(* ------------------------------------------------------------------ *)
(** ** Dates *)

Example date_pivot_99 :
  clean_date_of_birth [("date_of_birth", VStr "01-02-99")]
  = Return [("date_of_birth", VStr "01/02/1999")].
Proof. vm_compute. reflexivity. Qed.

Example date_pivot_05 :
  clean_date_of_birth [("date_of_birth", VStr "01.02.05")]
  = Return [("date_of_birth", VStr "01/02/2005")].
Proof. vm_compute. reflexivity. Qed.

Example date_unparseable_untouched :
  clean_date_of_birth [("date_of_birth", VStr "2nd of March")]
  = Return [("date_of_birth", VStr "2nd of March")].
Proof. vm_compute. reflexivity. Qed.

(** C6 at the failing input.  A date of birth whose third part has two
    characters that are not a number makes the transform raise, and the
    error leaves the donor extractor; the transform of signature dates
    leaves the same text untouched. *)
Theorem date_of_birth_raises :
  clean_date_of_birth [("date_of_birth", VStr "12/03/xx")] = Raise ValueError /\
  DonorExtractor.extract
    (fun _ => Return (VDict [("date_of_birth", VStr "12/03/xx")]))
    "Details of donor" = Raise ValueError /\
  DataPrivacyStatementExtractor.clean_signature_date (VStr "12/03/xx")
  = Return (VStr "12/03/xx").
Proof. vm_compute. repeat split; reflexivity. Qed.

(* ------------------------------------------------------------------ *)
(** ** The embedding on the examples of the specification *)

Example ni_spaced :
  tidy_ni_number "ab 12 34 56 c" = "AB123456C".
Proof. vm_compute. reflexivity. Qed.

Example ni_without_final_letter :
  tidy_ni_number "AB123456" = "AB123456".
Proof. vm_compute. reflexivity. Qed.

Example postcode_stripped_from_address :
  clean_address_fields
    [("permanent_residential_address", VStr "10 Downing St SW1A 1AA");
     ("postcode", VStr "sw1a 1aa")]
  = Return [("permanent_residential_address", VStr "10 Downing St");
            ("postcode", VStr "SW1A 1AA")].
Proof. vm_compute. reflexivity. Qed.

Example not_born_in_uk_promoted :
  BeneficiaryExtractor._process_non_uk_details
    [("born_in_uk", VBool false); ("country_of_birth", VStr "France");
     ("nationality", VStr "French")]
  = [("born_in_uk", VBool false);
     ("not_born_in_uk",
      VDict [("country_of_birth", VStr "France");
             ("nationality", VStr "French")])].
Proof. reflexivity. Qed.

Example empty_signature_group_dropped :
  DataPrivacyStatementExtractor._process_trustee_signatures_from_flat_structure
    [("trustee1_name", VStr "A Smith"); ("trustee1_signature", VStr "sig-bytes");
     ("trustee2_name", VStr EmptyString);
     ("trustee2_signature", VStr EmptyString)]
  = Return
      [("trustee_signatures",
        VList [VDict [("name", VStr "A Smith"); ("date", VNone);
                      ("signature", VStr "Present")]])].
Proof. vm_compute. reflexivity. Qed.

Example deceased_inferred_from_text :
  DonorExtractor._infer_deceased_status [("deceased", VBool false)]
    "The donor HAS PASSED AWAY."
  = [("deceased", VBool true)].
Proof. vm_compute. reflexivity. Qed.

Example first_match_wins :
  (d <- RegexExtractor_extract TRUST_REGISTRATION
          "HMRC unique reference number: XY-1, URN: AB-2" ;;
   Return (Dict.get "HMRC_unique_reference_number" d))
  = Return (Some (VStr "AB-2")).
Proof. vm_compute. reflexivity. Qed.

(* ------------------------------------------------------------------ *)
(** ** The orchestrator: which sections are stored, and when it raises *)

Lemma section_value_inj a b : section_value a = section_value b -> a = b.
Proof. destruct a, b; simpl; intros H; try reflexivity; discriminate H. Qed.

Lemma filter_map_fst {A B : Type} (p : B -> bool) (f : A -> B) l :
  filter p (map f l) = map f (filter (fun x => p (f x)) l).
Proof.
  induction l as [|x l IH]; simpl; [reflexivity|].
  destruct (p (f x)); simpl; now rewrite IH.
Qed.

(** In an index with distinct keys the pages of a listed section are the
    ones stored with it. *)
Lemma get_pages_in section pages index :
  NoDup (map fst index) -> In (section, pages) index ->
  get_pages section index = pages.
Proof.
  induction index as [|[s ps] rest IH]; simpl; intros Hnd Hin; [tauto|].
  inversion Hnd as [|? ? Hnotin Hnd']; subst.
  destruct Hin as [Heq|Hin].
  - inversion Heq; subst. now rewrite section_eqb_refl.
  - destruct (section_eqb s section) eqn:E.
    + apply section_eqb_eq in E. subst s. exfalso. apply Hnotin.
      apply in_map_iff. exists (section, pages). auto.
    + auto.
Qed.

Lemma filter_ext_in_list {A : Type} (p q : A -> bool) l :
  (forall x, In x l -> p x = q x) -> filter p l = filter q l.
Proof.
  induction l as [|x l IH]; simpl; intros H; [reflexivity|].
  rewrite (H x) by auto. rewrite IH by auto. reflexivity.
Qed.

Lemma filter_idem {A : Type} (p : A -> bool) l :
  filter p (filter p l) = filter p l.
Proof.
  induction l as [|x l IH]; simpl; [reflexivity|].
  destruct (p x) eqn:E; simpl; [rewrite E, IH; reflexivity|exact IH].
Qed.

Lemma filter_filter {A : Type} (p q : A -> bool) l :
  filter p (filter q l) = filter (fun x => q x && p x) l.
Proof.
  induction l as [|x l IH]; simpl; [reflexivity|].
  destruct (q x); simpl; [destruct (p x); now rewrite IH|exact IH].
Qed.

(** The sections the loop treats that have pages are the active ones. *)
Lemma to_process_active extracted_text sections :
  filter (has_pages extracted_text)
    (sections_to_process sections
       (PDFProcessor.identify_sections extracted_text))
  = active_sections extracted_text sections.
Proof.
  unfold active_sections.
  assert (Hdefault :
    filter (has_pages extracted_text)
      (map fst (filter (fun entry => match snd entry with
                                     | [] => false | _ => true end)
                  (PDFProcessor.identify_sections extracted_text)))
    = filter (has_pages extracted_text) all_sections).
  { destruct (identify_sections_spec TRUST_REGISTRATION extracted_text)
      as [Hkeys _].
    set (index := PDFProcessor.identify_sections extracted_text) in *.
    assert (Hnd : NoDup (map fst index))
      by (rewrite Hkeys; apply all_sections_NoDup).
    rewrite <- Hkeys.
    rewrite !filter_map_fst. f_equal.
    rewrite (filter_ext_in_list
               (fun entry => match snd entry with [] => false | _ => true end)
               (fun x => has_pages extracted_text (fst x)) index).
    - apply filter_idem.
    - intros [s ps] Hin. simpl. unfold has_pages.
      destruct (identify_sections_spec s extracted_text) as [_ <-].
      fold index. now rewrite (get_pages_in s ps index Hnd Hin). }
  unfold sections_to_process, selected.
  destruct sections as [[|name names]|].
  - rewrite Hdefault. apply filter_ext_in_list. reflexivity.
  - apply filter_filter.
  - rewrite Hdefault. apply filter_ext_in_list. reflexivity.
Qed.

Lemma active_sections_NoDup extracted_text sections :
  NoDup (active_sections extracted_text sections).
Proof. apply NoDup_filter, all_sections_NoDup. Qed.

Lemma active_sections_in extracted_text sections section :
  In section (active_sections extracted_text sections) <->
  selected sections section = true /\
  has_pages extracted_text section = true.
Proof.
  unfold active_sections. rewrite filter_In, andb_true_iff.
  split; [tauto|]. intros H. split; [|exact H].
  destruct section; simpl; auto 10.
Qed.

Section Orchestrator.

Context {T : Type} (lc : LangChain T) (environ : list (string * string)).
Context (extracted_text : list (nat * string)).
Context (llm_provider : string) (model_name api_key : option string).
Context (temperature : T).

Local Abbreviation run :=
  (extractor_run lc environ extracted_text llm_provider model_name api_key
     temperature).

Lemma process_sections_store_all to_process :
  forall results,
    process_sections lc environ extracted_text
      (PDFProcessor.identify_sections extracted_text)
      llm_provider model_name api_key temperature to_process results
    = store_all run (filter (has_pages extracted_text) to_process) results.
Proof.
  induction to_process as [|section rest IH]; intros results; simpl;
    [reflexivity|].
  destruct (identify_sections_spec section extracted_text) as [_ ->].
  unfold has_pages at 1.
  destruct (pages_of section extracted_text) as [|p ps] eqn:E.
  - apply IH.
  - simpl. unfold extractor_run at 1. rewrite E.
    destruct (LLMExtractor.__init__ lc environ section llm_provider
                model_name api_key temperature) as [extractor|e];
      simpl; [|reflexivity].
    destruct (extractor_extract section extractor _); simpl;
      [apply IH|reflexivity].
Qed.

(** [process_document] is the storing loop over the active sections. *)
Lemma process_document_store_all sections :
  process_document lc environ extracted_text sections llm_provider
    model_name api_key temperature
  = store_all run (active_sections extracted_text sections) [].
Proof.
  unfold process_document.
  rewrite <- to_process_active.
  destruct (sections_to_process sections _) as [|s rest] eqn:E.
  - reflexivity.
  - apply process_sections_store_all.
Qed.

End Orchestrator.

Lemma set_absent {A : Type} k (v : A) d :
  Dict.mem k d = false -> Dict.set k v d = (d ++ [(k, v)])%list.
Proof.
  unfold Dict.mem.
  induction d as [|[k' v'] d IH]; simpl; [reflexivity|].
  destruct (String.eqb k' k) eqn:E; simpl; intros H; [discriminate|].
  now rewrite IH.
Qed.

(** The storing loop returns exactly when every run returns, and then it
    appends the entities under the section ids, in order. *)
Lemma store_all_entries run active :
  NoDup active ->
  forall results results',
    (forall s, In s active -> ~ In (section_value s) (Dict.keys results)) ->
    store_all run active results = Return results' <->
    exists entities,
      Forall2 (fun section entity => run section = Return entity)
        active entities /\
      results' = (results ++ result_map active entities)%list.
Proof.
  induction 1 as [|s rest Hnotin Hnd IH]; intros results results' Hfresh;
    simpl.
  - split.
    + intros H. inversion H; subst. exists []. split; [constructor|].
      unfold result_map. simpl. now rewrite app_nil_r.
    + intros (entities & Hall & ->). inversion Hall; subst.
      unfold result_map. simpl. now rewrite app_nil_r.
  - assert (Dict.mem (section_value s) results = false) as Hmem.
    { destruct (Dict.mem (section_value s) results) eqn:E; [|reflexivity].
      apply mem_keys in E. exfalso. apply (Hfresh s); simpl; auto. }
    assert (forall v s', In s' rest ->
              ~ In (section_value s')
                  (Dict.keys (Dict.set (section_value s) v results)))
      as Hfresh'.
    { intros v s' Hin' Hk. rewrite keys_set_absent in Hk by exact Hmem.
      apply in_app_or in Hk as [Hk|[Hk|[]]].
      - apply (Hfresh s'); simpl; auto.
      - apply section_value_inj in Hk. subst s'. contradiction. }
    destruct (run s) as [v|e] eqn:E; simpl.
    + rewrite (IH _ results' (Hfresh' v)). rewrite set_absent by exact Hmem.
      split.
      * intros (entities & Hall & ->). exists (v :: entities).
        split; [constructor; assumption|].
        unfold result_map. simpl. now rewrite <- app_assoc.
      * intros (entities & Hall & ->).
        inversion Hall as [|? entity ? entities' Hs Hrest]; subst.
        rewrite E in Hs. inversion Hs; subst entity.
        exists entities'. split; [exact Hrest|].
        unfold result_map. simpl. now rewrite <- app_assoc.
    + split; [discriminate|].
      intros (entities & Hall & _).
      inversion Hall as [|? entity ? entities' Hs Hrest]; subst.
      rewrite E in Hs. discriminate.
Qed.

(** The result of [process_document], in full. *)
Lemma process_document_entries {T : Type} (lc : LangChain T)
    environ extracted_text sections llm_provider model_name api_key
    temperature results :
  process_document lc environ extracted_text sections llm_provider
    model_name api_key temperature = Return results <->
  exists entities,
    Forall2 (fun section entity =>
               extractor_run lc environ extracted_text llm_provider
                 model_name api_key temperature section = Return entity)
      (active_sections extracted_text sections) entities /\
    results = result_map (active_sections extracted_text sections) entities.
Proof.
  rewrite process_document_store_all.
  rewrite store_all_entries;
    [reflexivity|apply active_sections_NoDup|intros s _ []].
Qed.

Lemma result_map_keys sections entities :
  Forall2 (fun _ _ => True) sections entities ->
  Dict.keys (result_map sections entities) = map section_value sections.
Proof.
  unfold result_map, Dict.keys.
  induction 1 as [|s e sections entities _ _ IH]; simpl; [reflexivity|].
  now rewrite IH.
Qed.

Lemma Forall2_weaken {A B : Type} (P Q : A -> B -> Prop) l l' :
  (forall a b, In a l -> P a b -> Q a b) ->
  Forall2 P l l' -> Forall2 Q l l'.
Proof.
  intros Himp H. induction H as [|a b l l' Hab _ IH]; constructor.
  - apply Himp; [now left|exact Hab].
  - apply IH. intros a' b' Hin. apply Himp. now right.
Qed.

(** An entry of a result map is the entity of one of the sections. *)
Lemma result_map_get (P : DocumentSection -> value -> Prop)
    sections entities key entity :
  Forall2 P sections entities ->
  Dict.get key (result_map sections entities) = Some entity ->
  exists section,
    In section sections /\ key = section_value section /\ P section entity.
Proof.
  unfold result_map.
  induction 1 as [|s e sections entities Hse _ IH]; simpl; [discriminate|].
  destruct (String.eqb (section_value s) key) eqn:E.
  - apply String.eqb_eq in E. intros H. inversion H; subst. eauto.
  - intros H. destruct (IH H) as (section & Hin & Hk & HP). eauto.
Qed.

Lemma Forall2_exists {A B : Type} (P : A -> B -> Prop) l :
  Forall (fun a => exists b, P a b) l <-> exists l', Forall2 P l l'.
Proof.
  induction l as [|a l IH].
  - split; [exists []; constructor|constructor].
  - split.
    + intros H. inversion H as [|? ? [b Hb] Hl]; subst.
      apply IH in Hl as [l' Hl']. exists (b :: l'). now constructor.
    + intros [l' H]. inversion H as [|? b ? l'' Hb Hl]; subst.
      constructor; [eauto|]. apply IH. eauto.
Qed.

(** C1, amended.  Whatever the document, the section filter and the
    provider, [process_document] returns a result map exactly when the
    extractor of every section that passes the filter and has pages can be
    built and its [extract] returns on the space-joined text of the pages
    of the section; the result map then holds, for exactly these sections
    and in the order of the enumeration, the value returned (extraction
    followed by the normalisation of the section) under the section id.
    No schema validation is applied to the value. *)
Theorem stored_result_is_extractor_output {T : Type} (lc : LangChain T)
    (environ : list (string * string))
    (extracted_text : list (nat * string)) (sections : option (list string))
    (llm_provider : string) (model_name api_key : option string)
    (temperature : T) (results : results_t) :
  process_document lc environ extracted_text sections llm_provider
    model_name api_key temperature = Return results <->
  exists entities,
    Forall2 (fun section entity =>
               extractor_run lc environ extracted_text llm_provider
                 model_name api_key temperature section = Return entity)
      (active_sections extracted_text sections) entities /\
    results = result_map (active_sections extracted_text sections) entities.
Proof. apply process_document_entries. Qed.

Lemma stored_result_is_extractor_output_witness :
  process_document failing_provider []
    [(0, "Section F: bank account"); (1, "Sort code: 12 34 56");
     (2, "Donor details")]
    (Some ["nominated_bank_account"]) "local" None None tt
  = Return
      [("nominated_bank_account",
        VDict [("account_holder_name", VStr EmptyString);
               ("account_number", VStr EmptyString);
               ("sort_code", VStr EmptyString)])].
Proof.
  apply (proj2 (stored_result_is_extractor_output failing_provider []
                  [(0, "Section F: bank account");
                   (1, "Sort code: 12 34 56"); (2, "Donor details")]
                  (Some ["nominated_bank_account"]) "local" None None tt _)).
  exists [VDict [("account_holder_name", VStr EmptyString);
                 ("account_number", VStr EmptyString);
                 ("sort_code", VStr EmptyString)]].
  split; [|reflexivity].
  assert (active_sections
            [(0, "Section F: bank account"); (1, "Sort code: 12 34 56");
             (2, "Donor details")] (Some ["nominated_bank_account"])
          = [NOMINATED_BANK_ACCOUNT]) as -> by (vm_compute; reflexivity).
  constructor; [vm_compute; reflexivity|constructor].
Defined.

(** C1 as stated fails: with a failing provider and the one page below,
    the beneficiary entity stored in the result map holds [True] as title,
    and validation of that very entity against the registered schema
    raises. *)
Lemma stored_result_not_validated :
  let entity :=
    [("title", VBool true); ("surname", VStr EmptyString);
     ("forenames", VStr EmptyString); ("date_of_birth", VStr EmptyString);
     ("national_insurance_number", VStr EmptyString);
     ("permanent_residential_address", VStr EmptyString);
     ("postcode", VStr EmptyString); ("country", VStr EmptyString);
     ("telephone_number", VStr EmptyString);
     ("email_address", VStr EmptyString);
     ("born_in_uk", VBool false); ("solely_uk_citizen", VStr EmptyString);
     ("primary_citizenship", VStr EmptyString);
     ("secondary_citizenship", VStr EmptyString);
     ("not_born_in_uk",
      VDict [("country_of_birth", VStr EmptyString);
             ("nationality", VStr EmptyString);
             ("primary_residence", VStr EmptyString);
             ("secondary_residence", VStr EmptyString)])] in
  process_document failing_provider []
    [(0, "Beneficiary details Mr Smith")] None "local" None None tt
    = Return [("beneficiary_details", VDict entity)] /\
  validate BENEFICIARY_DETAILS entity = Raise ValueError.
Proof. vm_compute. split; reflexivity. Qed.

(** X1.  When [process_document] returns, the keys of the result map are
    the names of the sections that pass the filter and have at least one
    page, each once, in the order of the enumeration. *)
Theorem process_document_keys {T : Type} (lc : LangChain T)
    (environ : list (string * string))
    (extracted_text : list (nat * string)) (sections : option (list string))
    (llm_provider : string) (model_name api_key : option string)
    (temperature : T) (results : results_t) :
  process_document lc environ extracted_text sections llm_provider
    model_name api_key temperature = Return results ->
  Dict.keys results
  = map section_value (active_sections extracted_text sections).
Proof.
  intros H. apply process_document_entries in H as (entities & Hall & ->).
  apply result_map_keys. revert Hall. apply Forall2_weaken. auto.
Qed.

Lemma process_document_keys_witness :
  Dict.keys
    [("trust_registration",
      VDict [("HMRC_unique_reference_number", VStr "AB-1");
             ("proof_of_registration_attached", VBool false)]);
     ("nominated_bank_account",
      VDict [("account_holder_name", VStr EmptyString);
             ("account_number", VStr EmptyString);
             ("sort_code", VStr EmptyString)])]
  = map section_value
      (active_sections [(0, "Section F"); (1, "URN: AB-1")] None).
Proof.
  apply (process_document_keys failing_provider [] _ _ "local" None None tt).
  vm_compute. reflexivity.
Defined.

(** X2.  [process_document] returns exactly when, for every section that
    passes the filter and has pages, the extractor can be built for the
    provider asked for and its [extract] returns: an exception raised
    while one extractor is built (a provider that is not supported, a
    missing key, a model class that refuses its arguments) or run makes
    the whole call raise, and the entities of the other sections are
    lost. *)
Theorem process_document_returns_iff {T : Type} (lc : LangChain T)
    (environ : list (string * string))
    (extracted_text : list (nat * string)) (sections : option (list string))
    (llm_provider : string) (model_name api_key : option string)
    (temperature : T) :
  (exists results,
      process_document lc environ extracted_text sections llm_provider
        model_name api_key temperature = Return results)
  <-> forall section,
        selected sections section = true ->
        has_pages extracted_text section = true ->
        exists v,
          extractor_run lc environ extracted_text llm_provider model_name
            api_key temperature section = Return v.
Proof.
  split.
  - intros [results H] section Hsel Hpages.
    apply process_document_entries in H as (entities & Hall & _).
    assert (Hrun := proj2 (Forall2_exists _ _) (ex_intro _ entities Hall)).
    rewrite Forall_forall in Hrun.
    apply Hrun. now apply active_sections_in.
  - intros H.
    assert (exists entities,
               Forall2 (fun section entity =>
                          extractor_run lc environ extracted_text
                            llm_provider model_name api_key temperature
                            section = Return entity)
                 (active_sections extracted_text sections) entities)
      as [entities Hall].
    { apply Forall2_exists, Forall_forall. intros section Hin.
      apply active_sections_in in Hin as [Hsel Hpages]. auto. }
    eexists. apply process_document_entries. eauto.
Qed.

(** X3.  When no page carries a marker of any section, the result map is
    empty, whatever the filter and the providers: nothing is raised. *)
Theorem process_document_no_section {T : Type} (lc : LangChain T)
    (environ : list (string * string))
    (extracted_text : list (nat * string)) (sections : option (list string))
    (llm_provider : string) (model_name api_key : option string)
    (temperature : T) :
  (forall section, pages_of section extracted_text = []) ->
  process_document lc environ extracted_text sections llm_provider
    model_name api_key temperature = Return [].
Proof.
  intros Hnone. rewrite process_document_store_all.
  assert (active_sections extracted_text sections = []) as ->; [|reflexivity].
  unfold active_sections.
  induction all_sections as [|s l IH]; simpl; [reflexivity|].
  unfold has_pages at 1. rewrite Hnone, andb_false_r. exact IH.
Qed.

Lemma process_document_no_section_witness :
  process_document failing_provider []
    [(0, "A page about something else"); (1, EmptyString)]
    (Some ["donor_details"]) "openai" None None tt
  = Return [].
Proof.
  apply process_document_no_section.
  intros section. destruct section; reflexivity.
Defined.

(* ------------------------------------------------------------------ *)
(** ** Text-based or scanned *)

Lemma total_length_nonneg texts : (0 <= total_length texts)%Z.
Proof. induction texts; simpl; lia. Qed.

Lemma scan_pages_total threshold texts :
  forall total,
    (0 <= total)%Z ->
    scan_pages threshold texts total
    = (total + total_length texts <? threshold)%Z.
Proof.
  induction texts as [|text rest IH]; intros total Htotal; simpl.
  - now rewrite Z.add_0_r.
  - pose proof (total_length_nonneg rest).
    destruct (threshold <? Z.of_nat (PyStr.len text))%Z eqn:E.
    + apply Z.ltb_lt in E. symmetry. apply Z.ltb_ge. lia.
    + rewrite IH by lia. f_equal. lia.
Qed.

(** X4.  A document counts as scanned exactly when its first three pages
    (all of them when there are fewer) hold fewer characters in total than
    the threshold; the early exit on a long page never changes the answer. *)
Theorem is_scanned_iff_little_text threshold page_texts :
  _is_scanned_pdf threshold page_texts
  = (total_length (firstn 3 page_texts) <? threshold)%Z.
Proof.
  unfold _is_scanned_pdf. cbv zeta.
  assert (firstn (Nat.min 3 (List.length page_texts)) page_texts
          = firstn 3 page_texts) as ->.
  { destruct (Nat.le_ge_cases 3 (List.length page_texts)) as [H|H].
    - now rewrite Nat.min_l.
    - rewrite Nat.min_r by exact H.
      rewrite !firstn_all2; [reflexivity|exact H|lia]. }
  now rewrite scan_pages_total by lia.
Qed.

(* ------------------------------------------------------------------ *)
(** ** Boolean coercion, in general *)

Lemma str_in_In x xs : str_in x xs = true <-> In x xs.
Proof.
  unfold str_in. rewrite existsb_exists. split.
  - intros (y & Hin & E). apply String.eqb_eq in E. now subst.
  - intros H. exists x. split; [exact H|apply String.eqb_refl].
Qed.

Lemma str_in_cons x y xs :
  str_in x (y :: xs) = String.eqb x y || str_in x xs.
Proof. reflexivity. Qed.

Lemma clean_booleans_keys tokens fields :
  forall result,
    Dict.keys (clean_booleans tokens fields result) = Dict.keys result.
Proof.
  induction fields as [|f fields IH]; intros result; simpl; [reflexivity|].
  rewrite IH. destruct (Dict.get f result) as [[]|] eqn:E; try reflexivity.
  apply keys_set_present. unfold Dict.mem. now rewrite E.
Qed.

Lemma clean_booleans_get tokens fields k :
  NoDup fields ->
  forall result,
    Dict.get k (clean_booleans tokens fields result)
    = coerced tokens fields k (Dict.get k result).
Proof.
  induction 1 as [|f fields Hnotin Hnd IH]; intros result; simpl.
  - unfold coerced. destruct (Dict.get k result) as [[]|]; reflexivity.
  - rewrite IH. unfold coerced. rewrite str_in_cons.
    destruct (String.eqb k f) eqn:Ekf.
    + apply String.eqb_eq in Ekf. subst f.
      destruct (Dict.get k result) as [[]|] eqn:Eg; rewrite ?Eg;
        try reflexivity.
      rewrite get_set_same. reflexivity.
    + apply String.eqb_neq in Ekf. simpl.
      destruct (Dict.get f result) as [[]|] eqn:Ef;
        try reflexivity.
      rewrite get_set_other by exact Ekf. reflexivity.
Qed.

(** X5.  Boolean coercion of the trustee, beneficiary and data-privacy
    classes keeps the keys of the result and their order, turns a string
    under a declared boolean field into [True] or [False] according to
    whether its lower-cased text is in the token list of the class, and
    leaves every other entry, and every value that is not a string,
    as it is. *)
Theorem boolean_coercion_entries (result : dict) (k : string) :
  (Dict.keys (TrusteeExtractor._clean_boolean_fields result)
   = Dict.keys result /\
   Dict.get k (TrusteeExtractor._clean_boolean_fields result)
   = coerced truthy_tokens TrusteeExtractor.boolean_fields k
       (Dict.get k result)) /\
  (Dict.keys (BeneficiaryExtractor._clean_boolean_fields result)
   = Dict.keys result /\
   Dict.get k (BeneficiaryExtractor._clean_boolean_fields result)
   = coerced BeneficiaryExtractor.truthy_tokens
       BeneficiaryExtractor.boolean_fields k (Dict.get k result)) /\
  (Dict.keys (DataPrivacyStatementExtractor._clean_boolean_fields result)
   = Dict.keys result /\
   Dict.get k (DataPrivacyStatementExtractor._clean_boolean_fields result)
   = coerced truthy_tokens DataPrivacyStatementExtractor.boolean_fields k
       (Dict.get k result)).
Proof.
  unfold TrusteeExtractor._clean_boolean_fields,
    BeneficiaryExtractor._clean_boolean_fields,
    DataPrivacyStatementExtractor._clean_boolean_fields.
  repeat split; try apply clean_booleans_keys;
    apply clean_booleans_get; apply nodupb_NoDup; reflexivity.
Qed.

(* ------------------------------------------------------------------ *)
(** ** Promotion of flat fields to a nested object *)

Section MoreDictFacts.
Context {A : Type}.
Implicit Types (d : list (string * A)) (k : string) (v : A).

Lemma get_none_not_in k d : Dict.get k d = None <-> ~ In k (Dict.keys d).
Proof.
  rewrite <- mem_keys. unfold Dict.mem.
  destruct (Dict.get k d); split; intros H; try reflexivity;
    try discriminate; exfalso; auto.
Qed.

Lemma get_remove_other k f d :
  k <> f -> Dict.get k (Dict.remove f d) = Dict.get k d.
Proof.
  intros Hne. induction d as [|[k0 v0] d IH]; simpl; [reflexivity|].
  destruct (String.eqb k0 f) eqn:E; simpl.
  - apply String.eqb_eq in E. subst k0.
    destruct (String.eqb f k) eqn:E'; [|reflexivity].
    apply String.eqb_eq in E'. congruence.
  - now rewrite IH.
Qed.

Lemma keys_remove_incl f d k :
  In k (Dict.keys (Dict.remove f d)) -> In k (Dict.keys d).
Proof.
  induction d as [|[k0 v0] d IH]; simpl; [tauto|].
  destruct (String.eqb k0 f); simpl; intuition.
Qed.

Lemma NoDup_remove f d :
  NoDup (Dict.keys d) -> NoDup (Dict.keys (Dict.remove f d)).
Proof.
  induction d as [|[k0 v0] d IH]; simpl; intros H; [constructor|].
  inversion H as [|? ? Hnotin Hnd]; subst.
  destruct (String.eqb k0 f); simpl; [exact Hnd|].
  constructor; [|auto]. intros Hin. apply Hnotin.
  eapply keys_remove_incl. exact Hin.
Qed.

(** In a dictionary, whose keys are distinct, a popped key is gone. *)
Lemma get_remove_same f d :
  NoDup (Dict.keys d) -> Dict.get f (Dict.remove f d) = None.
Proof.
  induction d as [|[k0 v0] d IH]; simpl; intros H; [reflexivity|].
  inversion H as [|? ? Hnotin Hnd]; subst.
  destruct (String.eqb k0 f) eqn:E; simpl.
  - apply String.eqb_eq in E. subst k0. now apply get_none_not_in.
  - rewrite E. auto.
Qed.

Lemma NoDup_set k v d :
  NoDup (Dict.keys d) -> NoDup (Dict.keys (Dict.set k v d)).
Proof.
  intros H. destruct (Dict.mem k d) eqn:E.
  - now rewrite keys_set_present.
  - rewrite keys_set_absent by exact E.
    apply NoDup_app; [exact H|repeat constructor; simpl; tauto|].
    intros x Hx [<-|[]]. apply mem_keys in Hx. congruence.
Qed.

(** [update] lets the other dictionary win on every key it holds. *)
Lemma get_update k other :
  NoDup (Dict.keys other) ->
  forall d,
    Dict.get k (Dict.update d other)
    = match Dict.get k other with
      | Some v => Some v
      | None => Dict.get k d
      end.
Proof.
  unfold Dict.update.
  induction other as [|[k0 v0] other IH]; simpl; intros Hnd d; [reflexivity|].
  inversion Hnd as [|? ? Hnotin Hnd']; subst.
  rewrite IH by exact Hnd'.
  destruct (String.eqb k0 k) eqn:E.
  - apply String.eqb_eq in E. subst k0.
    apply get_none_not_in in Hnotin. rewrite Hnotin. apply get_set_same.
  - apply String.eqb_neq in E.
    destruct (Dict.get k other); [reflexivity|].
    apply get_set_other. congruence.
Qed.

End MoreDictFacts.

(** The pop loop: what is left, and what is collected. *)
Lemma pop_fields_spec fields :
  forall result collected result' collected',
    NoDup (Dict.keys result) -> NoDup (Dict.keys collected) ->
    pop_fields fields result collected = (result', collected') ->
    NoDup (Dict.keys result') /\ NoDup (Dict.keys collected') /\
    (forall k, Dict.get k result'
               = if str_in k fields then None else Dict.get k result) /\
    (forall k, Dict.get k collected'
               = if str_in k fields
                 then match Dict.get k result with
                      | Some v => Some v
                      | None => Dict.get k collected
                      end
                 else Dict.get k collected) /\
    nonempty collected' = nonempty collected || any_present fields result.
Proof.
  induction fields as [|f fields IH];
    intros result collected result' collected' Hr Hc H; simpl in H.
  - inversion H; subst. repeat split; auto.
    unfold any_present. simpl. now rewrite orb_false_r.
  - destruct (Dict.get f result) as [v|] eqn:Ef.
    + apply IH in H as (Hr' & Hc' & Hres & Hcol & Hne);
        [|now apply NoDup_remove|now apply NoDup_set].
      split; [exact Hr'|]. split; [exact Hc'|]. split; [|split].
      * intros k. rewrite Hres, str_in_cons.
        destruct (String.eqb k f) eqn:E; simpl.
        { apply String.eqb_eq in E. subst k.
          rewrite get_remove_same by exact Hr.
          now destruct (str_in f fields). }
        { apply String.eqb_neq in E. now rewrite get_remove_other. }
      * intros k. rewrite Hcol, str_in_cons.
        destruct (String.eqb k f) eqn:E; simpl.
        { apply String.eqb_eq in E. subst k.
          rewrite get_remove_same by exact Hr. rewrite get_set_same, Ef.
          now destruct (str_in f fields). }
        { apply String.eqb_neq in E.
          rewrite get_remove_other, get_set_other by exact E. reflexivity. }
      * rewrite Hne. unfold any_present. simpl. unfold Dict.mem at 2.
        rewrite Ef. simpl. rewrite orb_true_r.
        destruct (Dict.set f v collected) eqn:Es; [|reflexivity].
        destruct collected as [|[k0 v0] c]; simpl in Es; [discriminate|].
        destruct (String.eqb k0 f); discriminate.
    + apply IH in H as (Hr' & Hc' & Hres & Hcol & Hne); [|exact Hr|exact Hc].
      split; [exact Hr'|]. split; [exact Hc'|]. split; [|split].
      * intros k. rewrite Hres, str_in_cons.
        destruct (String.eqb k f) eqn:E; simpl; [|reflexivity].
        apply String.eqb_eq in E. subst k. rewrite Ef.
        now destruct (str_in f fields).
      * intros k. rewrite Hcol, str_in_cons.
        destruct (String.eqb k f) eqn:E; simpl; [|reflexivity].
        apply String.eqb_eq in E. subst k. rewrite Ef.
        now destruct (str_in f fields).
      * rewrite Hne. unfold any_present. simpl. unfold Dict.mem at 2.
        now rewrite Ef.
Qed.

(** The promotion, for any nested key that is not a dependent field. *)
Lemma promote_spec nested_key fields result :
  str_in nested_key fields = false ->
  NoDup (Dict.keys result) ->
  (forall k, k <> nested_key ->
             Dict.get k (promote nested_key fields result)
             = if str_in k fields then None else Dict.get k result) /\
  match Dict.get nested_key result with
  | Some (VDict existing) =>
      exists merged,
        Dict.get nested_key (promote nested_key fields result)
        = Some (VDict merged) /\
        forall k, Dict.get k merged
                  = if str_in k fields
                    then match Dict.get k result with
                         | Some v => Some v
                         | None => Dict.get k existing
                         end
                    else Dict.get k existing
  | _ =>
      if any_present fields result then
        exists nested,
          nested <> [] /\
          Dict.get nested_key (promote nested_key fields result)
          = Some (VDict nested) /\
          forall k, Dict.get k nested
                    = if str_in k fields then Dict.get k result else None
      else
        Dict.get nested_key (promote nested_key fields result) = Some VNone
  end.
Proof.
  intros Hkey Hnd. unfold promote.
  destruct (pop_fields fields result []) as [rest collected] eqn:Epop.
  apply pop_fields_spec in Epop as (Hr & Hc & Hres & Hcol & Hne);
    [|exact Hnd|constructor].
  simpl in Hne.
  assert (Hnested : Dict.get nested_key rest = Dict.get nested_key result)
    by (now rewrite Hres, Hkey).
  assert (Hcol' : forall k, Dict.get k collected
                            = if str_in k fields then Dict.get k result
                              else None).
  { intros k. rewrite Hcol. destruct (str_in k fields); [|reflexivity].
    now destruct (Dict.get k result). }
  rewrite Hnested.
  destruct (Dict.get nested_key result) as [[| | | | |existing]|] eqn:Eold;
    try (split;
         [ intros k Hk; destruct (nonempty collected);
           rewrite get_set_other by exact Hk; apply Hres
         | rewrite <- Hne; destruct (nonempty collected) eqn:En;
           [ exists collected; split;
             [ intros ->; discriminate
             | split; [apply get_set_same|exact Hcol'] ]
           | apply get_set_same ] ]).
  split.
  - intros k Hk. rewrite get_set_other by exact Hk. apply Hres.
  - eexists. split; [apply get_set_same|].
    intros k. rewrite get_update by exact Hc. rewrite Hcol'.
    destruct (str_in k fields); [|reflexivity].
    now destruct (Dict.get k result).
Qed.

Lemma trustee_flag_not_true result :
  eq_True (Dict.get_default "solely_uk_citizen" result) = false ->
  TrusteeExtractor._process_non_uk_details result
  = promote "not_uk_details" TrusteeExtractor.non_uk_fields result.
Proof.
  intros H. unfold TrusteeExtractor._process_non_uk_details. now rewrite H.
Qed.

Lemma beneficiary_flag_not_true result :
  eq_True (Dict.get_default "born_in_uk" result) = false ->
  BeneficiaryExtractor._process_non_uk_details result
  = promote "not_born_in_uk" BeneficiaryExtractor.non_uk_fields result.
Proof.
  intros H. unfold BeneficiaryExtractor._process_non_uk_details. now rewrite H.
Qed.

(** X6.  Trustee details whose flag solely_uk_citizen is not true, with no
    nested object yet: every dependent field leaves the top level, every
    other entry stays, and not_uk_details is null when no dependent field
    was present, otherwise an object that is not empty and holds exactly
    the dependent fields that were present, with their values. *)
Theorem trustee_promotion (result : dict) :
  NoDup (Dict.keys result) ->
  eq_True (Dict.get_default "solely_uk_citizen" result) = false ->
  is_dict (Dict.get_default "not_uk_details" result) = false ->
  let result' := TrusteeExtractor._process_non_uk_details result in
  (forall k, k <> "not_uk_details" ->
             Dict.get k result'
             = if str_in k TrusteeExtractor.non_uk_fields then None
               else Dict.get k result) /\
  if any_present TrusteeExtractor.non_uk_fields result then
    exists nested,
      nested <> [] /\
      Dict.get "not_uk_details" result' = Some (VDict nested) /\
      forall k, Dict.get k nested
                = if str_in k TrusteeExtractor.non_uk_fields
                  then Dict.get k result else None
  else Dict.get "not_uk_details" result' = Some VNone.
Proof.
  intros Hnd Hflag Hold. cbv zeta. rewrite trustee_flag_not_true by exact Hflag.
  destruct (promote_spec "not_uk_details" TrusteeExtractor.non_uk_fields
              result eq_refl Hnd) as [Htop Hnested].
  split; [exact Htop|].
  unfold Dict.get_default in Hold.
  destruct (Dict.get "not_uk_details" result) as [[]|]; try exact Hnested.
  discriminate.
Qed.

Lemma trustee_promotion_witness :
  Dict.get "not_uk_details"
    (TrusteeExtractor._process_non_uk_details
       [("surname", VStr "Martin"); ("solely_uk_citizen", VBool false);
        ("country_of_birth", VStr "France")])
  = Some (VDict [("country_of_birth", VStr "France")]) /\
  Dict.get "country_of_birth"
    (TrusteeExtractor._process_non_uk_details
       [("surname", VStr "Martin"); ("solely_uk_citizen", VBool false);
        ("country_of_birth", VStr "France")])
  = None.
Proof.
  destruct (trustee_promotion
              [("surname", VStr "Martin"); ("solely_uk_citizen", VBool false);
               ("country_of_birth", VStr "France")]) as [Htop _].
  - apply nodupb_NoDup. reflexivity.
  - reflexivity.
  - reflexivity.
  - split; [reflexivity|]. apply Htop. discriminate.
Defined.

(** X7.  Beneficiary details whose flag born_in_uk is not true and whose
    not_born_in_uk is already an object: the object is kept and updated
    with the dependent fields found at the top level, whose values win on
    a conflict, and those fields leave the top level. *)
Theorem beneficiary_merge (result existing : dict) :
  NoDup (Dict.keys result) ->
  eq_True (Dict.get_default "born_in_uk" result) = false ->
  Dict.get "not_born_in_uk" result = Some (VDict existing) ->
  let result' := BeneficiaryExtractor._process_non_uk_details result in
  (forall k, k <> "not_born_in_uk" ->
             Dict.get k result'
             = if str_in k BeneficiaryExtractor.non_uk_fields then None
               else Dict.get k result) /\
  exists merged,
    Dict.get "not_born_in_uk" result' = Some (VDict merged) /\
    forall k, Dict.get k merged
              = if str_in k BeneficiaryExtractor.non_uk_fields
                then match Dict.get k result with
                     | Some v => Some v
                     | None => Dict.get k existing
                     end
                else Dict.get k existing.
Proof.
  intros Hnd Hflag Hold. cbv zeta.
  rewrite beneficiary_flag_not_true by exact Hflag.
  destruct (promote_spec "not_born_in_uk" BeneficiaryExtractor.non_uk_fields
              result eq_refl Hnd) as [Htop Hnested].
  split; [exact Htop|]. now rewrite Hold in Hnested.
Qed.

Lemma beneficiary_merge_witness :
  Dict.get "not_born_in_uk"
    (BeneficiaryExtractor._process_non_uk_details
       [("nationality", VStr "French");
        ("not_born_in_uk",
         VDict [("nationality", VStr "unknown");
                ("passport_number", VStr "12AB34567")])])
  = Some (VDict [("nationality", VStr "French");
                 ("passport_number", VStr "12AB34567")]).
Proof.
  destruct (beneficiary_merge
              [("nationality", VStr "French");
               ("not_born_in_uk",
                VDict [("nationality", VStr "unknown");
                       ("passport_number", VStr "12AB34567")])]
              [("nationality", VStr "unknown");
               ("passport_number", VStr "12AB34567")])
    as [_ (merged & Hget & _)].
  - apply nodupb_NoDup. reflexivity.
  - reflexivity.
  - reflexivity.
  - reflexivity.
Defined.

(* ------------------------------------------------------------------ *)
(** ** Bank account numbers and sort codes *)

Lemma matches_char_non_digit c :
  Re.matches_char NominatedBankAccountExtractor.non_digit c
  = negb (PyStr.isdigit c).
Proof. destruct c as [[] [] [] [] [] [] [] []]; vm_compute; reflexivity. Qed.

Lemma sub_non_digit s :
  Re.sub NominatedBankAccountExtractor.non_digit EmptyString s = digits_of s.
Proof.
  unfold digits_of. induction s as [|c s IH]; simpl; [reflexivity|].
  rewrite matches_char_non_digit, IH. reflexivity.
Qed.

Lemma digits_of_all_digits s : all_chars PyStr.isdigit (digits_of s) = true.
Proof.
  unfold digits_of. induction s as [|c s IH]; simpl; [reflexivity|].
  destruct (PyStr.isdigit c) eqn:E; simpl; [now rewrite E|exact IH].
Qed.

Lemma digits_of_fixed s :
  all_chars PyStr.isdigit s = true -> digits_of s = s.
Proof.
  unfold digits_of. induction s as [|c s IH]; simpl; [reflexivity|].
  intros H. apply andb_prop in H as [Hc Hs]. rewrite Hc. simpl.
  now rewrite IH.
Qed.

(** X8.  The account number: a string value is replaced by its digits, in
    order, every other character being dropped; the keys of the result
    stay as they are and nothing is raised. *)
Theorem account_number_digits (result : dict) (s : string) :
  Dict.get "account_number" result = Some (VStr s) ->
  exists result',
    NominatedBankAccountExtractor._clean_account_number result
    = Return result' /\
    Dict.keys result' = Dict.keys result /\
    Dict.get "account_number" result' = Some (VStr (digits_of s)) /\
    all_chars PyStr.isdigit (digits_of s) = true.
Proof.
  intros Hget.
  unfold NominatedBankAccountExtractor._clean_account_number, Dict.get_default.
  rewrite Hget. destruct s as [|c s].
  - exists result. repeat split; auto.
  - simpl truthy. simpl negb. cbv iota. rewrite sub_non_digit.
    eexists. split; [reflexivity|]. split; [|split].
    + apply keys_set_present. unfold Dict.mem. now rewrite Hget.
    + apply get_set_same.
    + apply digits_of_all_digits.
Qed.

Lemma account_number_digits_witness :
  exists result',
    NominatedBankAccountExtractor._clean_account_number
      [("account_number", VStr "1234 5678 (GBP)")] = Return result' /\
    Dict.get "account_number" result' = Some (VStr "12345678").
Proof.
  destruct (account_number_digits
              [("account_number", VStr "1234 5678 (GBP)")] "1234 5678 (GBP)")
    as (result' & Hrun & _ & Hget & _); [reflexivity|].
  exists result'. split; [exact Hrun|exact Hget].
Defined.

(** X9.  The sort code: a string value that is not empty keeps exactly its
    digits, in order; with six digits they are written in pairs joined by
    hyphens, with any other number of digits they are left bare. *)
Theorem sort_code_format (result : dict) (s : string) :
  Dict.get "sort_code" result = Some (VStr s) ->
  s <> EmptyString ->
  exists result' t,
    NominatedBankAccountExtractor._clean_sort_code result = Return result' /\
    Dict.get "sort_code" result' = Some (VStr t) /\
    digits_of t = digits_of s /\
    (String.length (digits_of s) = 6 ->
     exists a b c,
       String.length a = 2 /\ String.length b = 2 /\ String.length c = 2 /\
       digits_of s = a ++ b ++ c /\ t = a ++ "-" ++ b ++ "-" ++ c) /\
    (String.length (digits_of s) <> 6 -> t = digits_of s).
Proof.
  intros Hget Hne.
  unfold NominatedBankAccountExtractor._clean_sort_code, Dict.get_default.
  rewrite Hget. destruct s as [|c0 s0]; [congruence|].
  simpl truthy. simpl negb. cbv iota. rewrite sub_non_digit.
  pose proof (digits_of_all_digits (String c0 s0)) as Hall.
  set (digits := digits_of (String c0 s0)) in *. clearbody digits.
  destruct (String.length digits =? 6)%nat eqn:E.
  - apply Nat.eqb_eq in E.
    destruct digits as [|d1 [|d2 [|d3 [|d4 [|d5 [|d6 [|d7 r]]]]]]];
      try discriminate E.
    eexists. eexists. split; [reflexivity|]. split; [apply get_set_same|].
    simpl in Hall.
    repeat (apply andb_prop in Hall as [? Hall]).
    split; [|split].
    + unfold digits_of. simpl.
      repeat match goal with
             | H : PyStr.isdigit _ = true |- _ => rewrite H; clear H
             end.
      reflexivity.
    + intros _. exists (String d1 (String d2 EmptyString)),
        (String d3 (String d4 EmptyString)),
        (String d5 (String d6 EmptyString)).
      repeat split.
    + simpl. intros Hlen. congruence.
  - apply Nat.eqb_neq in E.
    eexists. eexists. split; [reflexivity|]. split; [apply get_set_same|].
    split; [|split].
    + apply digits_of_fixed. exact Hall.
    + intros H. contradiction.
    + reflexivity.
Qed.

Lemma sort_code_format_witness :
  exists result',
    NominatedBankAccountExtractor._clean_sort_code
      [("sort_code", VStr "12 34 56")] = Return result' /\
    Dict.get "sort_code" result' = Some (VStr "12-34-56").
Proof.
  destruct (sort_code_format [("sort_code", VStr "12 34 56")] "12 34 56")
    as (result' & t & Hrun & Hget & _); [reflexivity|discriminate|].
  exists result'. split; [exact Hrun|].
  vm_compute in Hrun. inversion Hrun. reflexivity.
Defined.

(* ------------------------------------------------------------------ *)
(** ** Deceased status *)

Lemma prefix_lower n : forall h,
  prefix n h = true -> prefix (PyStr.lower n) (PyStr.lower h) = true.
Proof.
  induction n as [|c n IH]; intros h; destruct h as [|c' h]; simpl;
    try reflexivity; try discriminate.
  destruct (ascii_dec c c') as [->|Hne]; [|discriminate].
  intros H. destruct (ascii_dec _ _); [auto|congruence].
Qed.

Lemma contains_lower n h :
  PyStr.contains n h = true ->
  PyStr.contains (PyStr.lower n) (PyStr.lower h) = true.
Proof.
  induction h as [|c h IH]; intros H.
  - simpl in H. apply orb_prop in H as [H|H]; [|discriminate].
    apply (prefix_lower n EmptyString) in H.
    change (PyStr.lower EmptyString) with EmptyString in *.
    cbn [PyStr.contains]. now rewrite H.
  - simpl in H. apply orb_prop in H as [H|H].
    + apply (prefix_lower n (String c h)) in H.
      change (PyStr.lower (String c h))
        with (String (PyStr.lower_char c) (PyStr.lower h)) in *.
      cbn [PyStr.contains]. now rewrite H.
    + change (PyStr.lower (String c h))
        with (String (PyStr.lower_char c) (PyStr.lower h)).
      cbn [PyStr.contains]. rewrite (IH H). apply orb_true_r.
Qed.

Lemma prefix_app_contains a b : forall h,
  prefix (a ++ b) h = true -> PyStr.contains b h = true.
Proof.
  induction a as [|c a IH]; intros h.
  - change (EmptyString ++ b) with b.
    intros H. destruct h; cbn [PyStr.contains]; now rewrite H.
  - destruct h as [|c' h]; simpl; [discriminate|].
    destruct (ascii_dec c c'); [|discriminate].
    intros H. rewrite (IH h H). apply orb_true_r.
Qed.

Lemma prefix_app_left a b : forall h,
  prefix (a ++ b) h = true -> prefix a h = true.
Proof.
  induction a as [|c a IH]; intros h; destruct h as [|c' h]; simpl;
    try reflexivity; try discriminate.
  destruct (ascii_dec c c'); [apply IH|discriminate].
Qed.

Lemma contains_app_right a b h :
  PyStr.contains (a ++ b) h = true -> PyStr.contains b h = true.
Proof.
  induction h as [|c h IH]; cbn [PyStr.contains]; intros H.
  - apply orb_prop in H as [H|H]; [|discriminate].
    apply prefix_app_contains in H. exact H.
  - apply orb_prop in H as [H|H].
    + apply prefix_app_contains in H. exact H.
    + rewrite (IH H). apply orb_true_r.
Qed.

Lemma contains_app_left a b h :
  PyStr.contains (a ++ b) h = true -> PyStr.contains a h = true.
Proof.
  induction h as [|c h IH]; cbn [PyStr.contains]; intros H.
  - apply orb_prop in H as [H|H]; [|discriminate].
    apply prefix_app_left in H. now rewrite H.
  - apply orb_prop in H as [H|H].
    + apply prefix_app_left in H. now rewrite H.
    + rewrite (IH H). apply orb_true_r.
Qed.

(** A text that pairs a phrase with a checkbox glyph holds the phrase. *)
Lemma checkbox_pair_says_deceased text :
  existsb (fun deceased_indicator =>
     existsb (fun checkbox =>
       PyStr.contains (checkbox ++ ".*" ++ deceased_indicator) text ||
       PyStr.contains (deceased_indicator ++ ".*" ++ checkbox) text)
       DonorExtractor.checkbox_indicators)
    DonorExtractor.deceased_indicators = true ->
  says_deceased text = true.
Proof.
  intros H. apply existsb_exists in H as (ind & Hind & H).
  apply existsb_exists in H as (cb & _ & H).
  unfold says_deceased. apply existsb_exists. exists ind.
  split; [exact Hind|].
  assert (PyStr.contains ind text = true) as Hc.
  { apply orb_prop in H as [H|H].
    - apply contains_app_right in H. apply contains_app_right in H. exact H.
    - apply contains_app_left in H. exact H. }
  apply contains_lower in Hc.
  assert (PyStr.lower ind = ind) as Hl.
  { simpl in Hind. destruct Hind as [<-|[<-|[<-|[<-|[]]]]]; reflexivity. }
  now rewrite Hl in Hc.
Qed.

(** X10.  Deceased inference: the flag is [True] whenever the lower-cased
    text holds one of the four phrases; otherwise it keeps the value it
    had, or becomes [False] when the key was missing.  No other entry
    changes, and the pairing with checkbox glyphs never changes the
    outcome. *)
Theorem deceased_is_phrase_or_previous (result : dict) (text : string) :
  Dict.get "deceased" (DonorExtractor._infer_deceased_status result text)
  = Some (if says_deceased text then VBool true
          else match Dict.get "deceased" result with
               | Some v => v
               | None => VBool false
               end) /\
  forall k, k <> "deceased" ->
            Dict.get k (DonorExtractor._infer_deceased_status result text)
            = Dict.get k result.
Proof.
  unfold DonorExtractor._infer_deceased_status.
  fold (says_deceased text).
  set (base := if negb (Dict.mem "deceased" result)
               then Dict.set "deceased" (VBool false) result else result).
  assert (Hbase : Dict.get "deceased" base
                  = Some (match Dict.get "deceased" result with
                          | Some v => v | None => VBool false end)).
  { unfold base, Dict.mem.
    destruct (Dict.get "deceased" result) eqn:E; simpl;
      [exact E|apply get_set_same]. }
  assert (Hother : forall k, k <> "deceased" ->
                             Dict.get k base = Dict.get k result).
  { intros k Hk. unfold base. destruct (negb _); [|reflexivity].
    now apply get_set_other. }
  match goal with
  | |- context [if existsb ?f ?l then _ else _] =>
      destruct (existsb f l) eqn:Ebox
  end.
  - apply checkbox_pair_says_deceased in Ebox. rewrite Ebox. split.
    + apply get_set_same.
    + intros k Hk. rewrite !get_set_other by exact Hk. auto.
  - destruct (says_deceased text); split.
    + apply get_set_same.
    + intros k Hk. rewrite get_set_other by exact Hk. auto.
    + exact Hbase.
    + exact Hother.
Qed.

(* ------------------------------------------------------------------ *)
(** ** Security questions *)

(** X11.  Security questions, on a result with distinct keys.  A nested
    object that is present and not empty is left alone, flat fields
    included.  Otherwise the two question fields leave the top level; when
    one of them was present they become the nested object, replacing
    whatever was under that key, and when none was present the key is left
    as it was, absent included. *)
Theorem security_questions_nesting (result : dict) :
  NoDup (Dict.keys result) ->
  let result' := SecurityInformationExtractor._process_security_questions
                   result in
  let existing := Dict.get_default "security_questions" result in
  if truthy existing && is_dict existing then result' = result
  else
    (forall k, k <> "security_questions" ->
       Dict.get k result'
       = if str_in k SecurityInformationExtractor.security_question_fields
         then None else Dict.get k result) /\
    if any_present SecurityInformationExtractor.security_question_fields result
    then exists nested,
        nested <> [] /\
        Dict.get "security_questions" result' = Some (VDict nested) /\
        forall k, Dict.get k nested
          = if str_in k SecurityInformationExtractor.security_question_fields
            then Dict.get k result else None
    else Dict.get "security_questions" result'
         = Dict.get "security_questions" result.
Proof.
  intros Hnd. cbv zeta.
  unfold SecurityInformationExtractor._process_security_questions.
  destruct (truthy (Dict.get_default "security_questions" result)) eqn:Et;
    destruct (is_dict (Dict.get_default "security_questions" result)) eqn:Ed;
    cbn [andb negb orb]; try reflexivity.
  all: destruct (pop_fields SecurityInformationExtractor.security_question_fields
                   result []) as [rest collected] eqn:Epop;
    apply pop_fields_spec in Epop as (Hr & Hc & Hres & Hcol & Hne);
    [|exact Hnd|apply NoDup_nil];
    change (nonempty []) with false in Hne; rewrite orb_false_l in Hne;
    rewrite <- Hne;
    (assert (Hcol' : forall k, Dict.get k collected
               = if str_in k SecurityInformationExtractor.security_question_fields
                 then Dict.get k result else None)
      by (intros k; rewrite Hcol;
          destruct (str_in k _); [|reflexivity];
          now destruct (Dict.get k result)));
    destruct (nonempty collected) eqn:En;
    (split;
     [ intros k Hk; rewrite ?get_set_other by exact Hk; apply Hres
     | first [ exists collected; split;
               [ intros ->; discriminate
               | split; [apply get_set_same|exact Hcol'] ]
             | now rewrite Hres ] ]).
Qed.

Lemma security_questions_nesting_witness :
  exists nested,
    Dict.get "security_questions"
      (SecurityInformationExtractor._process_security_questions
         [("username", VStr "jsmith"); ("security_questions", VStr EmptyString);
          ("first_school_name", VStr "Hill Road")])
    = Some (VDict nested) /\
    Dict.get "first_school_name" nested = Some (VStr "Hill Road") /\
    Dict.get "first_school_name"
      (SecurityInformationExtractor._process_security_questions
         [("username", VStr "jsmith"); ("security_questions", VStr EmptyString);
          ("first_school_name", VStr "Hill Road")])
    = None.
Proof.
  assert (NoDup (Dict.keys [("username", VStr "jsmith");
                            ("security_questions", VStr EmptyString);
                            ("first_school_name", VStr "Hill Road")])) as Hnd
    by (apply nodupb_NoDup; reflexivity).
  destruct (security_questions_nesting _ Hnd) as [Htop Hnested].
  destruct Hnested as (nested & _ & Hget & Hfields).
  exists nested. split; [exact Hget|]. split.
  - rewrite Hfields. reflexivity.
  - rewrite Htop by discriminate. reflexivity.
Defined.

(* ------------------------------------------------------------------ *)
(** ** First match wins *)

(** X12.  For every field of a section, the pattern strategy stores what
    the first pattern that matches the text gives, [True] for group 0 and
    the stripped text of the group otherwise, whatever the later patterns
    of the field would match. *)
Theorem first_match_decides section text field patterns t m :
  In (field, patterns) (_configure_patterns section) ->
  first_match text patterns = Some (t, m) ->
  exists d captured,
    RegexExtractor_extract section text = Return d /\
    Re.group m (tuple_group t) = Some captured /\
    Dict.get field d
    = Some (if (tuple_group t =? 0)%nat then VBool true
            else VStr (PyStr.strip captured)).
Proof.
  intros Hin Hfm.
  destruct (RegexExtractor_extract_spec section text)
    as (d & Hd & _ & _ & Hfields).
  specialize (Hfields field patterns Hin). rewrite Hfm in Hfields.
  destruct Hfields as (v & Hv & Hget).
  destruct (first_match_in _ _ _ _ Hfm) as [Hint Hm].
  pose proof (tables_ok section) as Hok. unfold table_ok in Hok.
  rewrite forallb_forall in Hok. specialize (Hok _ Hin). simpl in Hok.
  rewrite forallb_forall in Hok. specialize (Hok t Hint).
  destruct t as [p g|p g f]; [|discriminate]. simpl in *.
  unfold matched_value in Hv. simpl in Hv. unfold Re.group in *.
  destruct (g =? 0)%nat eqn:Eg.
  - inversion Hv; subst v. exists d, (Re.whole m). auto.
  - simpl in Hok. destruct (search_sure_group _ _ _ g Hm Hok) as [txt Htxt].
    rewrite Htxt in Hv. inversion Hv; subst v. exists d, txt. auto.
Qed.

Lemma first_match_decides_witness :
  exists d,
    RegexExtractor_extract NOMINATED_BANK_ACCOUNT
      "Account number: 11 Bank account number: 22" = Return d /\
    Dict.get "account_number" d = Some (VStr "22").
Proof.
  destruct (first_match_decides NOMINATED_BANK_ACCOUNT
              "Account number: 11 Bank account number: 22"
              "account_number"
              [Tuple2 (Re.compile "(?:Bank|Building\s+society)\s+account\s+number[:\s]*([0-9\s]+)" Re.IGNORECASE) 1;
               Tuple2 (Re.compile "Account\s+number[:\s]*([0-9\s]+)" Re.IGNORECASE) 1]
              (Tuple2 (Re.compile "(?:Bank|Building\s+society)\s+account\s+number[:\s]*([0-9\s]+)" Re.IGNORECASE) 1)
              (Re.MatchObj "Bank account number: 22" [(1, "22")]))
    as (d & captured & Hd & Hg & Hget).
  - simpl. right. left. reflexivity.
  - vm_compute. reflexivity.
  - exists d. split; [exact Hd|]. rewrite Hget.
    vm_compute in Hg. inversion Hg. reflexivity.
Defined.

(* ------------------------------------------------------------------ *)
(** ** Flat trustee keys *)

Lemma collect_trustee_fields_spec keys :
  forall result trustee_fields result' trustee_fields',
    NoDup (Dict.keys result) ->
    DataPrivacyStatementExtractor.collect_trustee_fields keys result
      trustee_fields = Return (result', trustee_fields') ->
    NoDup (Dict.keys result') /\
    forall k, Dict.get k result'
              = if str_in k keys && is_trustee_key k then None
                else Dict.get k result.
Proof.
  induction keys as [|key keys IH];
    intros result tf result' tf' Hnd H; simpl in H.
  - inversion H; subst. split; [exact Hnd|]. intros k. reflexivity.
  - destruct (Re.match_ DataPrivacyStatementExtractor.trustee_key key)
      as [m|] eqn:Em.
    + destruct (Re.group m 1) as [num|]; [|discriminate].
      destruct (Re.group m 2) as [name|]; [|discriminate].
      apply IH in H as [Hnd' Hget]; [|now apply NoDup_remove].
      split; [exact Hnd'|]. intros k. rewrite Hget, str_in_cons.
      destruct (String.eqb k key) eqn:E; simpl.
      * apply String.eqb_eq in E. subst k.
        unfold is_trustee_key. rewrite Em. simpl.
        rewrite get_remove_same by exact Hnd.
        now destruct (str_in key keys).
      * apply String.eqb_neq in E. now rewrite get_remove_other.
    + apply IH in H as [Hnd' Hget]; [|exact Hnd].
      split; [exact Hnd'|]. intros k. rewrite Hget, str_in_cons.
      destruct (String.eqb k key) eqn:E; simpl; [|reflexivity].
      apply String.eqb_eq in E. subst k.
      unfold is_trustee_key. rewrite Em. simpl.
      now rewrite andb_false_r.
Qed.

Lemma append_signatures_other nums trustee_fields :
  forall result result',
    DataPrivacyStatementExtractor.append_signatures nums trustee_fields result
    = Return result' ->
    forall k, k <> "trustee_signatures" ->
              Dict.get k result' = Dict.get k result.
Proof.
  induction nums as [|num nums IH]; intros result result' H k Hk; simpl in H.
  - now inversion H.
  - destruct (_ || _).
    + destruct (DataPrivacyStatementExtractor.clean_signature_date _);
        simpl in H; [|discriminate].
      destruct (Dict.get "trustee_signatures" result) as [[]|];
        try discriminate.
      rewrite (IH _ _ H k Hk). now apply get_set_other.
    + eauto.
Qed.

Lemma append_signatures_mem nums trustee_fields :
  forall result result',
    DataPrivacyStatementExtractor.append_signatures nums trustee_fields result
    = Return result' ->
    Dict.mem "trustee_signatures" result = true ->
    Dict.mem "trustee_signatures" result' = true.
Proof.
  induction nums as [|num nums IH]; intros result result' H Hmem; simpl in H.
  - now inversion H; subst.
  - destruct (_ || _).
    + destruct (DataPrivacyStatementExtractor.clean_signature_date _);
        simpl in H; [|discriminate].
      destruct (Dict.get "trustee_signatures" result) as [[]|];
        try discriminate.
      apply (IH _ _ H). apply mem_set_same.
    + eauto.
Qed.

(** X13.  When the aggregation of trustee signatures returns, on a result
    with distinct keys, the key trustee_signatures is present, no key of
    the form trustee<N>_<field> is left, and every other entry is as it
    was. *)
Theorem trustee_keys_consumed (result result' : dict) :
  NoDup (Dict.keys result) ->
  DataPrivacyStatementExtractor._process_trustee_signatures_from_flat_structure
    result = Return result' ->
  Dict.mem "trustee_signatures" result' = true /\
  forall k, k <> "trustee_signatures" ->
            Dict.get k result'
            = if is_trustee_key k then None else Dict.get k result.
Proof.
  intros Hnd H.
  unfold DataPrivacyStatementExtractor._process_trustee_signatures_from_flat_structure
    in H.
  set (result0 :=
         if negb (Dict.mem "trustee_signatures" result)
            || negb (truthy (Dict.get_default "trustee_signatures" result))
         then Dict.set "trustee_signatures" (VList []) result
         else result) in *.
  assert (Hnd0 : NoDup (Dict.keys result0)).
  { unfold result0. destruct (_ || _); [now apply NoDup_set|exact Hnd]. }
  assert (Hmem0 : Dict.mem "trustee_signatures" result0 = true).
  { unfold result0.
    destruct (Dict.mem "trustee_signatures" result) eqn:E; cbn [negb orb].
    - destruct (negb (truthy (Dict.get_default "trustee_signatures" result)));
        [apply mem_set_same|exact E].
    - apply mem_set_same. }
  assert (Hother0 : forall k, k <> "trustee_signatures" ->
                              Dict.get k result0 = Dict.get k result).
  { intros k Hk. unfold result0. destruct (_ || _); [|reflexivity].
    now apply get_set_other. }
  destruct (DataPrivacyStatementExtractor.collect_trustee_fields
              (Dict.keys result0) result0 []) as [[result1 tf]|e] eqn:Ec;
    simpl in H; [|discriminate].
  apply collect_trustee_fields_spec in Ec as [Hnd1 Hget1]; [|exact Hnd0].
  split.
  - apply (append_signatures_mem _ _ _ _ H).
    unfold Dict.mem. rewrite Hget1.
    assert (is_trustee_key "trustee_signatures" = false) as ->
      by (vm_compute; reflexivity).
    rewrite andb_false_r. exact Hmem0.
  - intros k Hk. rewrite (append_signatures_other _ _ _ _ H k Hk).
    rewrite Hget1, (Hother0 k Hk).
    destruct (is_trustee_key k); [|now rewrite andb_false_r].
    rewrite andb_true_r.
    destruct (str_in k (Dict.keys result0)) eqn:Ein; [reflexivity|].
    rewrite <- (Hother0 k Hk). apply get_none_not_in.
    intros Hin. apply str_in_In in Hin. congruence.
Qed.

Lemma trustee_keys_consumed_witness :
  Dict.get "trustee1_name"
    [("identity_verification_consent", VStr "yes");
     ("trustee_signatures",
      VList [VDict [("name", VStr "A Smith"); ("date", VStr "01/02/2024");
                    ("signature", VNone)]])]
  = None.
Proof.
  destruct (trustee_keys_consumed
              [("identity_verification_consent", VStr "yes");
               ("trustee1_name", VStr "A Smith");
               ("trustee1_date", VStr "1.2.24")]
              [("identity_verification_consent", VStr "yes");
               ("trustee_signatures",
                VList [VDict [("name", VStr "A Smith");
                              ("date", VStr "01/02/2024");
                              ("signature", VNone)]])])
    as [_ Hget].
  - apply nodupb_NoDup. reflexivity.
  - vm_compute. reflexivity.
  - rewrite Hget by discriminate. reflexivity.
Defined.

(* ------------------------------------------------------------------ *)
(** ** Validation *)

Lemma validate_model_fields d fields :
  validate_value (TModel fields) (VDict d)
  = (d' <- validate_fields d fields ;; Return (VDict d')).
Proof.
  simpl. f_equal.
  induction fields as [|[name ft] rest IH]; simpl; [reflexivity|].
  now rewrite IH.
Qed.

Lemma validate_fields_keys d fields : forall out,
  validate_fields d fields = Return out -> Dict.keys out = map fst fields.
Proof.
  induction fields as [|[name ft] rest IH]; intros out H; simpl in H.
  - now inversion H.
  - destruct (validate_value ft _); simpl in H; [|discriminate].
    destruct (validate_fields d rest) as [xs|]; simpl in H; [|discriminate].
    inversion H; subst. simpl. f_equal. now apply IH.
Qed.

(** Validating again what validation returned changes nothing. *)
Lemma validate_value_not_none t v v' :
  validate_value t v = Return v' -> v <> VNone -> v' <> VNone.
Proof.
  intros H Hv Hn. subst v'.
  destruct t, v; try congruence;
    cbn [validate_value validate_bool validate_str] in H;
    try discriminate H.
  - destruct (z =? 0)%Z; [discriminate H|].
    destruct (z =? 1)%Z; discriminate H.
  - destruct (str_in (PyStr.lower s) pydantic_true); [discriminate H|].
    destruct (str_in (PyStr.lower s) pydantic_false); discriminate H.
  - match type of H with
    | bind ?m _ = _ => destruct m; discriminate H
    end.
  - match type of H with
    | bind ?m _ = _ => destruct m; discriminate H
    end.
Qed.

Lemma validate_value_idem :
  forall t, distinct_fields t = true ->
  forall v v', validate_value t v = Return v' ->
               validate_value t v' = Return v'.
Proof.
  fix IH 1. intros t Hwf v v' H. destruct t as [| |fields|elem].
  - destruct v; cbn [validate_value validate_str] in H; inversion H; subst;
      reflexivity.
  - destruct v; cbn [validate_value validate_bool] in H;
      try (inversion H; subst; reflexivity).
    + destruct (z =? 0)%Z; [inversion H; reflexivity|].
      destruct (z =? 1)%Z; [inversion H; reflexivity|discriminate].
    + destruct (str_in (PyStr.lower s) pydantic_true);
        [inversion H; reflexivity|].
      destruct (str_in (PyStr.lower s) pydantic_false);
        [inversion H; reflexivity|discriminate].
  - destruct v as [| | | | |d]; try discriminate H;
      [inversion H; reflexivity|].
    rewrite validate_model_fields in H.
    destruct (validate_fields d fields) as [out|] eqn:Eout; [|discriminate].
    inversion H; subst v'. rewrite validate_model_fields.
    cbn [distinct_fields] in Hwf. apply andb_prop in Hwf as [Hnd Hall].
    apply nodupb_NoDup in Hnd.
    assert (Hgen : forall D,
               (forall name, In name (map fst fields) ->
                             Dict.get_default name D = Dict.get_default name out) ->
               validate_fields D fields = Return out).
    { clear H. revert out Eout Hnd Hall.
      induction fields as [|[name ft] rest IHf]; intros out Eout Hnd Hall D HD;
        simpl in Eout |- *.
      - exact Eout.
      - destruct (validate_value ft (Dict.get_default name d)) as [x|] eqn:Ex;
          simpl in Eout; [|discriminate].
        destruct (validate_fields d rest) as [xs|] eqn:Exs; simpl in Eout;
          [|discriminate].
        inversion Eout; subst out. apply andb_prop in Hall as [Hft Hrest].
        inversion Hnd as [|? ? Hnotin Hnd']; subst.
        rewrite (HD name (or_introl eq_refl)).
        unfold Dict.get_default at 1. simpl. rewrite String.eqb_refl.
        rewrite (IH ft Hft _ _ Ex). simpl.
        rewrite (IHf xs eq_refl Hnd' Hrest D).
        + reflexivity.
        + intros n Hn. rewrite (HD n (or_intror Hn)).
          unfold Dict.get_default. simpl.
          destruct (String.eqb name n) eqn:E; [|reflexivity].
          apply String.eqb_eq in E. subst n. contradiction. }
    rewrite (Hgen out); [reflexivity|]. intros; reflexivity.
  - destruct v as [| | | |l|]; try discriminate H;
      [inversion H; reflexivity|].
    cbn [distinct_fields] in Hwf. simpl in H |- *.
    match type of H with
    | bind ?m _ = _ => destruct m as [l'|] eqn:El; [|discriminate]
    end.
    simpl in H. inversion H; subst v'. simpl.
    assert (Hl : (fix items (l0 : list value) : Result (list value) :=
                    match l0 with
                    | [] => Return []
                    | x :: rest =>
                        x <- required x ;;
                        y <- validate_value elem x ;;
                        ys <- items rest ;; Return (y :: ys)
                    end) l' = Return l').
    { clear H. revert l' El. induction l as [|x l IHl]; intros l' El.
      - inversion El. reflexivity.
      - simpl in El.
        destruct (required x) as [x'|] eqn:Er; simpl in El; [|discriminate].
        assert (x' = x /\ x <> VNone) as [-> Hx].
        { destruct x; inversion Er; split; congruence. }
        destruct (validate_value elem x) as [y|] eqn:Ey; simpl in El;
          [|discriminate].
        match type of El with
        | bind ?m _ = _ => destruct m as [ys|] eqn:Eys; [|discriminate]
        end.
        simpl in El. inversion El; subst l'.
        pose proof (validate_value_not_none _ _ _ Ey Hx) as Hy.
        assert (required y = Return y) as ->
          by (destruct y; [congruence|reflexivity..]).
        cbn [bind].
        rewrite (IH elem Hwf _ _ Ey). simpl.
        rewrite (IHl ys eq_refl). reflexivity. }
    now rewrite Hl.
Qed.

Lemma schemas_distinct section sc :
  BaseExtractor_init section = Return sc -> distinct_fields (TModel sc) = true.
Proof.
  destruct section; vm_compute; intros H; inversion H; reflexivity.
Qed.

(** X14.  When validation of a dictionary against the schema of a section
    succeeds, the entity returned has exactly the declared fields of the
    schema, in declared order, whatever keys the input had, and validating
    that entity again returns it unchanged. *)
Theorem validate_normal_form section (data : dict) (entity : value) :
  validate section data = Return entity ->
  exists d sc,
    entity = VDict d /\
    BaseExtractor_init section = Return sc /\
    Dict.keys d = map fst sc /\
    validate section d = Return (VDict d).
Proof.
  unfold validate. intros H.
  destruct (BaseExtractor_init section) as [sc|] eqn:Esc; [|discriminate].
  cbn [bind] in H. pose proof H as H'. rewrite validate_model_fields in H'.
  destruct (validate_fields data sc) as [d|] eqn:Ed; [|discriminate].
  simpl in H'. inversion H'; subst entity.
  exists d, sc. repeat split.
  - now apply validate_fields_keys in Ed.
  - cbn [bind]. apply (validate_value_idem (TModel sc)) in H;
      [exact H|now apply (schemas_distinct section)].
Qed.

Lemma validate_normal_form_witness :
  exists d,
    validate TRUST_REGISTRATION
      [("note", VStr "unknown key"); ("proof_of_registration_attached", VStr "Yes")]
    = Return (VDict d) /\
    Dict.keys d = ["HMRC_unique_reference_number";
                   "proof_of_registration_attached"].
Proof.
  destruct (validate_normal_form TRUST_REGISTRATION
              [("note", VStr "unknown key");
               ("proof_of_registration_attached", VStr "Yes")]
              (VDict [("HMRC_unique_reference_number", VNone);
                      ("proof_of_registration_attached", VBool true)]))
    as (d & sc & Hd & Hsc & Hkeys & _).
  - reflexivity.
  - exists d. split.
    + rewrite <- Hd. reflexivity.
    + rewrite Hkeys. vm_compute in Hsc. inversion Hsc. reflexivity.
Defined.

(* ------------------------------------------------------------------ *)
(** ** Date normalisation applied twice *)

Lemma matches_char_dash_dot c :
  Re.matches_char (Re.compile "[-.]" Re.NOFLAG) c = dash_or_dot c.
Proof. destruct c as [[] [] [] [] [] [] [] []]; vm_compute; reflexivity. Qed.

Lemma sub_dash_dot_clean s :
  all_chars not_dash_or_dot (Re.sub (Re.compile "[-.]" Re.NOFLAG) "/" s) = true.
Proof.
  induction s as [|c s IH]; [reflexivity|].
  cbn [Re.sub]. rewrite matches_char_dash_dot.
  destruct (dash_or_dot c) eqn:E.
  - simpl. exact IH.
  - cbn [all_chars]. unfold not_dash_or_dot at 1. now rewrite E.
Qed.

Lemma sub_dash_dot_fixed s :
  all_chars not_dash_or_dot s = true ->
  Re.sub (Re.compile "[-.]" Re.NOFLAG) "/" s = s.
Proof.
  induction s as [|c s IH]; [reflexivity|].
  cbn [all_chars Re.sub]. intros H. apply andb_prop in H as [Hc Hs].
  rewrite matches_char_dash_dot.
  unfold not_dash_or_dot in Hc. apply negb_true_iff in Hc. rewrite Hc.
  now rewrite IH.
Qed.

Lemma all_chars_app p a b :
  all_chars p (a ++ b) = all_chars p a && all_chars p b.
Proof.
  induction a as [|c a IH]; simpl; [reflexivity|].
  now rewrite IH, andb_assoc.
Qed.

(** The parts a split gives hold no separator, and keep every property
    shared by the characters of the text. *)
Lemma split_aux_parts (p : ascii -> bool) sep s :
  forall cur part,
    In part (PyStr.split_aux sep s cur) ->
    all_chars p cur = true -> all_chars p s = true ->
    all_chars p part = true.
Proof.
  induction s as [|c s IH]; intros cur part Hin Hcur Hs; simpl in Hin.
  - destruct Hin as [<-|[]]. exact Hcur.
  - simpl in Hs. apply andb_prop in Hs as [Hc Hs].
    destruct (Ascii.eqb c sep).
    + destruct Hin as [<-|Hin]; [exact Hcur|]. now apply (IH EmptyString).
    + apply (IH _ _ Hin); [|exact Hs].
      rewrite all_chars_app, Hcur. simpl. now rewrite Hc.
Qed.

Lemma split_aux_no_sep sep s :
  forall cur part,
    In part (PyStr.split_aux sep s cur) ->
    all_chars (fun c => negb (Ascii.eqb c sep)) cur = true ->
    all_chars (fun c => negb (Ascii.eqb c sep)) part = true.
Proof.
  induction s as [|c s IH]; intros cur part Hin Hcur; simpl in Hin.
  - destruct Hin as [<-|[]]. exact Hcur.
  - destruct (Ascii.eqb c sep) eqn:E.
    + destruct Hin as [<-|Hin]; [exact Hcur|]. now apply (IH EmptyString).
    + apply (IH _ _ Hin). rewrite all_chars_app, Hcur. simpl. now rewrite E.
Qed.

Lemma append_assoc (a b c : string) : (a ++ b) ++ c = a ++ (b ++ c).
Proof. induction a as [|x a IH]; simpl; [reflexivity|now rewrite IH]. Qed.

Lemma append_empty_r (a : string) : a ++ EmptyString = a.
Proof. induction a as [|x a IH]; simpl; [reflexivity|now rewrite IH]. Qed.

Lemma split_aux_app sep a : forall rest cur,
  all_chars (fun c => negb (Ascii.eqb c sep)) a = true ->
  PyStr.split_aux sep (a ++ rest) cur = PyStr.split_aux sep rest (cur ++ a).
Proof.
  induction a as [|c a IH]; intros rest cur H; simpl.
  - now rewrite append_empty_r.
  - simpl in H. apply andb_prop in H as [Hc Ha].
    apply negb_true_iff in Hc. rewrite Hc. rewrite IH by exact Ha.
    now rewrite append_assoc.
Qed.

(** Splitting three parts joined by the separator gives them back. *)
Lemma split_join3 sep a b c :
  all_chars (fun x => negb (Ascii.eqb x sep)) a = true ->
  all_chars (fun x => negb (Ascii.eqb x sep)) b = true ->
  all_chars (fun x => negb (Ascii.eqb x sep)) c = true ->
  PyStr.split sep (a ++ String sep (b ++ String sep c)) = [a; b; c].
Proof.
  intros Ha Hb Hc. unfold PyStr.split.
  rewrite split_aux_app by exact Ha. simpl. rewrite Ascii.eqb_refl.
  rewrite split_aux_app by exact Hb. simpl. rewrite Ascii.eqb_refl.
  rewrite <- (append_empty_r c) at 1.
  rewrite split_aux_app by exact Hc. reflexivity.
Qed.

Lemma set_set_same {A : Type} k (v : A) d :
  Dict.set k v (Dict.set k v d) = Dict.set k v d.
Proof.
  induction d as [|[k' v'] d IH]; simpl.
  - now rewrite String.eqb_refl.
  - destruct (String.eqb k' k) eqn:E; simpl.
    + now rewrite String.eqb_refl.
    + now rewrite E, IH.
Qed.

Lemma eqb_app_sep_nonempty a c b :
  String.eqb (a ++ String c b) EmptyString = false.
Proof. destruct a; reflexivity. Qed.

(** X15.  Date normalisation is idempotent: on the result it returned it
    returns that same result. *)
Theorem clean_date_of_birth_idempotent (result r1 : dict) :
  clean_date_of_birth result = Return r1 ->
  clean_date_of_birth r1 = Return r1.
Proof.
  unfold clean_date_of_birth at 1. intros H.
  destruct (negb (truthy (Dict.get_default "date_of_birth" result))) eqn:Et.
  - inversion H; subst r1. unfold clean_date_of_birth. now rewrite Et.
  - destruct (Dict.get_default "date_of_birth" result) as [| | |dob| |] eqn:Eg;
      try discriminate H.
    set (unified := Re.sub (Re.compile "[-.]" Re.NOFLAG) "/" dob) in *.
    pose proof (sub_dash_dot_clean dob) as Hclean. fold unified in Hclean.
    destruct (PyStr.split "/" unified) as [|day [|month [|year [|x rest]]]]
      eqn:Eparts;
      try (inversion H; subst r1; unfold clean_date_of_birth;
           rewrite Eg, Et; fold unified; rewrite Eparts; reflexivity).
    assert (Hin : forall part, In part [day; month; year] ->
                   all_chars not_dash_or_dot part = true /\
                   all_chars not_slash part = true).
    { intros part Hin. rewrite <- Eparts in Hin. unfold PyStr.split in Hin.
      split.
      - now apply (split_aux_parts not_dash_or_dot "/" unified EmptyString).
      - now apply (split_aux_no_sep "/" unified EmptyString). }
    destruct (Hin day) as [Hd1 Hd2]; [simpl; auto|].
    destruct (Hin month) as [Hm1 Hm2]; [simpl; auto|].
    destruct (Hin year) as [Hy1 Hy2]; [simpl; auto|].
    assert (Hyear : exists year',
               r1 = Dict.set "date_of_birth"
                      (VStr (day ++ "/" ++ month ++ "/" ++ year')) result /\
               all_chars not_dash_or_dot year' = true /\
               all_chars not_slash year' = true /\
               (PyStr.len year' =? 2)%nat = false).
    { destruct (PyStr.len year =? 2)%nat eqn:El.
      - destruct (PyStr.int year) as [n|]; [|discriminate H].
        apply Nat.eqb_eq in El.
        destruct (50 <=? n)%Z; cbn [bind] in H; inversion H;
          [exists ("19" ++ year)|exists ("20" ++ year)];
          (split; [reflexivity|]; split; [exact Hy1|]; split; [exact Hy2|];
           simpl; rewrite El; reflexivity).
      - cbn [bind] in H. inversion H. exists year.
        repeat split; assumption. }
    destruct Hyear as (year' & -> & Hy1' & Hy2' & Hlen).
    unfold clean_date_of_birth, Dict.get_default. rewrite get_set_same.
    change (day ++ "/" ++ month ++ "/" ++ year')
      with (day ++ String "/" (month ++ String "/" year')).
    cbn [truthy]. rewrite eqb_app_sep_nonempty. cbn [negb].
    rewrite sub_dash_dot_fixed.
    + rewrite split_join3 by assumption. rewrite Hlen. cbn [bind].
      now rewrite set_set_same.
    + rewrite all_chars_app, Hd1. cbn [all_chars andb].
      rewrite all_chars_app, Hm1. cbn [all_chars andb]. exact Hy1'.
Qed.

Lemma clean_date_of_birth_idempotent_witness :
  clean_date_of_birth [("date_of_birth", VStr "01/02/1999")]
  = Return [("date_of_birth", VStr "01/02/1999")].
Proof.
  apply (clean_date_of_birth_idempotent [("date_of_birth", VStr "01-02-99")]).
  vm_compute. reflexivity.
Defined.

(* ------------------------------------------------------------------ *)
(** ** Identifier normalisation applied twice *)

Lemma matches_char_hyphen_space c :
  Re.matches_char (Re.compile "[-\s]" Re.NOFLAG) c = hyphen_or_space c.
Proof. destruct c as [[] [] [] [] [] [] [] []]; vm_compute; reflexivity. Qed.

Lemma upper_char_facts c :
  upper_fixed (PyStr.upper_char c) = true /\
  PyStr.is_blank (PyStr.upper_char c) = PyStr.is_blank c /\
  (PyStr.is_blank c = true -> hyphen_or_space c = true).
Proof.
  destruct c as [[] [] [] [] [] [] [] []]; vm_compute; repeat split;
    intros H; discriminate H.
Qed.

Lemma sub_hyphen_space s :
  Re.sub (Re.compile "[-\s]" Re.NOFLAG) EmptyString s
  = PyStr.remove_chars hyphen_or_space s.
Proof.
  induction s as [|c s IH]; [reflexivity|].
  cbn [Re.sub PyStr.remove_chars]. rewrite matches_char_hyphen_space, IH.
  reflexivity.
Qed.

Lemma remove_chars_clean q s :
  all_chars (fun c => negb (q c)) (PyStr.remove_chars q s) = true.
Proof.
  induction s as [|c s IH]; simpl; [reflexivity|].
  destruct (q c) eqn:E; simpl; [exact IH|now rewrite E].
Qed.

Lemma remove_chars_fixed q s :
  all_chars (fun c => negb (q c)) s = true -> PyStr.remove_chars q s = s.
Proof.
  induction s as [|c s IH]; simpl; [reflexivity|].
  intros H. apply andb_prop in H as [Hc Hs]. apply negb_true_iff in Hc.
  now rewrite Hc, IH.
Qed.

Lemma all_chars_weaken (p q : ascii -> bool) s :
  (forall c, p c = true -> q c = true) ->
  all_chars p s = true -> all_chars q s = true.
Proof.
  intros Hpq. induction s as [|c s IH]; simpl; [reflexivity|].
  intros H. apply andb_prop in H as [Hc Hs]. now rewrite (Hpq c Hc), IH.
Qed.

Lemma all_chars_remove p q s :
  all_chars p s = true -> all_chars p (PyStr.remove_chars q s) = true.
Proof.
  induction s as [|c s IH]; simpl; [reflexivity|].
  intros H. apply andb_prop in H as [Hc Hs].
  destruct (q c); simpl; [auto|now rewrite Hc, IH].
Qed.

Lemma upper_all_fixed s : all_chars upper_fixed (PyStr.upper s) = true.
Proof.
  induction s as [|c s IH]; simpl; [reflexivity|].
  destruct (upper_char_facts c) as [-> _]. exact IH.
Qed.

Lemma upper_of_fixed s : all_chars upper_fixed s = true -> PyStr.upper s = s.
Proof.
  induction s as [|c s IH]; simpl; [reflexivity|].
  intros H. apply andb_prop in H as [Hc Hs].
  unfold upper_fixed in Hc. apply Ascii.eqb_eq in Hc.
  unfold PyStr.upper in *. simpl. now rewrite Hc, IH.
Qed.

Lemma upper_no_blank s :
  all_chars (fun c => negb (PyStr.is_blank c)) s = true ->
  all_chars (fun c => negb (PyStr.is_blank c)) (PyStr.upper s) = true.
Proof.
  unfold PyStr.upper. induction s as [|c s IH]; simpl; [reflexivity|].
  intros H. apply andb_prop in H as [Hc Hs].
  destruct (upper_char_facts c) as (_ & -> & _). now rewrite Hc, IH.
Qed.

(** A text already upper-cased and without blanks is its own first step. *)
Lemma tidy_first_step_fixed s :
  all_chars upper_fixed s = true ->
  all_chars (fun c => negb (PyStr.is_blank c)) s = true ->
  PyStr.upper (PyStr.remove_chars PyStr.is_blank s) = s.
Proof.
  intros Hu Hb. rewrite remove_chars_fixed by exact Hb.
  now apply upper_of_fixed.
Qed.

Lemma tidy_ni_number_idempotent s :
  tidy_ni_number (tidy_ni_number s) = tidy_ni_number s.
Proof.
  unfold tidy_ni_number at 2 3.
  set (u := PyStr.upper (PyStr.remove_chars PyStr.is_blank s)).
  assert (Hu : all_chars upper_fixed u = true) by apply upper_all_fixed.
  assert (Hb : all_chars (fun c => negb (PyStr.is_blank c)) u = true)
    by (apply upper_no_blank, remove_chars_clean).
  destruct (matched (Re.match_ ni_full u)) eqn:Ef.
  - unfold tidy_ni_number. rewrite tidy_first_step_fixed by assumption.
    now rewrite Ef.
  - destruct (matched (Re.match_ ni_short u)) eqn:Es.
    + unfold tidy_ni_number. rewrite tidy_first_step_fixed by assumption.
      now rewrite Ef, Es.
    + rewrite sub_hyphen_space.
      set (r := PyStr.remove_chars hyphen_or_space u).
      assert (Hr : all_chars (fun c => negb (hyphen_or_space c)) r = true)
        by apply remove_chars_clean.
      unfold tidy_ni_number. rewrite tidy_first_step_fixed.
      * destruct (matched (Re.match_ ni_full r)); [reflexivity|].
        destruct (matched (Re.match_ ni_short r)); [reflexivity|].
        rewrite sub_hyphen_space. now apply remove_chars_fixed.
      * now apply all_chars_remove.
      * apply (all_chars_weaken (fun c => negb (hyphen_or_space c))
                 (fun c => negb (PyStr.is_blank c)) r); [|exact Hr].
        intros c Hc. destruct (PyStr.is_blank c) eqn:E; [|reflexivity].
        destruct (upper_char_facts c) as (_ & _ & Himp).
        rewrite (Himp E) in Hc. discriminate.
Qed.

(** A cleaned number that is not empty is not made of white space. *)
Lemma tidy_ni_number_not_blank s :
  PyStr.strip (tidy_ni_number s) = EmptyString ->
  tidy_ni_number s = EmptyString.
Proof.
  intros H. apply strip_empty in H. revert H. unfold tidy_ni_number.
  set (u := PyStr.upper (PyStr.remove_chars PyStr.is_blank s)).
  destruct (matched (Re.match_ ni_full u)) eqn:Ef.
  - intros H. destruct (ni_patterns_reject_space u H) as [E _].
    rewrite E in Ef. discriminate.
  - destruct (matched (Re.match_ ni_short u)) eqn:Es.
    + intros H. destruct (ni_patterns_reject_space u H) as [_ E].
      rewrite E in Es. discriminate.
    + rewrite sub_hyphen_space.
      pose proof (remove_chars_clean hyphen_or_space u) as Hr.
      destruct (PyStr.remove_chars hyphen_or_space u) as [|c r];
        [reflexivity|].
      simpl in Hr |- *. intros H.
      apply andb_prop in Hr as [Hc _]. apply andb_prop in H as [Hs _].
      unfold hyphen_or_space in Hc. rewrite Hs, orb_true_r in Hc.
      discriminate.
Qed.

(** X16.  Identifier normalisation is idempotent in the donor, trustee and
    beneficiary classes: on the result it returned it returns that same
    result. *)
Theorem clean_ni_number_idempotent (result r1 : dict) :
  (DonorExtractor._clean_national_insurance_number result = Return r1 ->
   DonorExtractor._clean_national_insurance_number r1 = Return r1) /\
  (TrusteeExtractor._clean_national_insurance_number result = Return r1 ->
   TrusteeExtractor._clean_national_insurance_number r1 = Return r1) /\
  (BeneficiaryExtractor._clean_national_insurance_number result = Return r1 ->
   BeneficiaryExtractor._clean_national_insurance_number r1 = Return r1).
Proof.
  assert (Hdonor :
    DonorExtractor._clean_national_insurance_number result = Return r1 ->
    DonorExtractor._clean_national_insurance_number r1 = Return r1).
  { unfold DonorExtractor._clean_national_insurance_number at 1. intros H.
    destruct (negb (truthy (Dict.get_default "national_insurance_number"
                              result))) eqn:Et.
    - inversion H; subst r1.
      unfold DonorExtractor._clean_national_insurance_number. now rewrite Et.
    - destruct (Dict.get_default "national_insurance_number" result)
        as [| | |s| |]; try discriminate H.
      inversion H; subst r1.
      unfold DonorExtractor._clean_national_insurance_number, Dict.get_default.
      rewrite get_set_same.
      destruct (negb (truthy (VStr (tidy_ni_number s)))); [reflexivity|].
      now rewrite tidy_ni_number_idempotent, set_set_same. }
  split; [exact Hdonor|]. split; [exact Hdonor|].
  unfold BeneficiaryExtractor._clean_national_insurance_number at 1. intros H.
  destruct (negb (truthy (Dict.get_default "national_insurance_number"
                            result))) eqn:Et.
  - inversion H; subst r1.
    unfold BeneficiaryExtractor._clean_national_insurance_number.
    now rewrite Et.
  - destruct (Dict.get_default "national_insurance_number" result)
      as [| | |s| |]; try discriminate H.
    destruct (String.eqb (PyStr.strip s) EmptyString).
    + inversion H; subst r1.
      unfold BeneficiaryExtractor._clean_national_insurance_number,
        Dict.get_default.
      rewrite get_set_same. reflexivity.
    + inversion H; subst r1.
      unfold BeneficiaryExtractor._clean_national_insurance_number,
        Dict.get_default.
      rewrite get_set_same.
      destruct (String.eqb (tidy_ni_number s) EmptyString) eqn:Ee.
      * cbn [truthy]. rewrite Ee. reflexivity.
      * cbn [truthy]. rewrite Ee. cbn [negb].
        destruct (String.eqb (PyStr.strip (tidy_ni_number s)) EmptyString)
          eqn:Es.
        { apply String.eqb_eq in Es. apply tidy_ni_number_not_blank in Es.
          rewrite Es in Ee. discriminate. }
        now rewrite tidy_ni_number_idempotent, set_set_same.
Qed.

Lemma clean_ni_number_idempotent_witness :
  DonorExtractor._clean_national_insurance_number
    [("national_insurance_number", VStr "AB123456C")]
  = Return [("national_insurance_number", VStr "AB123456C")].
Proof.
  apply (proj1 (clean_ni_number_idempotent
                  [("national_insurance_number", VStr "ab 12 34 56 c")]
                  [("national_insurance_number", VStr "AB123456C")])).
  vm_compute. reflexivity.
Defined.

(* ------------------------------------------------------------------ *)
(** ** The matcher: what a match consumed *)

Lemma length_append (a b : string) :
  String.length (a ++ b) = String.length a + String.length b.
Proof. induction a as [|c a IH]; simpl; [reflexivity|now rewrite IH]. Qed.

Lemma substring_prefix_app (t s' : string) :
  substring 0 (String.length t) (t ++ s') = t.
Proof.
  induction t as [|c t IH]; simpl.
  - destruct s'; reflexivity.
  - now rewrite IH.
Qed.

Lemma consumed_app t s' : Re.consumed (t ++ s') s' = t.
Proof.
  unfold Re.consumed. rewrite length_append.
  replace (String.length t + String.length s' - String.length s')
    with (String.length t) by lia.
  apply substring_prefix_app.
Qed.

Lemma concat_cons_empty (t : string) ts :
  String.concat EmptyString (t :: ts) = t ++ String.concat EmptyString ts.
Proof.
  destruct ts as [|t' ts]; simpl; [now rewrite append_empty_r|reflexivity].
Qed.

Section MatcherSound.
Context {R : Type}.
Variables (ic : bool) (total : nat) (Q : nat -> string -> Prop).

Lemma rep_loop_sound
    (body : string -> Re.captures -> Re.cont -> option R)
    (r1 : Re.regex) lo hi greedy (k : @Re.cont R) :
  (forall s cs k' res,
      caps_within Q cs -> body s cs k' = Some res ->
      sound_post ic Q r1 s k' res) ->
  forall fuel cnt s cs res,
    caps_within Q cs ->
    match hi with Some h => cnt <= h | None => True end ->
    Re.rep_loop body lo hi greedy k fuel cnt s cs = Some res ->
    exists ts s' cs',
      s = String.concat EmptyString ts ++ s' /\
      Forall (denotes ic r1) ts /\
      lo <= cnt + List.length ts /\
      match hi with Some h => cnt + List.length ts <= h | None => True end /\
      caps_within Q cs' /\ k s' cs' = Some res.
Proof.
  intros Hbody. induction fuel as [|fuel IH]; intros cnt s cs res Hcs Hhi H.
  - discriminate.
  - simpl in H.
    assert (Hstop : (if (lo <=? cnt)%nat then k s cs else None) = Some res ->
              exists ts s' cs',
                s = String.concat EmptyString ts ++ s' /\
                Forall (denotes ic r1) ts /\
                lo <= cnt + List.length ts /\
                match hi with
                | Some h => cnt + List.length ts <= h | None => True end /\
                caps_within Q cs' /\ k s' cs' = Some res).
    { destruct (lo <=? cnt)%nat eqn:Hlo; [|discriminate]. intros Hk.
      apply Nat.leb_le in Hlo.
      exists [], s, cs. simpl. repeat split; auto; try lia.
      destruct hi; [lia|exact I]. }
    assert (Hmore :
              (if Re.below cnt hi
               then body s cs
                      (fun s1 cs1 =>
                         if (String.length s1 <? String.length s)%nat
                            || (cnt <? lo)%nat
                         then Re.rep_loop body lo hi greedy k fuel (S cnt)
                                s1 cs1
                         else None)
               else None) = Some res ->
              exists ts s' cs',
                s = String.concat EmptyString ts ++ s' /\
                Forall (denotes ic r1) ts /\
                lo <= cnt + List.length ts /\
                match hi with
                | Some h => cnt + List.length ts <= h | None => True end /\
                caps_within Q cs' /\ k s' cs' = Some res).
    { destruct (Re.below cnt hi) eqn:Hb; [|discriminate]. intros Hm.
      apply (Hbody s cs _ res Hcs) in Hm
        as (t & s1 & cs1 & Hs & Ht & Hcs1 & Hk1).
      destruct (_ || _); [|discriminate].
      apply IH in Hk1 as (ts & s2 & cs2 & Hs2 & Hts & Hlo & Hhi2 & Hcs2 & Hk);
        [|exact Hcs1|].
      - exists (t :: ts), s2, cs2. rewrite concat_cons_empty.
        split; [now rewrite append_assoc, <- Hs2|].
        split; [now constructor|]. simpl.
        split; [lia|]. split; [|auto].
        destruct hi; [lia|exact I].
      - destruct hi as [h|]; [|exact I]. simpl in Hb.
        apply Nat.ltb_lt in Hb. lia. }
    destruct greedy.
    + match type of H with
      | match ?m with _ => _ end = _ => destruct m as [x|] eqn:Em
      end.
      * inversion H; subst x. auto.
      * auto.
    + match type of H with
      | match ?m with _ => _ end = _ => destruct m as [x|] eqn:Em
      end.
      * inversion H; subst x. auto.
      * auto.
Qed.

Lemma run_sound (r : Re.regex) :
  groups_within ic Q r ->
  forall s cs (k : @Re.cont R) res,
    caps_within Q cs ->
    Re.run ic total r s cs k = Some res ->
    sound_post ic Q r s k res.
Proof.
  unfold sound_post.
  induction r; intros Hg s cs k res Hcs H; cbn [Re.run] in H; simpl in Hg.
  - exists EmptyString, s, cs. simpl. auto.
  - destruct s as [|a s']; [discriminate|].
    destruct (Re.char_eq ic a c) eqn:E; [|discriminate].
    exists (String a EmptyString), s', cs. simpl. eauto 6.
  - destruct s as [|a s']; [discriminate|].
    destruct (Ascii.eqb a Re.newline) eqn:E; [discriminate|].
    exists (String a EmptyString), s', cs. simpl. eauto 6.
  - destruct s as [|a s']; [discriminate|].
    destruct (xorb _ _) eqn:E; [|discriminate].
    exists (String a EmptyString), s', cs. simpl. eauto 6.
  - destruct (_ =? _)%nat; [|discriminate].
    exists EmptyString, s, cs. simpl. auto.
  - assert (k s cs = Some res) as Hk.
    { destruct s as [|a [|b s']]; try discriminate; auto.
      destruct (Ascii.eqb a Re.newline); [auto|discriminate]. }
    exists EmptyString, s, cs. simpl. auto.
  - destruct Hg as [Hg1 Hg2].
    apply (IHr1 Hg1) in H as (t1 & s1 & cs1 & Hs1 & Ht1 & Hcs1 & H1);
      [|exact Hcs].
    apply (IHr2 Hg2) in H1 as (t2 & s2 & cs2 & Hs2 & Ht2 & Hcs2 & H2);
      [|exact Hcs1].
    exists (t1 ++ t2), s2, cs2. rewrite append_assoc, <- Hs2.
    split; [exact Hs1|]. split; [|auto]. simpl. eauto.
  - destruct Hg as [Hg1 Hg2].
    destruct (Re.run ic total r1 s cs k) as [x|] eqn:E1.
    + inversion H; subst x.
      apply (IHr1 Hg1) in E1 as (t1 & s1 & cs1 & Hs1 & Ht1 & Hcs1 & H1);
        [|exact Hcs].
      exists t1, s1, cs1. simpl. auto.
    + apply (IHr2 Hg2) in H as (t1 & s1 & cs1 & Hs1 & Ht1 & Hcs1 & H1);
        [|exact Hcs].
      exists t1, s1, cs1. simpl. auto.
  - destruct Hg as [HQ Hg1].
    apply (IHr Hg1) in H as (t1 & s1 & cs1 & Hs1 & Ht1 & Hcs1 & H1);
      [|exact Hcs].
    exists t1, s1, ((n, Re.consumed s s1) :: cs1).
    split; [exact Hs1|]. split; [exact Ht1|]. split; [|exact H1].
    intros g t [Heq|Hin]; [|auto].
    inversion Heq; subst g t. rewrite Hs1, consumed_app. auto.
  - apply (rep_loop_sound (Re.run ic total r) r) in H
      as (ts & s' & cs' & Hs & Hts & Hlo & Hhi & Hcs' & Hk).
    + exists (String.concat EmptyString ts), s', cs'.
      split; [exact Hs|]. split; [|auto].
      simpl. exists ts. simpl in Hlo. repeat split; auto.
    + intros s0 cs0 k' res' Hcs0 H'. unfold sound_post.
      exact (IHr Hg s0 cs0 k' res' Hcs0 H').
    + exact Hcs.
    + destruct hi; [lia|exact I].
Qed.

End MatcherSound.

(** A match found at the start of a text: the whole match and every
    captured group are as the tree says. *)
Lemma match_at_sound ic total Q r s m :
  groups_within ic Q r ->
  Re.match_at ic total r s = Some m ->
  (exists rest, s = Re.whole m ++ rest) /\
  denotes ic r (Re.whole m) /\
  caps_within Q (Re.groups m).
Proof.
  intros Hg H. unfold Re.match_at in H.
  apply (run_sound ic total Q r Hg) in H as (t & s' & cs' & Hs & Ht & Hcs & Hk).
  - inversion Hk; subst m. simpl. rewrite Hs, consumed_app. eauto.
  - intros g t [].
Qed.

Lemma search_from_sound ic total Q r s m :
  groups_within ic Q r ->
  Re.search_from ic total r s = Some m ->
  denotes ic r (Re.whole m) /\ caps_within Q (Re.groups m).
Proof.
  intros Hg. induction s as [|c s IH]; simpl; intros H.
  - destruct (Re.match_at ic total r EmptyString) as [m'|] eqn:E;
      [|discriminate].
    inversion H; subst m'. now apply (match_at_sound _ _ Q) in E.
  - destruct (Re.match_at ic total r (String c s)) as [m'|] eqn:E.
    + inversion H; subst m'. now apply (match_at_sound _ _ Q) in E.
    + auto.
Qed.

(** A captured group read off a match object satisfies [Q]. *)
Lemma lookup_within Q cs g t :
  caps_within Q cs -> Re.lookup g cs = Some t -> Q g t.
Proof.
  intros Hcs. induction cs as [|[n t'] cs IH]; simpl; [discriminate|].
  destruct (n =? g)%nat eqn:E.
  - intros H. inversion H; subst. apply Nat.eqb_eq in E. subst.
    apply Hcs. simpl. auto.
  - apply IH. intros g' t'' Hin. apply Hcs. simpl. auto.
Qed.

(* ------------------------------------------------------------------ *)
(** ** Signature dates *)

Lemma digit_class_mem ic a : Re.set_mem ic a [Re.CDigit] = PyStr.isdigit a.
Proof.
  destruct ic; destruct a as [[] [] [] [] [] [] [] []]; vm_compute; reflexivity.
Qed.

Lemma digit_char_facts c :
  PyStr.isdigit c = true ->
  PyStr.isspace c = false /\ not_slash c = true /\ not_dash_or_dot c = true /\
  (exists b0 b1 b2 b3, c = Ascii b0 b1 b2 b3 true true false false).
Proof.
  destruct c as [[] [] [] [] [] [] [] []]; vm_compute; intros H;
    try discriminate H; repeat split; eauto.
Qed.

(** A bounded repetition of the digit class denotes digit strings of a
    length within the bounds. *)
Lemma denotes_digits ic lo hi greedy t :
  denotes ic (Re.RRepeat lo (Some hi) greedy (Re.RClass false [Re.CDigit])) t ->
  all_chars PyStr.isdigit t = true /\ lo <= String.length t <= hi.
Proof.
  simpl. intros (ts & -> & Hts & Hlo & Hhi).
  assert (all_chars PyStr.isdigit (String.concat EmptyString ts) = true /\
          String.length (String.concat EmptyString ts) = List.length ts)
    as [Hall Hlen].
  { clear Hlo Hhi. induction Hts as [|t ts (a & -> & Ha) _ IH].
    - split; reflexivity.
    - rewrite concat_cons_empty. destruct IH as [IH1 IH2].
      rewrite digit_class_mem in Ha. simpl in Ha |- *.
      rewrite Ha, IH1, IH2. auto. }
  rewrite Hlen. auto.
Qed.

Lemma signature_date_tree :
  Re.tree DataPrivacyStatementExtractor.signature_date =
  Re.RSeq (Re.RSeq (Re.RSeq (Re.RSeq
    (Re.RGroup 1 (Re.RRepeat 1 (Some 2) true (Re.RClass false [Re.CDigit])))
    (Re.RClass false [Re.CChar "/"; Re.CChar "."; Re.CChar "-"]))
    (Re.RGroup 2 (Re.RRepeat 1 (Some 2) true (Re.RClass false [Re.CDigit]))))
    (Re.RClass false [Re.CChar "/"; Re.CChar "."; Re.CChar "-"]))
    (Re.RGroup 3 (Re.RRepeat 2 (Some 4) true (Re.RClass false [Re.CDigit]))).
Proof. reflexivity. Qed.

Lemma signature_date_groups ic :
  groups_within ic date_group
    (Re.tree DataPrivacyStatementExtractor.signature_date).
Proof.
  rewrite signature_date_tree.
  cbn [groups_within].
  assert (forall g lo hi,
            (if (g =? 3)%nat then (lo, hi) = (2, 4) else (lo, hi) = (1, 2)) ->
            forall t,
              denotes ic (Re.RRepeat lo (Some hi) true
                            (Re.RClass false [Re.CDigit])) t ->
              date_group g t) as Hgroup.
  { intros g lo hi Hb t Ht. apply denotes_digits in Ht as [Hall Hlen].
    split; [exact Hall|].
    destruct (g =? 3)%nat; injection Hb as -> ->; exact Hlen. }
  repeat match goal with |- _ /\ _ => split end; try exact I;
    apply Hgroup; reflexivity.
Qed.

(** The three groups of a match of the signature-date pattern. *)
Lemma signature_date_match text m :
  Re.search DataPrivacyStatementExtractor.signature_date text = Some m ->
  exists day month year,
    Re.groups_upto m 3 = [Some day; Some month; Some year] /\
    date_group 1 day /\ date_group 2 month /\ date_group 3 year.
Proof.
  intros H.
  destruct (search_sure_group _ _ _ 1 H eq_refl) as [day Hd].
  destruct (search_sure_group _ _ _ 2 H eq_refl) as [month Hm].
  destruct (search_sure_group _ _ _ 3 H eq_refl) as [year Hy].
  unfold Re.search in H.
  apply (search_from_sound _ _ date_group) in H as [_ Hcs];
    [|apply signature_date_groups].
  exists day, month, year. unfold Re.groups_upto. simpl.
  rewrite Hd, Hm, Hy. split; [reflexivity|].
  split; [|split]; eapply (lookup_within date_group); eauto.
Qed.

Lemma rstrip_no_space s :
  all_chars (fun c => negb (PyStr.isspace c)) s = true -> PyStr.rstrip s = s.
Proof.
  induction s as [|c s IH]; simpl; [reflexivity|].
  intros H. apply andb_prop in H as [Hc Hs]. apply negb_true_iff in Hc.
  rewrite IH by exact Hs. destruct s; [now rewrite Hc|reflexivity].
Qed.

Lemma strip_no_space s :
  all_chars (fun c => negb (PyStr.isspace c)) s = true -> PyStr.strip s = s.
Proof.
  intros H. unfold PyStr.strip.
  assert (PyStr.lstrip s = s) as ->.
  { destruct s as [|c s]; [reflexivity|]. simpl in H |- *.
    apply andb_prop in H as [Hc _]. apply negb_true_iff in Hc.
    now rewrite Hc. }
  now apply rstrip_no_space.
Qed.

Lemma digits_no_space s :
  all_chars PyStr.isdigit s = true ->
  all_chars (fun c => negb (PyStr.isspace c)) s = true.
Proof.
  apply all_chars_weaken. intros c Hc.
  destruct (digit_char_facts c Hc) as [-> _]. reflexivity.
Qed.

Lemma int_body_digits s :
  all_chars PyStr.isdigit s = true ->
  forall acc, exists n, PyStr.int_body s acc true = Some n.
Proof.
  induction s as [|c s IH]; simpl; intros H acc; [eauto|].
  apply andb_prop in H as [Hc Hs]. rewrite Hc. apply IH. exact Hs.
Qed.

Lemma digits_no_int_space s :
  all_chars PyStr.isdigit s = true ->
  all_chars (fun c => negb (PyStr.is_int_space c)) s = true.
Proof.
  apply all_chars_weaken. intros c Hc.
  destruct (digit_char_facts c Hc) as (_ & _ & _ & b0 & b1 & b2 & b3 & ->).
  destruct b0, b1, b2, b3; reflexivity.
Qed.

Lemma int_strip_no_space s :
  all_chars (fun c => negb (PyStr.is_int_space c)) s = true ->
  PyStr.int_rstrip (PyStr.int_lstrip s) = s.
Proof.
  intros H.
  assert (PyStr.int_lstrip s = s) as ->.
  { destruct s as [|c s]; [reflexivity|]. simpl in H |- *.
    apply andb_prop in H as [Hc _]. apply negb_true_iff in Hc.
    now rewrite Hc. }
  induction s as [|c s IH]; simpl; [reflexivity|].
  simpl in H. apply andb_prop in H as [Hc Hs]. apply negb_true_iff in Hc.
  rewrite IH by exact Hs. destruct s; [now rewrite Hc|reflexivity].
Qed.

(** A text made of digits has as many code points as bytes. *)
Lemma len_digits s :
  all_chars PyStr.isdigit s = true -> PyStr.len s = String.length s.
Proof.
  induction s as [|c s IH]; simpl; [reflexivity|].
  intros H. apply andb_prop in H as [Hc Hs]. rewrite (IH Hs).
  destruct (digit_char_facts c Hc) as (_ & _ & _ & b0 & b1 & b2 & b3 & ->).
  destruct b0, b1, b2, b3; reflexivity.
Qed.

(** [int] reads every text made of digits that is not empty. *)
Lemma int_of_digits s :
  all_chars PyStr.isdigit s = true -> s <> EmptyString ->
  exists n, PyStr.int s = Some n.
Proof.
  intros H Hne. unfold PyStr.int.
  rewrite int_strip_no_space by now apply digits_no_int_space.
  destruct s as [|c s]; [congruence|].
  simpl in H. apply andb_prop in H as [Hc Hs].
  destruct (digit_char_facts c Hc) as (_ & _ & _ & b0 & b1 & b2 & b3 & ->).
  assert (exists n, PyStr.int_body
                      (String (Ascii b0 b1 b2 b3 true true false false) s)
                      0%Z false = Some n) as Hbody.
  { simpl. rewrite Hc. now apply int_body_digits. }
  destruct b0, b1, b2, b3; exact Hbody.
Qed.

Lemma zfill_two s :
  all_chars PyStr.isdigit s = true -> 1 <= String.length s <= 2 ->
  all_chars PyStr.isdigit (PyStr.zfill 2 s) = true /\
  String.length (PyStr.zfill 2 s) = 2.
Proof.
  intros H Hlen. destruct s as [|a [|b [|c s]]]; simpl in Hlen; try lia.
  - unfold PyStr.zfill. simpl in *. now rewrite H.
  - unfold PyStr.zfill. simpl in *. now rewrite H.
Qed.

(** The signature-date transform on a string: the text is left as it is
    when it holds no date, and is otherwise replaced by the first date found
    in it. *)
Lemma clean_signature_date_text (text : string) :
  exists v,
    DataPrivacyStatementExtractor.clean_signature_date (VStr text) = Return v /\
    (v = VStr text \/
     exists dd mm yyyy,
       v = VStr (dd ++ "/" ++ mm ++ "/" ++ yyyy) /\
       all_chars PyStr.isdigit dd = true /\ String.length dd = 2 /\
       all_chars PyStr.isdigit mm = true /\ String.length mm = 2 /\
       all_chars PyStr.isdigit yyyy = true /\ 3 <= String.length yyyy <= 4).
Proof.
  unfold DataPrivacyStatementExtractor.clean_signature_date.
  destruct (truthy (VStr text)); [|eauto].
  destruct (Re.search DataPrivacyStatementExtractor.signature_date text)
    as [m|] eqn:Em; [|eauto].
  destruct (signature_date_match text m Em)
    as (day & month & year & -> & [Hd Hdl] & [Hm Hml] & [Hy Hyl]).
  simpl in Hdl, Hml, Hyl.
  destruct (zfill_two day Hd Hdl) as [Hzd Hzdl].
  destruct (zfill_two month Hm Hml) as [Hzm Hzml].
  rewrite (len_digits year Hy).
  destruct (String.length year =? 2)%nat eqn:El.
  - apply Nat.eqb_eq in El.
    destruct (int_of_digits year Hy) as [n ->].
    { intros ->. discriminate El. }
    destruct (n <? 50)%Z; cbn [bind]; eexists; (split; [reflexivity|]);
      right; [exists (PyStr.zfill 2 day), (PyStr.zfill 2 month), ("20" ++ year)
             |exists (PyStr.zfill 2 day), (PyStr.zfill 2 month), ("19" ++ year)];
      (repeat split; auto; simpl; try rewrite El; try lia; exact Hy).
  - apply Nat.eqb_neq in El. cbn [bind]. eexists. split; [reflexivity|].
    right. exists (PyStr.zfill 2 day), (PyStr.zfill 2 month), year.
    repeat split; auto; lia.
Qed.

(* ------------------------------------------------------------------ *)
(** ** What the pattern strategy hands the transforms *)

Lemma sep_class_mem ic a :
  (Re.set_mem ic a slash_dash = true -> is_sep a = true) /\
  (Re.set_mem ic a slash_dot_dash = true -> is_sep a = true).
Proof.
  destruct ic; destruct a as [[] [] [] [] [] [] [] []]; vm_compute;
    split; intros H; try reflexivity; discriminate H.
Qed.

(** The texts of a date tree. *)
Lemma denotes_date_tree ic seps t :
  (forall a, Re.set_mem ic a seps = true -> is_sep a = true) ->
  denotes ic (date_tree seps) t -> date_text t.
Proof.
  intros Hseps. unfold date_tree. cbn [denotes].
  intros (t4 & year & -> & (t3 & s2 & -> & (t2 & month & -> & (day & s1 & -> & Hd & Hs1) & Hm) & Hs2) & Hy).
  apply (denotes_digits ic 1 2 true) in Hd.
  apply (denotes_digits ic 1 2 true) in Hm.
  apply (denotes_digits ic 2 4 true) in Hy.
  destruct Hs1 as (a1 & -> & Ha1). destruct Hs2 as (a2 & -> & Ha2).
  simpl in Ha1, Ha2. apply Hseps in Ha1. apply Hseps in Ha2.
  exists day, a1, month, a2, year.
  split; [|auto].
  rewrite !append_assoc. reflexivity.
Qed.

Lemma is_date_tree_sound ic r t :
  is_date_tree r = true -> denotes ic r t -> date_text t.
Proof.
  unfold is_date_tree.
  destruct (regex_eq_dec r (date_tree slash_dash)) as [->|_].
  - intros _. apply denotes_date_tree. intros a. apply sep_class_mem.
  - destruct (regex_eq_dec r (date_tree slash_dot_dash)) as [->|_];
      [|discriminate].
    intros _. apply denotes_date_tree. intros a. apply sep_class_mem.
Qed.

Lemma is_date_tree_groups ic Q r :
  is_date_tree r = true -> groups_within ic Q r.
Proof.
  unfold is_date_tree.
  destruct (regex_eq_dec r (date_tree slash_dash)) as [->|_].
  - intros _. simpl. tauto.
  - destruct (regex_eq_dec r (date_tree slash_dot_dash)) as [->|_];
      [|discriminate].
    intros _. simpl. tauto.
Qed.

(** A tree all of whose groups are date trees captures dates only. *)
Lemma date_groups_within ic r :
  date_groups r = true -> groups_within ic (fun _ => date_text) r.
Proof.
  induction r; cbn [date_groups groups_within]; intros H; try exact I.
  - apply andb_prop in H as [H1 H2]. auto.
  - apply andb_prop in H as [H1 H2]. auto.
  - split.
    + intros t. now apply is_date_tree_sound.
    + now apply is_date_tree_groups.
  - auto.
Qed.

Lemma get_in {A : Type} k (v : A) d : Dict.get k d = Some v -> In (k, v) d.
Proof.
  induction d as [|[k' v'] d IH]; simpl; [discriminate|].
  destruct (String.eqb k' k) eqn:E.
  - apply String.eqb_eq in E. subst k'. intros H. inversion H. auto.
  - auto.
Qed.

Lemma patterns_of_in section field :
  Dict.mem field (_configure_patterns section) = true ->
  In (field, patterns_of section field) (_configure_patterns section).
Proof.
  unfold Dict.mem, patterns_of.
  destruct (Dict.get field (_configure_patterns section)) eqn:E;
    [|discriminate].
  intros _. now apply get_in.
Qed.

(** The entry of a field all of whose patterns give the text of a group
    and whose default is the empty string: a string, empty or the stripped
    text a pattern of the field captured. *)
Lemma regex_text_field section text d field :
  RegexExtractor_extract section text = Return d ->
  Dict.mem field (_configure_patterns section) = true ->
  text_field (patterns_of section field) = true ->
  default_value field = VStr EmptyString ->
  exists s,
    Dict.get field d = Some (VStr s) /\
    (s = EmptyString \/
     exists t m g,
       In t (patterns_of section field) /\
       Re.search (tuple_pattern t) text = Some m /\
       Re.lookup (tuple_group t) (Re.groups m) = Some g /\
       s = PyStr.strip g).
Proof.
  intros Hd Hmem Htext Hdef.
  destruct (RegexExtractor_extract_spec section text)
    as (d' & Hd' & _ & _ & Hfields).
  rewrite Hd in Hd'. inversion Hd'; subst d'. clear Hd'.
  specialize (Hfields field _ (patterns_of_in section field Hmem)).
  destruct (first_match text (patterns_of section field)) as [[t m]|] eqn:Efm.
  - destruct Hfields as (v & Hv & Hget).
    apply first_match_in in Efm as [Hin Hsearch].
    unfold text_field in Htext. rewrite forallb_forall in Htext.
    specialize (Htext t Hin). apply negb_true_iff in Htext.
    assert (tuple_ok t = true) as Hok.
    { pose proof (tables_ok section) as Hall. unfold table_ok in Hall.
      rewrite forallb_forall in Hall.
      specialize (Hall _ (patterns_of_in section field Hmem)).
      simpl in Hall. rewrite forallb_forall in Hall. auto. }
    destruct t as [p g|p g f]; [|discriminate Hok].
    simpl in Htext, Hok, Hin, Hsearch. rewrite Htext in Hok. simpl in Hok.
    destruct (search_sure_group _ _ _ g Hsearch Hok) as [txt Htxt].
    unfold matched_value, Re.group in Hv. simpl in Hv.
    rewrite Htext, Htxt in Hv. inversion Hv; subst v.
    exists (PyStr.strip txt). split; [exact Hget|]. right.
    exists (Tuple2 p g), m, txt. simpl. auto.
  - rewrite Hdef in Hfields. exists EmptyString. auto.
Qed.

Lemma date_text_no_space t :
  date_text t -> all_chars (fun c => negb (PyStr.isspace c)) t = true.
Proof.
  intros (day & s1 & month & s2 & year & -> & [Hd _] & [Hm _] & [Hy _] & H1 & H2).
  assert (forall c, is_sep c = true -> negb (PyStr.isspace c) = true) as Hsep.
  { intros c. destruct c as [[] [] [] [] [] [] [] []]; vm_compute;
      intros H; try reflexivity; discriminate H. }
  rewrite all_chars_app. cbn [all_chars]. rewrite all_chars_app.
  cbn [all_chars].
  rewrite (digits_no_space _ Hd), (digits_no_space _ Hm),
    (digits_no_space _ Hy), (Hsep _ H1), (Hsep _ H2). reflexivity.
Qed.

(** The entry of a date field: the empty string or a date. *)
Lemma regex_date_field section text d field :
  RegexExtractor_extract section text = Return d ->
  Dict.mem field (_configure_patterns section) = true ->
  date_field (patterns_of section field) = true ->
  default_value field = VStr EmptyString ->
  exists s, Dict.get field d = Some (VStr s) /\
            (s = EmptyString \/ date_text s).
Proof.
  intros Hd Hmem Hdate Hdef.
  unfold date_field in Hdate. rewrite forallb_forall in Hdate.
  destruct (regex_text_field section text d field Hd Hmem) as (s & Hs & Hcase);
    [|exact Hdef|].
  { unfold text_field. rewrite forallb_forall. intros t Ht.
    specialize (Hdate t Ht). now apply andb_prop in Hdate as [H _]. }
  exists s. split; [exact Hs|].
  destruct Hcase as [->|(t & m & g & Hin & Hsearch & Hg & ->)]; [now left|].
  right. specialize (Hdate t Hin). apply andb_prop in Hdate as [_ Hdate].
  unfold Re.search in Hsearch.
  apply (search_from_sound _ _ (fun _ => date_text)) in Hsearch as [_ Hcs];
    [|now apply date_groups_within].
  pose proof (lookup_within _ _ _ _ Hcs Hg) as Hdt. simpl in Hdt.
  rewrite strip_no_space; [exact Hdt|now apply date_text_no_space].
Qed.

(* ------------------------------------------------------------------ *)
(** ** The transforms on the entries of the pattern strategy *)

Lemma sub_app p repl a b :
  Re.sub p repl (a ++ b) = Re.sub p repl a ++ Re.sub p repl b.
Proof.
  induction a as [|c a IH]; [reflexivity|].
  cbn [append Re.sub]. rewrite IH.
  destruct (Re.matches_char p c); [now rewrite append_assoc|reflexivity].
Qed.

Lemma digits_not_dash_or_dot s :
  all_chars PyStr.isdigit s = true -> all_chars not_dash_or_dot s = true.
Proof.
  apply all_chars_weaken. intros c Hc.
  now destruct (digit_char_facts c Hc) as (_ & _ & H & _).
Qed.

Lemma digits_not_slash s :
  all_chars PyStr.isdigit s = true ->
  all_chars (fun x => negb (Ascii.eqb x "/")) s = true.
Proof.
  apply all_chars_weaken. intros c Hc.
  now destruct (digit_char_facts c Hc) as (_ & H & _).
Qed.

Lemma sub_sep c rest :
  is_sep c = true ->
  Re.sub (Re.compile "[-.]" Re.NOFLAG) "/" (String c rest)
  = String "/" (Re.sub (Re.compile "[-.]" Re.NOFLAG) "/" rest).
Proof.
  intros Hc. cbn [Re.sub]. rewrite matches_char_dash_dot.
  unfold is_sep in Hc. destruct (dash_or_dot c); [reflexivity|].
  rewrite orb_false_r in Hc. apply Ascii.eqb_eq in Hc. now subst c.
Qed.

(** The date transform on a date the patterns captured: it never raises. *)
Lemma clean_date_of_birth_returns result s :
  Dict.get "date_of_birth" result = Some (VStr s) ->
  s = EmptyString \/ date_text s ->
  exists r1, clean_date_of_birth result = Return r1 /\
             same_but "date_of_birth" result r1.
Proof.
  intros Hget Hs. unfold clean_date_of_birth, Dict.get_default.
  rewrite Hget.
  destruct Hs as [->|(day & s1 & month & s2 & year & -> & [Hd _] & [Hm _]
                      & [Hy Hyl] & H1 & H2)].
  - exists result. split; [reflexivity|]. intros k _. reflexivity.
  - assert (truthy (VStr (day ++ String s1 (month ++ String s2 year))) = true)
      as ->.
    { simpl. destruct day; reflexivity. }
    cbn [negb].
    rewrite sub_app, sub_sep, sub_app, sub_sep by assumption.
    rewrite !sub_dash_dot_fixed by now apply digits_not_dash_or_dot.
    rewrite split_join3 by now apply digits_not_slash.
    assert (exists year',
               (if (PyStr.len year =? 2)%nat
                then match PyStr.int year with
                     | Some year_num =>
                         if (50 <=? year_num)%Z then Return ("19" ++ year)
                         else Return ("20" ++ year)
                     | None => Raise ValueError
                     end
                else Return year) = Return year') as [year' ->].
    { destruct (PyStr.len year =? 2)%nat; [|eauto].
      destruct (int_of_digits year Hy) as [n ->].
      - intros ->. simpl in Hyl. lia.
      - destruct (50 <=? n)%Z; eauto. }
    cbn [bind]. eexists. split; [reflexivity|].
    intros k Hk. now apply get_set_other.
Qed.

Lemma same_but_holds k k' d d' :
  same_but k d d' -> k' <> k -> holds_str k' d -> holds_str k' d'.
Proof. intros H Hk [s Hs]. exists s. now rewrite H. Qed.

(** The donor's and trustee's identifier transform on a string. *)
Lemma clean_ni_returns result :
  holds_str "national_insurance_number" result ->
  exists r1, DonorExtractor._clean_national_insurance_number result = Return r1 /\
             same_but "national_insurance_number" result r1.
Proof.
  intros [s Hs]. unfold DonorExtractor._clean_national_insurance_number,
    Dict.get_default. rewrite Hs.
  destruct (negb (truthy (VStr s))).
  - exists result. split; [reflexivity|]. intros k _. reflexivity.
  - eexists. split; [reflexivity|]. intros k Hk. now apply get_set_other.
Qed.

(** The beneficiary's identifier transform on a string. *)
Lemma beneficiary_ni_returns result :
  holds_str "national_insurance_number" result ->
  exists r1,
    BeneficiaryExtractor._clean_national_insurance_number result = Return r1 /\
    same_but "national_insurance_number" result r1.
Proof.
  intros [s Hs]. unfold BeneficiaryExtractor._clean_national_insurance_number,
    Dict.get_default. rewrite Hs.
  destruct (negb (truthy (VStr s))).
  - exists result. split; [reflexivity|]. intros k _. reflexivity.
  - destruct (String.eqb (PyStr.strip s) EmptyString);
      (eexists; split; [reflexivity|]; intros k Hk; now apply get_set_other).
Qed.

(** The address transform on strings. *)
Lemma clean_address_returns result :
  holds_str "postcode" result ->
  holds_str "permanent_residential_address" result ->
  exists r1, clean_address_fields result = Return r1.
Proof.
  intros [p Hp] [a Ha]. unfold clean_address_fields, Dict.get_default.
  rewrite Hp.
  assert (exists result1 p1,
             (if truthy (VStr p)
              then Return (Dict.set "postcode"
                             (VStr (PyStr.upper (PyStr.strip p))) result)
              else Return result) = Return result1 /\
             Dict.get "postcode" result1 = Some (VStr p1) /\
             Dict.get "permanent_residential_address" result1
             = Some (VStr a)) as (result1 & p1 & -> & Hp1 & Ha1).
  { destruct (truthy (VStr p)).
    - eexists. eexists. split; [reflexivity|].
      rewrite get_set_same, get_set_other by discriminate. auto.
    - exists result, p. auto. }
  cbn [bind]. rewrite Ha1, Hp1.
  destruct (truthy (VStr a)); [|eauto].
  destruct (truthy (VStr p1)); [|cbn [bind]; eauto].
  destruct (PyStr.endswith (PyStr.strip a) p1); cbn [bind]; eauto.
Qed.

(** The two transforms of the bank section on strings. *)
Lemma clean_bank_returns result :
  holds_str "account_number" result ->
  holds_str "sort_code" result ->
  exists r1 r2,
    NominatedBankAccountExtractor._clean_account_number result = Return r1 /\
    NominatedBankAccountExtractor._clean_sort_code r1 = Return r2.
Proof.
  intros [a Ha] [c Hc].
  unfold NominatedBankAccountExtractor._clean_account_number, Dict.get_default.
  rewrite Ha.
  assert (exists r1,
             (if negb (truthy (VStr a)) then Return result
              else Return (Dict.set "account_number"
                             (VStr (Re.sub NominatedBankAccountExtractor.non_digit
                                      EmptyString a)) result)) = Return r1 /\
             Dict.get "sort_code" r1 = Some (VStr c)) as (r1 & -> & Hc1).
  { destruct (negb (truthy (VStr a))).
    - exists result. auto.
    - eexists. split; [reflexivity|]. now rewrite get_set_other. }
  exists r1.
  unfold NominatedBankAccountExtractor._clean_sort_code, Dict.get_default.
  rewrite Hc1.
  destruct (negb (truthy (VStr c))); [eauto|].
  destruct (String.length _ =? 6)%nat; eauto.
Qed.

(* ------------------------------------------------------------------ *)
(** ** When the signature post-processing returns *)

(** A group that is sure in the tree of a pattern is set by every match
    at the start of the text. *)
Lemma match_sure_group p text m g :
  Re.match_ p text = Some m ->
  sure_group g (Re.tree p) = true ->
  exists t, Re.lookup g (Re.groups m) = Some t.
Proof.
  unfold Re.match_, Re.match_at. intros H Hg.
  apply run_captures in H as (s' & cs' & Hk & _ & Hs).
  inversion Hk; subst m. simpl. specialize (Hs g Hg).
  unfold has_group in Hs. destruct (Re.lookup g cs'); [eauto|discriminate].
Qed.

Lemma trustee_key_groups key m :
  Re.match_ DataPrivacyStatementExtractor.trustee_key key = Some m ->
  exists num name, Re.group m 1 = Some num /\ Re.group m 2 = Some name.
Proof.
  intros H.
  destruct (match_sure_group _ _ _ 1 H eq_refl) as [num Hnum].
  destruct (match_sure_group _ _ _ 2 H eq_refl) as [name Hname].
  exists num, name. unfold Re.group. simpl. auto.
Qed.

Lemma in_remove {A : Type} k (v : A) f d :
  In (k, v) (Dict.remove f d) -> In (k, v) d.
Proof.
  induction d as [|[k' v'] d IH]; simpl; [tauto|].
  destruct (String.eqb k' f); simpl; intuition.
Qed.

Lemma str_or_falsy_none : str_or_falsy VNone.
Proof. reflexivity. Qed.

Lemma fields_of_set num num' fields tf :
  DataPrivacyStatementExtractor.fields_of num' (Dict.set num fields tf)
  = if String.eqb num' num then fields
    else DataPrivacyStatementExtractor.fields_of num' tf.
Proof.
  unfold DataPrivacyStatementExtractor.fields_of.
  destruct (String.eqb num' num) eqn:E.
  - apply String.eqb_eq in E. subst num'. now rewrite get_set_same.
  - apply String.eqb_neq in E. now rewrite get_set_other.
Qed.

Lemma dates_ok_set num fields tf :
  dates_ok tf ->
  str_or_falsy (Dict.get_default "date" fields) ->
  dates_ok (Dict.set num fields tf).
Proof.
  intros Htf Hf num'. rewrite fields_of_set.
  destruct (String.eqb num' num); [exact Hf|apply Htf].
Qed.

Lemma get_default_set k k' v d :
  Dict.get_default k (Dict.set k' v d)
  = if String.eqb k k' then v else Dict.get_default k d.
Proof.
  unfold Dict.get_default. destruct (String.eqb k k') eqn:E.
  - apply String.eqb_eq in E. subst k. now rewrite get_set_same.
  - apply String.eqb_neq in E. now rewrite get_set_other.
Qed.

(** The loop that collects the flat trustee keys never raises; it keeps
    the dates strings or falsy when the flat date entries are, and leaves
    every key that is not a trustee key alone. *)
Lemma collect_trustee_fields_returns keys :
  forall result trustee_fields,
    (forall k v, In (k, v) result -> is_date_key k = true -> str_or_falsy v) ->
    dates_ok trustee_fields ->
    exists result' trustee_fields',
      DataPrivacyStatementExtractor.collect_trustee_fields keys result
        trustee_fields = Return (result', trustee_fields') /\
      dates_ok trustee_fields' /\
      forall k, is_trustee_key k = false ->
                Dict.get k result' = Dict.get k result.
Proof.
  induction keys as [|key keys IH]; intros result tf Hres Htf;
    cbn [DataPrivacyStatementExtractor.collect_trustee_fields].
  - exists result, tf. auto.
  - destruct (Re.match_ DataPrivacyStatementExtractor.trustee_key key)
      as [m|] eqn:Em; [|now apply IH].
    destruct (trustee_key_groups key m Em) as (num & name & -> & Hname).
    rewrite Hname.
    set (tf1 := if negb (Dict.mem num tf) then Dict.set num [] tf else tf).
    assert (dates_ok tf1) as Htf1.
    { unfold tf1. destruct (negb (Dict.mem num tf)); [|exact Htf].
      apply dates_ok_set; [exact Htf|reflexivity]. }
    assert (String.eqb name "date" = true ->
            str_or_falsy (Dict.get_default key result)) as Hvalue.
    { intros Hdate. unfold Dict.get_default.
      destruct (Dict.get key result) as [v|] eqn:Ev; [|reflexivity].
      apply (Hres key v); [now apply get_in|].
      unfold is_date_key, field_of_key. now rewrite Em, Hname. }
    destruct (IH (Dict.remove key result)
                (if truthy (Dict.get_default key result)
                    || String.eqb name "signature"
                 then Dict.set num
                        (Dict.set name (Dict.get_default key result)
                           (DataPrivacyStatementExtractor.fields_of num tf1))
                        tf1
                 else tf1))
      as (result' & tf' & Hret & Htf' & Hget).
    + intros k v Hin. apply Hres. now apply in_remove in Hin.
    + destruct (_ || _); [|exact Htf1].
      apply dates_ok_set; [exact Htf1|].
      rewrite get_default_set.
      destruct (String.eqb "date" name) eqn:E.
      * apply Hvalue. now rewrite String.eqb_sym.
      * apply Htf1.
    + exists result', tf'. split; [exact Hret|]. split; [exact Htf'|].
      intros k Hk. rewrite Hget by exact Hk. apply get_remove_other.
      intros ->. unfold is_trustee_key in Hk. now rewrite Em in Hk.
Qed.

Lemma clean_signature_date_returns v :
  str_or_falsy v ->
  exists v', DataPrivacyStatementExtractor.clean_signature_date v = Return v' /\
             (v' = v \/ written_date v').
Proof.
  destruct v as [|b|z|s|l|d]; simpl; intros H;
    try (unfold DataPrivacyStatementExtractor.clean_signature_date;
         simpl; rewrite ?H; eauto; fail).
  exact (clean_signature_date_text s).
Qed.

(** The loop that appends the signatures never raises when the dates are
    strings or falsy and the result holds a list of signatures. *)
Lemma append_signatures_returns nums trustee_fields :
  dates_ok trustee_fields ->
  forall result,
    (exists l, Dict.get "trustee_signatures" result = Some (VList l)) ->
    exists result',
      DataPrivacyStatementExtractor.append_signatures nums trustee_fields
        result = Return result'.
Proof.
  intros Htf. induction nums as [|num nums IH]; intros result [l Hl];
    cbn [DataPrivacyStatementExtractor.append_signatures]; [eauto|].
  destruct (_ || _); [|apply IH; eauto].
  destruct (clean_signature_date_returns _ (Htf num)) as (date & -> & _).
  cbn [bind]. rewrite Hl. apply IH.
  eexists. apply get_set_same.
Qed.




(** The post-processing of the flat trustee entries on well-typed
    entries. *)
Lemma signatures_processing_total (result : dict) :
  (forall k v, In (k, v) result -> is_date_key k = true -> str_or_falsy v) ->
  signatures_slot_ok result ->
  exists result',
    DataPrivacyStatementExtractor._process_trustee_signatures_from_flat_structure
      result = Return result'.
Proof.
  intros Hres Hslot.
  unfold DataPrivacyStatementExtractor._process_trustee_signatures_from_flat_structure.
  set (result0 :=
         if negb (Dict.mem "trustee_signatures" result)
            || negb (truthy (Dict.get_default "trustee_signatures" result))
         then Dict.set "trustee_signatures" (VList []) result
         else result).
  assert ((forall k v, In (k, v) result0 -> is_date_key k = true ->
                       str_or_falsy v) /\
          exists l, Dict.get "trustee_signatures" result0 = Some (VList l))
    as [Hres0 Hslot0].
  { unfold result0.
    destruct (negb (Dict.mem "trustee_signatures" result)
              || negb (truthy (Dict.get_default "trustee_signatures" result)))
      eqn:E.
    - split.
      + intros k v Hin Hk. apply in_set_inv in Hin as [Hin|[-> _]];
          [now apply (Hres k)|discriminate Hk].
      + eexists. apply get_set_same.
    - split; [exact Hres|].
      apply orb_false_elim in E as [E1 E2].
      apply negb_false_iff in E1, E2.
      unfold signatures_slot_ok in Hslot.
      unfold Dict.mem, Dict.get_default in *.
      destruct (Dict.get "trustee_signatures" result) as [v|];
        [|discriminate E1].
      destruct v; try (rewrite Hslot in E2; discriminate E2). eauto. }
  destruct (collect_trustee_fields_returns (Dict.keys result0) result0 []
              Hres0)
    as (result1 & tf & -> & Htf & Hget).
  { intros num. reflexivity. }
  cbn [bind].
  apply append_signatures_returns; [exact Htf|].
  rewrite Hget by reflexivity. exact Hslot0.
Qed.

(** X18.  The post-processing of the flat trustee entries returns whenever
    every entry under a key [trustee<N>_date] is a string or falsy and
    the entry [trustee_signatures] is absent, falsy or a list: neither a
    missing group, nor a year, nor the list of signatures makes it raise. *)
Theorem signatures_processing_returns (result : dict) :
  (forall k v, In (k, v) result -> is_date_key k = true -> str_or_falsy v) ->
  signatures_slot_ok result ->
  exists result',
    DataPrivacyStatementExtractor._process_trustee_signatures_from_flat_structure
      result = Return result'.
Proof. apply signatures_processing_total. Qed.

Lemma signatures_processing_returns_witness :
  exists result',
    DataPrivacyStatementExtractor._process_trustee_signatures_from_flat_structure
      [("trustee1_name", VStr "A Smith"); ("trustee1_date", VStr "1.2.99");
       ("trustee1_signature", VBool true)]
    = Return result'.
Proof.
  apply signatures_processing_returns.
  - intros k v [H|[H|[H|[]]]]; inversion H; subst; intros Hk;
      try exact I; discriminate Hk.
  - exact I.
Defined.

(* ------------------------------------------------------------------ *)
(** ** The pipeline when the provider fails *)

Lemma extract_fallback chain section text e :
  chain text = Raise e ->
  LLMExtractor.extract chain section text
  = (fallback <- RegexExtractor_extract section text ;;
     Return (VDict fallback)).
Proof.
  intros H. unfold LLMExtractor.extract, LLMExtractor.run_chain.
  rewrite H. reflexivity.
Qed.

Lemma regex_holds_str section text d field :
  RegexExtractor_extract section text = Return d ->
  Dict.mem field (_configure_patterns section) = true ->
  text_field (patterns_of section field) = true ->
  default_value field = VStr EmptyString ->
  holds_str field d.
Proof.
  intros Hd Hmem Htext Hdef.
  destruct (regex_text_field section text d field Hd Hmem Htext Hdef)
    as (s & Hs & _).
  now exists s.
Qed.

(** The three transforms shared by the donor, trustee and beneficiary
    classes return on what the pattern strategy extracted. *)
Lemma personal_transforms_return section text d
    (clean_ni : dict -> Result dict) :
  RegexExtractor_extract section text = Return d ->
  section = DONOR_DETAILS \/ section = TRUSTEE_DETAILS
  \/ section = BENEFICIARY_DETAILS ->
  (forall result,
      holds_str "national_insurance_number" result ->
      exists r1, clean_ni result = Return r1 /\
                 same_but "national_insurance_number" result r1) ->
  exists r1 r2 r3,
    clean_date_of_birth d = Return r1 /\
    clean_ni r1 = Return r2 /\
    clean_address_fields r2 = Return r3.
Proof.
  intros Hd Hsec Hni.
  assert (exists s, Dict.get "date_of_birth" d = Some (VStr s) /\
                    (s = EmptyString \/ date_text s)) as (s & Hs & Hcase).
  { destruct Hsec as [-> | [-> | ->]];
      (eapply regex_date_field; [exact Hd|vm_compute; reflexivity..]). }
  assert (holds_str "national_insurance_number" d) as Hn.
  { destruct Hsec as [-> | [-> | ->]];
      (eapply regex_holds_str; [exact Hd|vm_compute; reflexivity..]). }
  assert (holds_str "postcode" d) as Hp.
  { destruct Hsec as [-> | [-> | ->]];
      (eapply regex_holds_str; [exact Hd|vm_compute; reflexivity..]). }
  assert (holds_str "permanent_residential_address" d) as Ha.
  { destruct Hsec as [-> | [-> | ->]];
      (eapply regex_holds_str; [exact Hd|vm_compute; reflexivity..]). }
  destruct (clean_date_of_birth_returns d s Hs Hcase) as (r1 & Hr1 & Hsame1).
  destruct (Hni r1) as (r2 & Hr2 & Hsame2).
  { apply (same_but_holds _ _ _ _ Hsame1); [discriminate|exact Hn]. }
  destruct (clean_address_returns r2) as [r3 Hr3].
  { apply (same_but_holds _ _ _ _ Hsame2); [discriminate|].
    apply (same_but_holds _ _ _ _ Hsame1); [discriminate|exact Hp]. }
  { apply (same_but_holds _ _ _ _ Hsame2); [discriminate|].
    apply (same_but_holds _ _ _ _ Hsame1); [discriminate|exact Ha]. }
  exists r1, r2, r3. auto.
Qed.

Lemma privacy_entries_ok text d :
  RegexExtractor_extract DATA_PRIVACY_STATEMENT text = Return d ->
  (forall k v, In (k, v) d -> is_date_key k = true -> str_or_falsy v) /\
  signatures_slot_ok d.
Proof.
  intros Hd.
  destruct (RegexExtractor_extract_spec DATA_PRIVACY_STATEMENT text)
    as (d' & Hd' & Hkeys & _ & _).
  rewrite Hd in Hd'. inversion Hd'; subst d'. clear Hd'.
  assert (NoDup (Dict.keys d)) as Hnd.
  { rewrite Hkeys. apply nodupb_NoDup. apply tables_nodup. }
  assert (forall k v, In (k, v) d -> Dict.get k d = Some v) as Hget.
  { clear Hkeys Hd. induction d as [|[k0 v0] d IH]; intros k v; simpl;
      [tauto|].
    inversion Hnd as [|? ? Hnotin Hnd']; subst.
    intros [H|H].
    - inversion H; subst. now rewrite String.eqb_refl.
    - destruct (String.eqb k0 k) eqn:E; [|now apply IH].
      apply String.eqb_eq in E. subst k0. exfalso. apply Hnotin.
      apply (in_map fst) in H. exact H. }
  split.
  - intros k v Hin Hk.
    assert (In k (Dict.keys d)) as Hink by (apply (in_map fst) in Hin; exact Hin).
    rewrite Hkeys in Hink.
    assert (k = "trustee1_date" \/ k = "trustee2_date") as Hcases.
    { vm_compute in Hink.
      repeat (destruct Hink as [<-|Hink];
              [first [now left | now right | discriminate Hk]|]).
      destruct Hink. }
    apply Hget in Hin.
    destruct Hcases as [-> | ->].
    + destruct (regex_holds_str DATA_PRIVACY_STATEMENT text d "trustee1_date" Hd)
        as [s Hs]; try (vm_compute; reflexivity).
      rewrite Hs in Hin. inversion Hin. exact I.
    + destruct (regex_holds_str DATA_PRIVACY_STATEMENT text d "trustee2_date" Hd)
        as [s Hs]; try (vm_compute; reflexivity).
      rewrite Hs in Hin. inversion Hin. exact I.
  - unfold signatures_slot_ok.
    destruct (Dict.get "trustee_signatures" d) eqn:E; [|exact I].
    exfalso. apply get_in in E. apply (in_map fst) in E. simpl in E.
    change (In "trustee_signatures" (Dict.keys d)) in E.
    rewrite Hkeys in E. vm_compute in E.
    repeat (destruct E as [E|E]; [discriminate E|]). destruct E.
Qed.

(** Every section extractor returns on every text when the call of the
    provider raises. *)
Lemma extractor_fallback_returns chain section text :
  (exists e, chain text = Raise e) ->
  exists v, extractor_extract section chain text = Return v.
Proof.
  intros [e He].
  destruct (RegexExtractor_extract_spec section text) as (d & Hd & _).
  destruct section; unfold extractor_extract.
  - unfold TrustExtractor.extract.
    rewrite (extract_fallback _ _ _ e He), Hd. cbn [bind]. eauto.
  - unfold DonorExtractor.extract.
    rewrite (extract_fallback _ _ _ e He), Hd. cbn [bind as_dict].
    destruct (personal_transforms_return _ text d
                DonorExtractor._clean_national_insurance_number Hd)
      as (r1 & r2 & r3 & H1 & H2 & H3); [auto|apply clean_ni_returns|].
    unfold DonorExtractor._clean_date_of_birth,
      DonorExtractor._clean_address_fields.
    rewrite H1. cbn [bind]. rewrite H2. cbn [bind]. rewrite H3. cbn [bind].
    eauto.
  - unfold TrusteeExtractor.extract.
    rewrite (extract_fallback _ _ _ e He), Hd. cbn [bind as_dict].
    destruct (personal_transforms_return _ text d
                TrusteeExtractor._clean_national_insurance_number Hd)
      as (r1 & r2 & r3 & H1 & H2 & H3); [auto|apply clean_ni_returns|].
    unfold TrusteeExtractor._clean_date_of_birth,
      TrusteeExtractor._clean_address_fields.
    rewrite H1. cbn [bind]. rewrite H2. cbn [bind]. rewrite H3. cbn [bind].
    eauto.
  - unfold BeneficiaryExtractor.extract.
    rewrite (extract_fallback _ _ _ e He), Hd. cbn [bind as_dict].
    destruct (personal_transforms_return _ text d
                BeneficiaryExtractor._clean_national_insurance_number Hd)
      as (r1 & r2 & r3 & H1 & H2 & H3); [auto|apply beneficiary_ni_returns|].
    unfold BeneficiaryExtractor._clean_date_of_birth,
      BeneficiaryExtractor._clean_address_fields.
    rewrite H1. cbn [bind]. rewrite H2. cbn [bind]. rewrite H3. cbn [bind].
    eauto.
  - unfold NominatedBankAccountExtractor.extract.
    rewrite (extract_fallback _ _ _ e He), Hd. cbn [bind as_dict].
    destruct (clean_bank_returns d) as (r1 & r2 & H1 & H2);
      try (eapply regex_holds_str; [exact Hd|vm_compute; reflexivity..]).
    rewrite H1. cbn [bind]. rewrite H2. cbn [bind]. eauto.
  - unfold SecurityInformationExtractor.extract.
    rewrite (extract_fallback _ _ _ e He), Hd. cbn [bind as_dict]. eauto.
  - unfold DataPrivacyStatementExtractor.extract.
    rewrite (extract_fallback _ _ _ e He), Hd. cbn [bind as_dict].
    destruct (privacy_entries_ok text d Hd) as [Hdates Hslot].
    destruct (signatures_processing_total d Hdates Hslot) as [r1 ->].
    cbn [bind]. eauto.
Qed.


(** The run of the extractor of a section when the model is built and the
    chain of the section raises at every call. *)
Lemma extractor_run_fallback {T : Type} (lc : LangChain T) environ
    extracted_text llm_provider model_name api_key temperature
    (model : llm lc) section :
  get_llm lc llm_provider model_name api_key temperature environ
  = Return model ->
  (exists chain, chain_of lc model section = Return chain /\
                 forall text, exists e, chain text = Raise e) ->
  exists chain,
    (forall text, exists e, chain text = Raise e) /\
    extractor_run lc environ extracted_text llm_provider model_name api_key
      temperature section
    = extractor_extract section chain
        (section_text extracted_text (pages_of section extracted_text)).
Proof.
  intros Hllm (chain & Hchain & Hfail). exists chain. split; [exact Hfail|].
  unfold extractor_run, LLMExtractor.__init__.
  destruct (init_total section) as [sc ->]. cbn [bind].
  rewrite Hllm. cbn [bind]. rewrite Hchain. reflexivity.
Qed.

(** X19.  When the model of the provider asked for can be built and the
    chain of every section can be composed, and every call of a chain
    raises, whatever the error, [process_document] returns a result for
    every document and every section filter: the pattern strategy takes
    over in each section and none of the transforms of the section
    extractors raises on what the patterns extracted. *)
Theorem provider_failure_never_raises {T : Type} (lc : LangChain T)
    (environ : list (string * string))
    (extracted_text : list (nat * string)) (sections : option (list string))
    (llm_provider : string) (model_name api_key : option string)
    (temperature : T) (model : llm lc) :
  get_llm lc llm_provider model_name api_key temperature environ
  = Return model ->
  (forall section,
      exists chain, chain_of lc model section = Return chain /\
                    forall text, exists e, chain text = Raise e) ->
  exists results,
    process_document lc environ extracted_text sections llm_provider
      model_name api_key temperature = Return results.
Proof.
  intros Hllm Hfail.
  assert (exists entities,
             Forall2 (fun section entity =>
                        extractor_run lc environ extracted_text
                          llm_provider model_name api_key temperature
                          section = Return entity)
               (active_sections extracted_text sections) entities)
    as [entities Hall].
  { apply Forall2_exists, Forall_forall. intros section _.
    destruct (extractor_run_fallback lc environ extracted_text llm_provider
                model_name api_key temperature model section Hllm
                (Hfail section)) as (chain & Hchain & ->).
    apply extractor_fallback_returns. apply Hchain. }
  eexists. apply process_document_entries. eauto.
Qed.

Lemma provider_failure_never_raises_witness :
  exists results,
    process_document failing_provider [("OPENAI_API_KEY", "sk-0")]
      [(0, "Donor details Surname: Smith Date of birth: 1-2-49");
       (1, "Data privacy statement Trustee 1 Name: A Smith Date: 3.4.2020")]
      None "openai" None None tt
    = Return results.
Proof.
  apply (provider_failure_never_raises failing_provider
           [("OPENAI_API_KEY", "sk-0")] _ _ "openai" None None tt tt).
  - reflexivity.
  - intros section. exists failing_chain. split; [reflexivity|].
    intros text. exists ProviderError. reflexivity.
Defined.

(* ------------------------------------------------------------------ *)
(** ** Cleaning the text of a page *)

Lemma drop_length n s : String.length (drop n s) = String.length s - n.
Proof.
  revert s. induction n as [|n IH]; intros [|a s]; simpl; auto.
Qed.

Lemma span_le p s : span p s <= String.length s.
Proof.
  induction s as [|a s IH]; simpl; [lia|]. destruct (p a); lia.
Qed.

Lemma consumed_drop n s :
  n <= String.length s ->
  String.length (Re.consumed s (drop n s)) = n.
Proof.
  unfold Re.consumed. rewrite drop_length. intros H.
  replace (String.length s - (String.length s - n)) with n by lia.
  revert s H. induction n as [|n IH]; intros [|a s] H; simpl in *;
    try reflexivity; try lia.
  rewrite IH; [reflexivity|lia].
Qed.

(** A greedy repetition without upper bound of a one-character tree
    takes the longest run of such characters, when what follows the
    repetition cannot fail. *)
Lemma rep_loop_run {R : Type}
    (body : string -> Re.captures -> @Re.cont R -> option R)
    (p : ascii -> bool) lo (k : @Re.cont R) :
  (forall s cs k', body s cs k'
                   = match s with
                     | String a s' => if p a then k' s' cs else None
                     | EmptyString => None
                     end) ->
  (forall s cs, k s cs <> None) ->
  forall fuel cnt s cs,
    span p s < fuel ->
    Re.rep_loop body lo None true k fuel cnt s cs
    = if (lo <=? cnt + span p s)%nat then k (drop (span p s) s) cs else None.
Proof.
  intros Hbody Hk. induction fuel as [|fuel IH]; intros cnt s cs Hfuel;
    [lia|].
  cbn [Re.rep_loop]. unfold Re.below. rewrite Hbody.
  destruct s as [|a s'].
  - simpl. now rewrite Nat.add_0_r.
  - cbn [span]. destruct (p a) eqn:Ep.
    + assert ((String.length s' <? String.length (String a s'))%nat = true)
        as -> by (apply Nat.ltb_lt; simpl; lia).
      cbn [orb]. cbn [span] in Hfuel. rewrite Ep in Hfuel.
      rewrite IH by lia.
      rewrite Nat.add_succ_r. cbn [drop Nat.add].
      destruct (lo <=? S (cnt + span p s'))%nat eqn:E.
      * destruct (k (drop (span p s') s') cs) eqn:Ek; [reflexivity|].
        exfalso. exact (Hk _ _ Ek).
      * apply Nat.leb_gt in E.
        assert ((lo <=? cnt)%nat = false) as -> by (apply Nat.leb_gt; lia).
        reflexivity.
    + now rewrite Nat.add_0_r.
Qed.

(** The match of such a repetition at the start of a text. *)
Lemma match_at_run ic total r p lo s :
  atom_of ic total r p ->
  Re.match_at ic total (Re.RRepeat lo None true r) s
  = if (lo <=? span p s)%nat
    then Some (Re.MatchObj (Re.consumed s (drop (span p s) s)) [])
    else None.
Proof.
  intros Hatom. unfold Re.match_at. cbn [Re.run].
  rewrite (rep_loop_run _ p).
  - reflexivity.
  - intros s0 cs k'. apply Hatom.
  - intros s0 cs. discriminate.
  - pose proof (span_le p s). lia.
Qed.

Lemma non_ascii_atom total :
  atom_of false total
    (Re.RClass true [Re.CRange (ascii_of_nat 0) (ascii_of_nat 127)])
    beyond_ascii.
Proof. intros R s cs k. reflexivity. Qed.

Lemma beyond_ascii_spec a : beyond_ascii a = negb (is_ascii a).
Proof. destruct a as [[] [] [] [] [] [] [] []]; vm_compute; reflexivity. Qed.

(** Nothing outside ASCII is left by the third substitution. *)
Lemma sub_non_ascii total text :
  forall skip,
    all_chars is_ascii
      (TextProcessor.sub_from TextProcessor.non_ascii " " total skip text)
    = true.
Proof.
  induction text as [|c rest IH]; intros skip; [reflexivity|].
  cbn [TextProcessor.sub_from]. destruct skip as [|skip]; [|apply IH].
  unfold TextProcessor.non_ascii at 1 2. cbn [Re.tree Re.ignorecase].
  unfold Re.NOFLAG.
  rewrite (match_at_run false total _ beyond_ascii 1 _ (non_ascii_atom total)).
  cbn [span]. destruct (beyond_ascii c) eqn:Ec.
  - cbn [Nat.leb Re.whole].
    rewrite consumed_drop
      by (simpl; pose proof (span_le beyond_ascii rest); lia).
    simpl. apply IH.
  - cbn [Nat.leb all_chars]. rewrite IH.
    rewrite beyond_ascii_spec in Ec. apply negb_false_iff in Ec.
    now rewrite Ec.
Qed.

Lemma all_chars_lstrip p s :
  all_chars p s = true -> all_chars p (PyStr.lstrip s) = true.
Proof.
  induction s as [|c s IH]; simpl; [reflexivity|].
  intros H. destruct (PyStr.isspace c); [|exact H].
  apply andb_prop in H as [_ H]. auto.
Qed.

Lemma all_chars_rstrip p s :
  all_chars p s = true -> all_chars p (PyStr.rstrip s) = true.
Proof.
  induction s as [|c s IH]; simpl; [reflexivity|].
  intros H. apply andb_prop in H as [Hc Hs]. specialize (IH Hs).
  destruct (PyStr.rstrip s).
  - destruct (PyStr.isspace c); simpl; [reflexivity|now rewrite Hc].
  - simpl in IH |- *. now rewrite Hc, IH.
Qed.

Lemma all_chars_strip p s :
  all_chars p s = true -> all_chars p (PyStr.strip s) = true.
Proof.
  intros H. unfold PyStr.strip. now apply all_chars_rstrip, all_chars_lstrip.
Qed.

Lemma concat_cons2 sep (x y : string) parts :
  String.concat sep (x :: y :: parts)
  = x ++ sep ++ String.concat sep (y :: parts).
Proof. reflexivity. Qed.

Lemma all_chars_join p sep parts :
  all_chars p sep = true ->
  Forall (fun t => all_chars p t = true) parts ->
  all_chars p (PyStr.join sep parts) = true.
Proof.
  intros Hsep H. unfold PyStr.join.
  induction H as [|x parts Hx Hparts IH]; [reflexivity|].
  destruct parts as [|y parts]; [exact Hx|].
  rewrite concat_cons2, !all_chars_app, Hx, Hsep, IH. reflexivity.
Qed.

(** Splitting what was joined gives the parts back, when none holds the
    separator. *)
Lemma split_join sep parts :
  parts <> [] ->
  Forall (fun t => all_chars (fun c => negb (Ascii.eqb c sep)) t = true) parts ->
  PyStr.split sep (PyStr.join (String sep EmptyString) parts) = parts.
Proof.
  intros Hne H. unfold PyStr.split, PyStr.join.
  induction H as [|x parts Hx Hparts IH]; [congruence|].
  destruct parts as [|y parts].
  - cbn [String.concat]. rewrite <- (append_empty_r x) at 1.
    rewrite split_aux_app by exact Hx. reflexivity.
  - rewrite concat_cons2. rewrite split_aux_app by exact Hx.
    cbn [append PyStr.split_aux]. rewrite Ascii.eqb_refl.
    cbn [append]. f_equal. apply IH. discriminate.
Qed.

Lemma split_aux_nonempty sep s cur : PyStr.split_aux sep s cur <> [].
Proof.
  revert cur. induction s as [|c s IH]; intros cur; simpl; [discriminate|].
  destruct (Ascii.eqb c sep); [discriminate|apply IH].
Qed.

(** The lines [_clean_text] joins: stripped, and without a newline. *)
Lemma clean_lines text :
  let lines := map PyStr.strip (PyStr.split Re.newline text) in
  lines <> [] /\
  Forall trimmed lines /\
  Forall (fun t => all_chars (fun c => negb (Ascii.eqb c Re.newline)) t = true)
    lines.
Proof.
  cbv zeta. split; [|split].
  - unfold PyStr.split.
    pose proof (split_aux_nonempty Re.newline text EmptyString) as H.
    destruct (PyStr.split_aux Re.newline text EmptyString); [congruence|].
    discriminate.
  - apply Forall_forall. intros t Ht. apply in_map_iff in Ht as (l & <- & _).
    apply strip_trimmed.
  - apply Forall_forall. intros t Ht. apply in_map_iff in Ht as (l & <- & Hl).
    apply all_chars_strip.
    apply (split_aux_no_sep Re.newline text EmptyString l Hl). reflexivity.
Qed.

(** Nothing outside ASCII is left in a cleaned text. *)
Lemma clean_text_ascii (text : string) :
  all_chars is_ascii (TextProcessor._clean_text text) = true.
Proof.
  unfold TextProcessor._clean_text. cbv zeta.
  set (cleaned := TextProcessor.sub TextProcessor.non_ascii " " _).
  apply all_chars_join; [reflexivity|].
  apply Forall_forall. intros t Ht. apply in_map_iff in Ht as (l & <- & Hl).
  apply all_chars_strip.
  apply (split_aux_parts is_ascii Re.newline cleaned EmptyString l Hl);
    [reflexivity|].
  unfold cleaned, TextProcessor.sub. apply sub_non_ascii.
Qed.

(** X20.  The cleaned text of a page holds ASCII characters only, and
    none of its lines begins or ends with white space: splitting it at the
    newlines gives lines that stripping leaves as they are. *)
Theorem clean_text_ascii_trimmed (text : string) :
  all_chars is_ascii (TextProcessor._clean_text text) = true /\
  Forall trimmed (PyStr.split Re.newline (TextProcessor._clean_text text)).
Proof.
  split; [apply clean_text_ascii|].
  unfold TextProcessor._clean_text. cbv zeta.
  set (cleaned := TextProcessor.sub TextProcessor.non_ascii " " _).
  destruct (clean_lines cleaned) as (Hne & Htrim & Hnl).
  unfold TextProcessor.nl. rewrite split_join by assumption. exact Htrim.
Qed.

(* ------------------------------------------------------------------ *)
(** ** From the pages of the file to the text of a section *)

Lemma set_page_fresh page_num text result :
  ~ In page_num (map fst result) ->
  set_page page_num text result = (result ++ [(page_num, text)])%list.
Proof.
  induction result as [|[n t] rest IH]; simpl; intros H; [reflexivity|].
  destruct (n =? page_num)%nat eqn:E.
  - apply Nat.eqb_eq in E. exfalso. auto.
  - rewrite IH; [reflexivity|tauto].
Qed.

Lemma process_pages_spec is_scanned pages :
  forall page_num result,
    (forall n, In n (map fst result) -> n < page_num) ->
    process_pages is_scanned page_num pages result
    = (result ++ combine (seq page_num (List.length pages))
                   (map (text_of is_scanned) pages))%list.
Proof.
  induction pages as [|page rest IH]; intros page_num result Hfresh; simpl.
  - now rewrite app_nil_r.
  - rewrite set_page_fresh.
    + rewrite IH.
      * rewrite <- app_assoc. reflexivity.
      * intros n. rewrite map_app, in_app_iff. simpl.
        intros [H|[<-|[]]]; [apply Hfresh in H; lia|lia].
    + intros H. apply Hfresh in H. lia.
Qed.

Lemma process_pdf_spec threshold pdf_document :
  process_pdf threshold pdf_document
  = combine (seq 0 (List.length pdf_document))
      (map (text_of (_is_scanned_pdf threshold (map get_text pdf_document)))
         pdf_document).
Proof.
  unfold process_pdf. cbv zeta. rewrite process_pages_spec; [reflexivity|].
  intros n [].
Qed.

Lemma page_text_in n text extracted_text :
  NoDup (map fst extracted_text) ->
  In (n, text) extracted_text ->
  page_text n extracted_text = text.
Proof.
  induction extracted_text as [|[n0 t0] rest IH]; simpl; intros Hnd Hin;
    [tauto|].
  inversion Hnd as [|? ? Hnotin Hnd']; subst.
  destruct Hin as [H|H].
  - inversion H; subst. now rewrite Nat.eqb_refl.
  - destruct (n0 =? n)%nat eqn:E; [|now apply IH].
    apply Nat.eqb_eq in E. subst n0. exfalso. apply Hnotin.
    apply (in_map fst) in H. exact H.
Qed.

(** The texts of the pages of a section, when the page numbers are
    distinct: those of the pages that carry a marker, in the order of the
    pages. *)
Lemma section_pages_texts section extracted_text :
  NoDup (map fst extracted_text) ->
  map (fun page => page_text page extracted_text)
    (pages_of section extracted_text)
  = filter (carries section) (map snd extracted_text).
Proof.
  intros Hnd. unfold pages_of.
  assert (forall l,
             incl l extracted_text ->
             map (fun page => page_text page extracted_text)
               (map fst (filter (fun page => carries section (snd page)) l))
             = filter (carries section) (map snd l)) as H.
  { induction l as [|[n t] l IH]; intros Hl; [reflexivity|].
    assert (incl l extracted_text) as Hl'
        by (intros x Hx; apply Hl; now right).
    cbn [filter map snd]. destruct (carries section t) eqn:E.
    - cbn [map fst]. rewrite IH by exact Hl'.
      rewrite (page_text_in n t); [reflexivity|exact Hnd|].
      apply Hl. now left.
    - now apply IH. }
  apply H. apply incl_refl.
Qed.

Lemma combine_seq_keys {A : Type} start (l : list A) :
  map fst (combine (seq start (List.length l)) l) = seq start (List.length l).
Proof.
  revert start. induction l as [|x l IH]; intros start; simpl;
    [reflexivity|]. now rewrite IH.
Qed.

Lemma combine_seq_values {A : Type} start (l : list A) :
  map snd (combine (seq start (List.length l)) l) = l.
Proof.
  revert start. induction l as [|x l IH]; intros start; simpl;
    [reflexivity|]. now rewrite IH.
Qed.


(* ------------------------------------------------------------------ *)
(** ** Texts the cleaning leaves alone *)

Lemma newlines_atom total :
  atom_of false total (Re.RChar Re.newline)
    (fun a => Ascii.eqb a Re.newline).
Proof. intros R s cs k. reflexivity. Qed.

Lemma spaces_atom total :
  atom_of false total (Re.RChar " ") (fun a => Ascii.eqb a " ").
Proof. intros R s cs k. reflexivity. Qed.

Lemma spaces_tree :
  Re.tree TextProcessor.spaces = Re.RRepeat 2 None true (Re.RChar " ").
Proof. reflexivity. Qed.

(** A substitution finds nothing to replace in a text without a run long
    enough. *)
Lemma sub_from_no_run ic total r p lo repl text :
  atom_of ic total r p ->
  no_run p lo text = true ->
  TextProcessor.sub_from (Re.Pattern (Re.RRepeat lo None true r) ic) repl
    total 0 text = text.
Proof.
  intros Hatom. induction text as [|c rest IH]; [reflexivity|].
  cbn [no_run]. intros H. apply andb_prop in H as [Hspan Hrest].
  cbn [TextProcessor.sub_from Re.tree Re.ignorecase].
  rewrite (match_at_run ic total r p lo _ Hatom).
  apply Nat.ltb_lt in Hspan.
  assert ((lo <=? span p (String c rest))%nat = false) as ->
      by (apply Nat.leb_gt; exact Hspan).
  now rewrite IH.
Qed.

Lemma join_split_aux sep s :
  forall cur,
    PyStr.join (String sep EmptyString) (PyStr.split_aux sep s cur) = cur ++ s.
Proof.
  unfold PyStr.join. induction s as [|c s IH]; intros cur.
  - simpl. now rewrite append_empty_r.
  - cbn [PyStr.split_aux]. destruct (Ascii.eqb c sep) eqn:E.
    + apply Ascii.eqb_eq in E. subst c.
      specialize (IH EmptyString).
      destruct (PyStr.split_aux sep s EmptyString) as [|x parts] eqn:Es.
      * exfalso. exact (split_aux_nonempty sep s EmptyString Es).
      * rewrite concat_cons2, IH. reflexivity.
    + rewrite IH, append_assoc. reflexivity.
Qed.

(** Joining the lines of a text gives the text back. *)
Lemma join_split sep s :
  PyStr.join (String sep EmptyString) (PyStr.split sep s) = s.
Proof. unfold PyStr.split. now rewrite join_split_aux. Qed.

Lemma map_strip_trimmed lines :
  Forall trimmed lines -> map PyStr.strip lines = lines.
Proof.
  induction 1 as [|l lines Hl _ IH]; [reflexivity|].
  cbn [map]. now rewrite Hl, IH.
Qed.

(** X22.  A text that is already clean is returned as it is: no run of
    three newlines, no run of two spaces, only ASCII characters, and no
    line that begins or ends with white space. *)
Theorem clean_text_fixed (text : string) :
  no_run (fun a => Ascii.eqb a Re.newline) 3 text = true ->
  no_run (fun a => Ascii.eqb a " ") 2 text = true ->
  all_chars is_ascii text = true ->
  Forall trimmed (PyStr.split Re.newline text) ->
  TextProcessor._clean_text text = text.
Proof.
  intros Hnl Hsp Hascii Hlines.
  unfold TextProcessor._clean_text. cbv zeta.
  assert (TextProcessor.sub TextProcessor.newlines
            (TextProcessor.nl ++ TextProcessor.nl) text = text) as ->.
  { unfold TextProcessor.sub, TextProcessor.newlines, Re.NOFLAG.
    apply (sub_from_no_run false _ _ _ 3 _ _ (newlines_atom _) Hnl). }
  assert (TextProcessor.sub TextProcessor.spaces " " text = text) as ->.
  { unfold TextProcessor.sub.
    change TextProcessor.spaces
      with (Re.Pattern (Re.RRepeat 2 None true (Re.RChar " ")) false).
    apply (sub_from_no_run false _ _ _ 2 _ _ (spaces_atom _) Hsp). }
  assert (TextProcessor.sub TextProcessor.non_ascii " " text = text) as ->.
  { unfold TextProcessor.sub, TextProcessor.non_ascii, Re.NOFLAG.
    apply (sub_from_no_run false _ _ beyond_ascii 1 _ _ (non_ascii_atom _)).
    clear Hnl Hsp Hlines.
    induction text as [|c rest IH]; [reflexivity|].
    cbn [all_chars] in Hascii. apply andb_prop in Hascii as [Hc Hrest].
    cbn [no_run span]. rewrite beyond_ascii_spec, Hc. cbn [negb].
    now rewrite IH. }
  rewrite map_strip_trimmed by exact Hlines.
  apply join_split.
Qed.

Lemma clean_text_fixed_witness :
  TextProcessor._clean_text
    ("Donor details" ++ TextProcessor.nl ++ TextProcessor.nl
     ++ "Surname: Smith")
  = "Donor details" ++ TextProcessor.nl ++ TextProcessor.nl
    ++ "Surname: Smith".
Proof.
  apply clean_text_fixed; try reflexivity.
  repeat constructor.
Defined.

(* ------------------------------------------------------------------ *)
(** ** The providers listed and the providers built *)

(** X23.  [get_llm] and the listing of [get_available_providers] agree.
    A provider that is not listed is refused with [ValueError].  For a
    listed provider the listed default model is one of its listed models;
    the call is refused with [ValueError], before any class is called,
    when the listing says a key is required and none is found (neither a
    non-empty [api_key] nor the environment variable the listing names);
    otherwise the outcome is that of the class of the provider, the model
    object or what the class raises, called with the key found, with the
    model asked for, or the listed default model when none is asked for,
    and with the temperature. *)
Theorem get_llm_agrees_with_listing {T : Type} (lc : LangChain T)
    (provider : string) (model_name api_key : option string)
    (temperature : T) (environ : list (string * string)) :
  match Dict.get provider get_available_providers with
  | None =>
      get_llm lc provider model_name api_key temperature environ
      = Raise ValueError
  | Some info =>
      In (default_model info) (models info) /\
      get_llm lc provider model_name api_key temperature environ
      = if requires_api_key info && negb (key_found info api_key environ)
        then Raise ValueError
        else provider_class lc provider (key_for info api_key environ)
               (or_default model_name (default_model info)) temperature
  end.
Proof.
  unfold get_llm, get_available_providers, provider_class. cbn [Dict.get].
  destruct (String.eqb "local" provider) eqn:E1.
  - apply String.eqb_eq in E1. subst provider.
    split; [simpl; auto|reflexivity].
  - rewrite String.eqb_sym in E1. rewrite E1.
    destruct (String.eqb "openai" provider) eqn:E2.
    + apply String.eqb_eq in E2. subst provider.
      split; [simpl; auto|].
      unfold key_found, key_for. cbn [env_var requires_api_key default_model].
      rewrite negb_orb. cbn [String.eqb Ascii.eqb Bool.eqb andb].
      reflexivity.
    + rewrite String.eqb_sym in E2. rewrite E2.
      destruct (String.eqb "google" provider) eqn:E3.
      * apply String.eqb_eq in E3. subst provider.
        split; [simpl; auto|].
        unfold key_found, key_for.
        cbn [env_var requires_api_key default_model].
        rewrite negb_orb. cbn [String.eqb Ascii.eqb Bool.eqb andb].
        reflexivity.
      * rewrite String.eqb_sym in E3. rewrite E3. reflexivity.
Qed.


(* ------------------------------------------------------------------ *)
(** ** The two passes over the non-UK details of a trustee *)

Lemma clean_date_of_birth_frame result r1 :
  clean_date_of_birth result = Return r1 ->
  same_but "date_of_birth" result r1.
Proof.
  unfold clean_date_of_birth. intros H k Hk.
  destruct (negb (truthy (Dict.get_default "date_of_birth" result)));
    [now inversion H|].
  destruct (Dict.get_default "date_of_birth" result) as [| | |dob| |];
    try discriminate H.
  destruct (PyStr.split "/" _) as [|day [|month [|year [|]]]];
    try (now inversion H).
  destruct (PyStr.len year =? 2)%nat.
  - destruct (PyStr.int year) as [n|]; [|discriminate H].
    destruct (50 <=? n)%Z; cbn [bind] in H; inversion H;
      now apply get_set_other.
  - cbn [bind] in H. inversion H. now apply get_set_other.
Qed.

Lemma clean_ni_frame result r1 :
  DonorExtractor._clean_national_insurance_number result = Return r1 ->
  same_but "national_insurance_number" result r1.
Proof.
  unfold DonorExtractor._clean_national_insurance_number. intros H k Hk.
  destruct (negb (truthy _)); [now inversion H|].
  destruct (Dict.get_default _ result); try discriminate H.
  inversion H. now apply get_set_other.
Qed.

Lemma clean_address_frame result r1 :
  clean_address_fields result = Return r1 ->
  forall k, k <> "postcode" -> k <> "permanent_residential_address" ->
            Dict.get k r1 = Dict.get k result.
Proof.
  unfold clean_address_fields. intros H k Hp Ha.
  destruct (truthy (Dict.get_default "postcode" result)).
  - destruct (Dict.get_default "postcode" result) as [| | |p| |];
      try discriminate H.
    cbn [bind] in H.
    destruct (truthy (Dict.get_default "permanent_residential_address" _)).
    + destruct (Dict.get_default "permanent_residential_address" _)
        as [| | |a| |]; try discriminate H.
      destruct (truthy (Dict.get_default "postcode" _)).
      * destruct (Dict.get_default "postcode" _) as [| | |p'| |];
          try discriminate H.
        destruct (PyStr.endswith _ _); cbn [bind] in H; inversion H;
          now rewrite !get_set_other.
      * cbn [bind] in H. inversion H. now rewrite !get_set_other.
    + inversion H. now rewrite get_set_other.
  - cbn [bind] in H.
    destruct (truthy (Dict.get_default "permanent_residential_address" _)).
    + destruct (Dict.get_default "permanent_residential_address" _)
        as [| | |a| |]; try discriminate H.
      destruct (truthy (Dict.get_default "postcode" _)).
      * destruct (Dict.get_default "postcode" _) as [| | |p'| |];
          try discriminate H.
        destruct (PyStr.endswith _ _); cbn [bind] in H; inversion H;
          now rewrite !get_set_other.
      * cbn [bind] in H. inversion H. now rewrite !get_set_other.
    + now inversion H.
Qed.

(** The first pass, made on the answer of the model, when the flag is not
    the boolean [True]: the dependent fields leave the top level and the
    flag stays. *)
Lemma structure_pass_pops (d : dict) :
  NoDup (Dict.keys d) ->
  eq_True (Dict.get_default "solely_uk_citizen" d) = false ->
  exists r,
    LLMExtractor._process_non_uk_details_structure (VDict d)
    = Return (VDict r) /\
    forall k, k <> "not_uk_details" ->
              Dict.get k r
              = if str_in k LLMExtractor.non_uk_fields then None
                else Dict.get k d.
Proof.
  intros Hnd Hflag. unfold LLMExtractor._process_non_uk_details_structure.
  rewrite Hflag.
  destruct (pop_fields LLMExtractor.non_uk_fields d []) as [r nested] eqn:Ep.
  destruct (pop_fields_spec _ d [] r nested Hnd (NoDup_nil _) Ep)
    as (_ & _ & Hget & _ & _).
  destruct (nonempty nested).
  - destruct (Dict.get "not_uk_details" r) as [[| | | | |existing]|];
      (eexists; split; [reflexivity|]; intros k Hk;
       rewrite get_set_other by exact Hk; apply Hget).
  - destruct (negb (truthy (Dict.get_default "not_uk_details" r))).
    + eexists. split; [reflexivity|]. intros k Hk.
      rewrite get_set_other by exact Hk. apply Hget.
    + eexists. split; [reflexivity|]. intros k _. apply Hget.
Qed.

(** X24.  A trustee whose flag solely_uk_citizen the model answers with a
    string that boolean coercion reads as true (yes, true, y, a check
    mark, x, checked, ticked, in any case): when the extractor returns, the
    flag is the boolean [True], not_uk_details is null and none of the nine
    dependent fields is left at the top level.  The first pass moved them
    under not_uk_details, the second pass, run after the coercion,
    replaced that object by null. *)
Theorem trustee_token_flag_drops_details (chain : chain_t) (text : string)
    (d : dict) (s : string) (out : value) :
  chain text = Return (VDict d) ->
  NoDup (Dict.keys d) ->
  Dict.get "solely_uk_citizen" d = Some (VStr s) ->
  str_in (PyStr.lower s) truthy_tokens = true ->
  TrusteeExtractor.extract chain text = Return out ->
  exists r,
    out = VDict r /\
    Dict.get "solely_uk_citizen" r = Some (VBool true) /\
    Dict.get "not_uk_details" r = Some VNone /\
    forall field, In field TrusteeExtractor.non_uk_fields ->
                  Dict.get field r = None.
Proof.
  intros Hchain Hnd Hflag Htoken Hout.
  unfold TrusteeExtractor.extract, LLMExtractor.extract,
    LLMExtractor.run_chain in Hout.
  rewrite Hchain in Hout. cbn [bind] in Hout.
  destruct (structure_pass_pops d Hnd) as (r0 & Hr0 & Hget0).
  { unfold Dict.get_default. now rewrite Hflag. }
  rewrite Hr0 in Hout. cbn [bind as_dict] in Hout.
  destruct (TrusteeExtractor._clean_date_of_birth r0) as [r1|] eqn:E1;
    [|discriminate Hout].
  cbn [bind] in Hout.
  destruct (TrusteeExtractor._clean_national_insurance_number r1)
    as [r2|] eqn:E2; [|discriminate Hout].
  cbn [bind] in Hout.
  destruct (TrusteeExtractor._clean_address_fields r2) as [r3|] eqn:E3;
    [|discriminate Hout].
  cbn [bind] in Hout. inversion Hout; subst out. clear Hout.
  apply clean_date_of_birth_frame in E1.
  apply clean_ni_frame in E2.
  pose proof (clean_address_frame _ _ E3) as F3. clear E3.
  assert (forall k,
             k <> "date_of_birth" -> k <> "national_insurance_number" ->
             k <> "postcode" -> k <> "permanent_residential_address" ->
             k <> "not_uk_details" ->
             Dict.get k r3
             = if str_in k LLMExtractor.non_uk_fields then None
               else Dict.get k d) as Hget3.
  { intros k H1 H2 H3 H4 H5.
    now rewrite F3, E2, E1, Hget0 by assumption. }
  set (r4 := TrusteeExtractor._clean_boolean_fields r3).
  assert (Dict.get "solely_uk_citizen" r4 = Some (VBool true)) as Hflag4.
  { unfold r4, TrusteeExtractor._clean_boolean_fields.
    rewrite (clean_booleans_field _ _ "solely_uk_citizen" s).
    - now rewrite Htoken.
    - repeat constructor; simpl; intuition discriminate.
    - simpl. auto.
    - rewrite Hget3 by discriminate. exact Hflag. }
  eexists. split; [reflexivity|].
  rewrite trustee_flag_true
    by (unfold Dict.get_default; now rewrite Hflag4).
  split; [now rewrite get_set_other by discriminate|].
  split; [apply get_set_same|].
  intros field Hin.
  assert (field <> "not_uk_details") as Hne
      by (intros ->; simpl in Hin; intuition discriminate).
  rewrite get_set_other by exact Hne.
  unfold r4, TrusteeExtractor._clean_boolean_fields.
  rewrite clean_booleans_other
    by (intros Hb; simpl in Hin, Hb; intuition (subst; discriminate)).
  rewrite Hget3;
    try (intros ->; simpl in Hin; intuition discriminate).
  apply str_in_In in Hin.
  change TrusteeExtractor.non_uk_fields with LLMExtractor.non_uk_fields in Hin.
  now rewrite Hin.
Qed.

Lemma trustee_token_flag_drops_details_witness :
  exists r,
    VDict [("surname", VStr "Smith"); ("solely_uk_citizen", VBool true);
           ("not_uk_details", VNone)] = VDict r /\
    Dict.get "solely_uk_citizen" r = Some (VBool true) /\
    Dict.get "not_uk_details" r = Some VNone /\
    forall field, In field TrusteeExtractor.non_uk_fields ->
                  Dict.get field r = None.
Proof.
  apply (trustee_token_flag_drops_details
           (fun _ => Return (VDict [("surname", VStr "Smith");
                                    ("solely_uk_citizen", VStr "Yes");
                                    ("nationality", VStr "French")]))
           "any text"
           [("surname", VStr "Smith"); ("solely_uk_citizen", VStr "Yes");
            ("nationality", VStr "French")]
           "Yes").
  - reflexivity.
  - repeat constructor; simpl; intuition discriminate.
  - reflexivity.
  - reflexivity.
  - reflexivity.
Defined.

(* ------------------------------------------------------------------ *)
(** ** The entities of the pattern strategy and the schemas *)

Lemma is_return_exists {A : Type} (m : Result A) :
  is_return m = true -> exists x, m = Return x.
Proof. destruct m; [eauto|discriminate]. Qed.

Lemma well_typed_str v : str_or_none v -> well_typed TStr v.
Proof. destruct v; simpl; intros H; try tauto; eexists; reflexivity. Qed.

Lemma well_typed_bool v : bool_or_none v -> well_typed TBool v.
Proof. destruct v; simpl; intros H; try tauto; eexists; reflexivity. Qed.

Lemma validate_fields_conforms sc r :
  conforms sc r -> exists out, validate_fields r sc = Return out.
Proof.
  induction sc as [|[name ft] sc IH]; intros H; simpl; [eauto|].
  destruct (H name ft (or_introl eq_refl)) as [x ->].
  destruct IH as [xs ->].
  - intros n t Hin. apply H. now right.
  - cbn [bind]. eauto.
Qed.

Lemma well_typed_model sc r : conforms sc r -> well_typed (TModel sc) (VDict r).
Proof.
  intros H. destruct (validate_fields_conforms sc r H) as [out Hout].
  exists (VDict out). rewrite validate_model_fields, Hout. reflexivity.
Qed.

Lemma well_typed_list elem l :
  Forall (fun x => x <> VNone /\ well_typed elem x) l ->
  well_typed (TList elem) (VList l).
Proof.
  intros H. unfold well_typed. cbn [validate_value].
  assert (exists l',
             (fix items (l : list value) : Result (list value) :=
                match l with
                | [] => Return []
                | x :: rest =>
                    x <- required x ;;
                    y <- validate_value elem x ;;
                    ys <- items rest ;;
                    Return (y :: ys)
                end) l = Return l') as [l' ->].
  { induction H as [|x l [Hx [y Hy]] _ [ys IH]]; [eauto|].
    assert (required x = Return x) as ->
      by (destruct x; [congruence|reflexivity..]).
    cbn [bind]. rewrite Hy. cbn [bind]. rewrite IH. cbn [bind]. eauto. }
  cbn [bind]. eauto.
Qed.

(** A dictionary with distinct keys is the list of its keys with their
    values. *)
Lemma dict_by_keys (d : dict) :
  NoDup (Dict.keys d) ->
  d = map (fun k => (k, Dict.get_default k d)) (Dict.keys d).
Proof.
  induction d as [|[k v] d IH]; intros Hnd; [reflexivity|].
  inversion Hnd as [|? ? Hnotin Hnd']; subst.
  cbn [Dict.keys map fst]. unfold Dict.get_default at 1. simpl Dict.get.
  rewrite String.eqb_refl. f_equal.
  rewrite (IH Hnd') at 1. apply map_ext_in.
  intros k' Hk'. unfold Dict.get_default. simpl.
  destruct (String.eqb k k') eqn:E; [|reflexivity].
  apply String.eqb_eq in E. subst k'. contradiction.
Qed.

Lemma regex_text_fields section text d names :
  RegexExtractor_extract section text = Return d ->
  text_fields section names = true ->
  forall field, In field names -> holds_str field d.
Proof.
  intros Hd Hall field Hin. unfold text_fields in Hall.
  rewrite forallb_forall in Hall. specialize (Hall field Hin).
  apply andb_prop in Hall as [Hall Hdef].
  apply andb_prop in Hall as [Hmem Htext].
  apply (regex_holds_str section text d field Hd Hmem Htext).
  destruct (default_value field) as [| | |[|]| |]; try discriminate Hdef.
  reflexivity.
Qed.

Lemma regex_flag_fields section text d names :
  RegexExtractor_extract section text = Return d ->
  flag_fields section names = true ->
  forall field, In field names ->
    Dict.get field d = Some (VBool true) \/
    Dict.get field d = Some (default_value field).
Proof.
  intros Hd Hall field Hin. unfold flag_fields in Hall.
  rewrite forallb_forall in Hall. specialize (Hall field Hin).
  apply andb_prop in Hall as [Hmem Hflag].
  destruct (RegexExtractor_extract_spec section text)
    as (d' & Hd' & _ & _ & Hfields).
  rewrite Hd in Hd'. inversion Hd'; subst d'. clear Hd'.
  specialize (Hfields field _ (patterns_of_in section field Hmem)).
  destruct (first_match text (patterns_of section field)) as [[t m]|] eqn:Efm;
    [|now right].
  left. destruct Hfields as (v & Hv & Hget).
  apply first_match_in in Efm as [Hin' Hsearch].
  unfold presence_field in Hflag. rewrite forallb_forall in Hflag.
  specialize (Hflag t Hin'). apply Nat.eqb_eq in Hflag.
  assert (tuple_ok t = true) as Hok.
  { pose proof (tables_ok section) as Hall. unfold table_ok in Hall.
    rewrite forallb_forall in Hall.
    specialize (Hall _ (patterns_of_in section field Hmem)).
    simpl in Hall. rewrite forallb_forall in Hall. auto. }
  destruct (matched_value_ok t text m Hok Hsearch) as (v' & Hv' & _ & Hgroup).
  rewrite Hv in Hv'. inversion Hv'; subst v'.
  now rewrite Hget, (Hgroup Hflag).
Qed.

Lemma keys_cons (d : dict) k ks :
  Dict.keys d = k :: ks ->
  exists v d', d = (k, v) :: d' /\ Dict.keys d' = ks.
Proof.
  destruct d as [|[k' v] d']; simpl; intros H; [discriminate|].
  inversion H; subst. eauto.
Qed.

Lemma keys_nil (d : dict) : Dict.keys d = [] -> d = [].
Proof. destruct d; [reflexivity|discriminate]. Qed.


Lemma set_get_same {A : Type} k (v : A) d :
  Dict.get k d = Some v -> Dict.set k v d = d.
Proof.
  induction d as [|[k' v'] d IH]; simpl; [discriminate|].
  destruct (String.eqb k' k) eqn:E.
  - apply String.eqb_eq in E. subst k'. intros H. now inversion H.
  - intros H. now rewrite IH.
Qed.

(** What the transforms make of the strings of the pattern strategy: the
    entry is a string again. *)
Lemma clean_date_of_birth_shape result s :
  Dict.get "date_of_birth" result = Some (VStr s) ->
  s = EmptyString \/ date_text s ->
  exists s', clean_date_of_birth result
             = Return (Dict.set "date_of_birth" (VStr s') result).
Proof.
  intros Hget Hs. unfold clean_date_of_birth, Dict.get_default.
  rewrite Hget.
  destruct Hs as [->|(day & s1 & month & s2 & year & -> & [Hd _] & [Hm _]
                      & [Hy Hyl] & H1 & H2)].
  - exists EmptyString. now rewrite set_get_same.
  - assert (truthy (VStr (day ++ String s1 (month ++ String s2 year))) = true)
      as ->.
    { simpl. destruct day; reflexivity. }
    cbn [negb].
    rewrite sub_app, sub_sep, sub_app, sub_sep by assumption.
    rewrite !sub_dash_dot_fixed by now apply digits_not_dash_or_dot.
    rewrite split_join3 by now apply digits_not_slash.
    destruct (PyStr.len year =? 2)%nat; [|cbn [bind]; eauto].
    destruct (int_of_digits year Hy) as [n ->].
    + intros ->. simpl in Hyl. lia.
    + destruct (50 <=? n)%Z; cbn [bind]; eauto.
Qed.

Lemma clean_ni_shape result s :
  Dict.get "national_insurance_number" result = Some (VStr s) ->
  exists s', DonorExtractor._clean_national_insurance_number result
             = Return (Dict.set "national_insurance_number" (VStr s') result).
Proof.
  intros Hs. unfold DonorExtractor._clean_national_insurance_number,
    Dict.get_default. rewrite Hs.
  destruct (negb (truthy (VStr s))); [|eauto].
  exists s. now rewrite set_get_same.
Qed.

Lemma clean_address_shape result p a :
  Dict.get "postcode" result = Some (VStr p) ->
  Dict.get "permanent_residential_address" result = Some (VStr a) ->
  exists p' a',
    clean_address_fields result
    = Return (Dict.set "permanent_residential_address" (VStr a')
                (Dict.set "postcode" (VStr p') result)).
Proof.
  intros Hp Ha.
  assert (forall p' r1,
             r1 = Dict.set "postcode" (VStr p') result ->
             exists a',
               (let address :=
                  Dict.get_default "permanent_residential_address" r1 in
                if truthy address then
                  match address with
                  | VStr address =>
                      let address := PyStr.strip address in
                      let postcode := Dict.get_default "postcode" r1 in
                      address <-
                        (if truthy postcode then
                           match postcode with
                           | VStr postcode =>
                               if PyStr.endswith address postcode
                               then Return (PyStr.strip
                                              (PyStr.drop_last
                                                 (String.length postcode)
                                                 address))
                               else Return address
                           | _ => Raise TypeError
                           end
                         else Return address) ;;
                      Return (Dict.set "permanent_residential_address"
                                (VStr address) r1)
                  | _ => Raise AttributeError
                  end
                else Return r1)
               = Return (Dict.set "permanent_residential_address" (VStr a') r1))
    as Hsecond.
  { intros p' r1 ->. cbv zeta. unfold Dict.get_default.
    rewrite get_set_other, Ha, get_set_same by discriminate.
    destruct (truthy (VStr a)).
    - destruct (truthy (VStr p')); [|cbn [bind]; eauto].
      destruct (PyStr.endswith (PyStr.strip a) p'); cbn [bind]; eauto.
    - exists a.
      rewrite (set_get_same "permanent_residential_address");
        [reflexivity|].
      now rewrite get_set_other by discriminate. }
  unfold clean_address_fields. unfold Dict.get_default at 1 2. rewrite Hp.
  destruct (truthy (VStr p)).
  - cbn [bind]. exists (PyStr.upper (PyStr.strip p)).
    apply (Hsecond _ _ eq_refl).
  - cbn [bind]. exists p.
    destruct (Hsecond p result) as [a' Ha'];
      [now rewrite set_get_same|].
    exists a'. rewrite (set_get_same "postcode") by exact Hp. exact Ha'.
Qed.

Lemma clean_bank_shape result a c :
  Dict.get "account_number" result = Some (VStr a) ->
  Dict.get "sort_code" result = Some (VStr c) ->
  exists a' c',
    NominatedBankAccountExtractor._clean_account_number result
    = Return (Dict.set "account_number" (VStr a') result) /\
    NominatedBankAccountExtractor._clean_sort_code
      (Dict.set "account_number" (VStr a') result)
    = Return (Dict.set "sort_code" (VStr c')
                (Dict.set "account_number" (VStr a') result)).
Proof.
  intros Ha Hc.
  assert (forall r1, Dict.get "sort_code" r1 = Some (VStr c) ->
            exists c', NominatedBankAccountExtractor._clean_sort_code r1
                       = Return (Dict.set "sort_code" (VStr c') r1))
    as Hsort.
  { intros r1 H1.
    unfold NominatedBankAccountExtractor._clean_sort_code, Dict.get_default.
    rewrite H1. destruct (negb (truthy (VStr c))).
    - exists c. now rewrite set_get_same.
    - destruct (String.length _ =? 6)%nat; eauto. }
  unfold NominatedBankAccountExtractor._clean_account_number,
    Dict.get_default.
  rewrite Ha. destruct (negb (truthy (VStr a))).
  - exists a. rewrite (set_get_same "account_number") by exact Ha.
    destruct (Hsort result Hc) as [c' Hc']. eauto.
  - exists (Re.sub NominatedBankAccountExtractor.non_digit EmptyString a).
    destruct (Hsort (Dict.set "account_number"
                       (VStr (Re.sub NominatedBankAccountExtractor.non_digit
                                EmptyString a)) result))
      as [c' Hc'];
      [rewrite get_set_other by discriminate; exact Hc|].
    exists c'. split; [reflexivity|exact Hc'].
Qed.

Lemma infer_deceased_shape result text b :
  Dict.get "deceased" result = Some (VBool b) ->
  exists b', DonorExtractor._infer_deceased_status result text
             = Dict.set "deceased" (VBool b') result.
Proof.
  intros Hb. unfold DonorExtractor._infer_deceased_status.
  assert (Dict.mem "deceased" result = true) as ->
      by (unfold Dict.mem; now rewrite Hb).
  cbn [negb].
  destruct (existsb _ DonorExtractor.deceased_indicators).
  - destruct (existsb _ DonorExtractor.deceased_indicators).
    + exists true. apply set_set_same.
    + now exists true.
  - destruct (existsb _ DonorExtractor.deceased_indicators).
    + now exists true.
    + exists b. now rewrite set_get_same.
Qed.

(** Brings a dictionary whose keys are known to the list of its entries. *)
Ltac explode_dict d Hkeys :=
  repeat (let v := fresh "v" in
          let d' := fresh "d" in
          let E := fresh "E" in
          apply keys_cons in Hkeys as (v & d' & E & Hkeys);
          subst d; rename d' into d);
  apply keys_nil in Hkeys; subst d.

Ltac field_str Hstr name :=
  let s := fresh "s" in
  let H := fresh "H" in
  let Hin := fresh "Hin" in
  match type of Hstr with
  | forall field, In field ?names -> _ =>
      assert (Hin : str_in name names = true) by (vm_compute; reflexivity);
      pose proof (Hstr name (proj1 (str_in_In name names) Hin)) as [s H];
      clear Hin
  end;
  vm_compute in H; injection H as H;
  match type of H with ?v = _ => subst v end.

Ltac after_step H tac :=
  match type of H with _ = Return ?r => tac r end.

Ltac regex_entries section text d Hd Hkeys :=
  destruct (RegexExtractor_extract_spec section text)
    as (d & Hd & Hkeys & _);
  let ks := fresh "ks" in
  set (ks := map fst (_configure_patterns section)) in Hkeys;
  vm_compute in ks; subst ks.

Ltac flag_cases Hflag :=
  vm_compute in Hflag; destruct Hflag as [Hflag|Hflag];
  injection Hflag as ->.

Lemma trust_fallback_conforms chain text e :
  chain text = Raise e ->
  exists r,
    TrustExtractor.extract chain text = Return (VDict r) /\
    is_return (validate TRUST_REGISTRATION r) = true.
Proof.
  intros He. unfold TrustExtractor.extract.
  rewrite (extract_fallback _ _ _ e He).
  regex_entries TRUST_REGISTRATION text d Hd Hkeys.
  pose proof (regex_text_fields TRUST_REGISTRATION text d
                ["HMRC_unique_reference_number"]
                Hd ltac:(vm_compute; reflexivity)) as Hstr.
  pose proof (regex_flag_fields TRUST_REGISTRATION text d
                ["proof_of_registration_attached"] Hd
                ltac:(vm_compute; reflexivity)
                "proof_of_registration_attached"
                ltac:(simpl; tauto)) as Hflag.
  rewrite Hd. clear Hd. explode_dict d Hkeys.
  field_str Hstr "HMRC_unique_reference_number". clear Hstr.
  cbn [bind]. eexists. split; [reflexivity|].
  flag_cases Hflag; vm_compute; reflexivity.
Qed.

Lemma donor_fallback_conforms chain text e :
  chain text = Raise e ->
  exists r,
    DonorExtractor.extract chain text = Return (VDict r) /\
    is_return (validate DONOR_DETAILS r) = true.
Proof.
  intros He. unfold DonorExtractor.extract.
  rewrite (extract_fallback _ _ _ e He).
  regex_entries DONOR_DETAILS text d Hd Hkeys.
  pose proof (regex_text_fields DONOR_DETAILS text d
                ["title"; "surname"; "forenames"; "national_insurance_number";
                 "permanent_residential_address"; "postcode";
                 "country_of_residence"; "country_of_nationality"]
                Hd ltac:(vm_compute; reflexivity)) as Hstr.
  destruct (regex_date_field DONOR_DETAILS text d "date_of_birth" Hd
              ltac:(vm_compute; reflexivity) ltac:(vm_compute; reflexivity)
              ltac:(vm_compute; reflexivity))
    as (dob & Hdob & Hdate).
  pose proof (regex_flag_fields DONOR_DETAILS text d ["deceased"] Hd
                ltac:(vm_compute; reflexivity) "deceased"
                ltac:(simpl; tauto)) as Hflag.
  rewrite Hd. clear Hd. cbn [bind as_dict].
  unfold DonorExtractor._clean_date_of_birth,
    DonorExtractor._clean_address_fields.
  explode_dict d Hkeys.
  vm_compute in Hdob. injection Hdob as Hdob. subst.
  field_str Hstr "title". field_str Hstr "surname".
  field_str Hstr "forenames". field_str Hstr "national_insurance_number".
  field_str Hstr "permanent_residential_address". field_str Hstr "postcode".
  field_str Hstr "country_of_residence".
  field_str Hstr "country_of_nationality". clear Hstr.
  assert (exists b, v8 = VBool b) as [b ->]
      by (flag_cases Hflag; eauto).
  match goal with |- context [clean_date_of_birth ?r] =>
    destruct (clean_date_of_birth_shape r dob eq_refl Hdate) as [dob' ->]
  end.
  simpl (Dict.set _ _ _). cbn [bind].
  match goal with
  | |- context [DonorExtractor._clean_national_insurance_number ?r] =>
      destruct (clean_ni_shape r _ eq_refl) as [ni' ->]
  end.
  simpl (Dict.set _ _ _). cbn [bind].
  match goal with |- context [clean_address_fields ?r] =>
    destruct (clean_address_shape r _ _ eq_refl eq_refl) as (p' & a' & ->)
  end.
  simpl (Dict.set _ _ _). cbn [bind].
  match goal with
  | |- context [DonorExtractor._infer_deceased_status ?r _] =>
      destruct (infer_deceased_shape r text b eq_refl) as [b' ->]
  end.
  eexists. split; [reflexivity|]. vm_compute. reflexivity.
Qed.

Lemma bank_fallback_conforms chain text e :
  chain text = Raise e ->
  exists r,
    NominatedBankAccountExtractor.extract chain text = Return (VDict r) /\
    is_return (validate NOMINATED_BANK_ACCOUNT r) = true.
Proof.
  intros He. unfold NominatedBankAccountExtractor.extract.
  rewrite (extract_fallback _ _ _ e He).
  regex_entries NOMINATED_BANK_ACCOUNT text d Hd Hkeys.
  pose proof (regex_text_fields NOMINATED_BANK_ACCOUNT text d
                ["account_holder_name"; "account_number"; "sort_code"]
                Hd ltac:(vm_compute; reflexivity)) as Hstr.
  rewrite Hd. clear Hd. cbn [bind as_dict].
  explode_dict d Hkeys.
  field_str Hstr "account_holder_name". field_str Hstr "account_number".
  field_str Hstr "sort_code". clear Hstr.
  match goal with
  | |- context [NominatedBankAccountExtractor._clean_account_number ?r] =>
      destruct (clean_bank_shape r _ _ eq_refl eq_refl)
        as (a' & c' & -> & H2)
  end.
  cbn [bind]. rewrite H2. cbn [bind].
  eexists. split; [reflexivity|]. vm_compute. reflexivity.
Qed.

Lemma security_fallback_conforms chain text e :
  chain text = Raise e ->
  exists r,
    SecurityInformationExtractor.extract chain text = Return (VDict r) /\
    is_return (validate SECURITY_INFORMATION r) = true.
Proof.
  intros He. unfold SecurityInformationExtractor.extract.
  rewrite (extract_fallback _ _ _ e He).
  regex_entries SECURITY_INFORMATION text d Hd Hkeys.
  pose proof (regex_text_fields SECURITY_INFORMATION text d
                ["username"; "mother_maiden_name"; "first_school_name"]
                Hd ltac:(vm_compute; reflexivity)) as Hstr.
  rewrite Hd. clear Hd. cbn [bind as_dict].
  explode_dict d Hkeys.
  field_str Hstr "username". field_str Hstr "mother_maiden_name".
  field_str Hstr "first_school_name". clear Hstr.
  eexists. split; [reflexivity|]. vm_compute. reflexivity.
Qed.

Lemma trustee_fallback_conforms chain text e :
  chain text = Raise e ->
  exists r,
    TrusteeExtractor.extract chain text = Return (VDict r) /\
    is_return (validate TRUSTEE_DETAILS r) = true.
Proof.
  intros He. unfold TrusteeExtractor.extract.
  rewrite (extract_fallback _ _ _ e He).
  regex_entries TRUSTEE_DETAILS text d Hd Hkeys.
  pose proof (regex_text_fields TRUSTEE_DETAILS text d
                ["title"; "surname"; "forenames"; "national_insurance_number";
                 "permanent_residential_address"; "postcode"; "country";
                 "telephone_number"; "email_address";
                 "existing_account_number"; "country_of_birth"; "nationality";
                 "id_number"; "type_of_number"; "passport_number";
                 "primary_residence"; "secondary_residence";
                 "primary_citizenship"; "secondary_citizenship"]
                Hd ltac:(vm_compute; reflexivity)) as Hstr.
  destruct (regex_date_field TRUSTEE_DETAILS text d "date_of_birth" Hd
              ltac:(vm_compute; reflexivity) ltac:(vm_compute; reflexivity)
              ltac:(vm_compute; reflexivity))
    as (dob & Hdob & Hdate).
  pose proof (regex_flag_fields TRUSTEE_DETAILS text d
                ["existing_aj_bell_account"; "born_in_uk"; "solely_uk_citizen"]
                Hd ltac:(vm_compute; reflexivity)) as Hflags.
  pose proof (Hflags "existing_aj_bell_account" ltac:(simpl; tauto)) as Hf1.
  pose proof (Hflags "born_in_uk" ltac:(simpl; tauto)) as Hf2.
  pose proof (Hflags "solely_uk_citizen" ltac:(simpl; tauto)) as Hf3.
  clear Hflags.
  rewrite Hd. clear Hd. cbn [bind as_dict].
  unfold TrusteeExtractor._clean_date_of_birth,
    TrusteeExtractor._clean_national_insurance_number,
    TrusteeExtractor._clean_address_fields.
  explode_dict d Hkeys.
  vm_compute in Hdob. injection Hdob as Hdob. subst.
  field_str Hstr "title". field_str Hstr "surname".
  field_str Hstr "forenames". field_str Hstr "national_insurance_number".
  field_str Hstr "permanent_residential_address". field_str Hstr "postcode".
  field_str Hstr "country". field_str Hstr "telephone_number".
  field_str Hstr "email_address". field_str Hstr "existing_account_number".
  field_str Hstr "country_of_birth". field_str Hstr "nationality".
  field_str Hstr "id_number". field_str Hstr "type_of_number".
  field_str Hstr "passport_number". field_str Hstr "primary_residence".
  field_str Hstr "secondary_residence". field_str Hstr "primary_citizenship".
  field_str Hstr "secondary_citizenship". clear Hstr.
  match goal with |- context [clean_date_of_birth ?r] =>
    destruct (clean_date_of_birth_shape r dob eq_refl Hdate) as [dob' ->]
  end.
  simpl (Dict.set _ _ _). cbn [bind].
  match goal with
  | |- context [DonorExtractor._clean_national_insurance_number ?r] =>
      destruct (clean_ni_shape r _ eq_refl) as [ni' ->]
  end.
  simpl (Dict.set _ _ _). cbn [bind].
  match goal with |- context [clean_address_fields ?r] =>
    destruct (clean_address_shape r _ _ eq_refl eq_refl) as (p' & a' & ->)
  end.
  simpl (Dict.set _ _ _). cbn [bind].
  eexists. split; [reflexivity|].
  flag_cases Hf1; flag_cases Hf2; flag_cases Hf3; vm_compute; reflexivity.
Qed.


(** What the collecting loop stores under a field comes from the flat
    entries that carry that field. *)
Lemma collect_fields_inv f (P : value -> Prop) keys :
  P VNone ->
  forall result trustee_fields result' trustee_fields',
    DataPrivacyStatementExtractor.collect_trustee_fields keys result
      trustee_fields = Return (result', trustee_fields') ->
    (forall k v, In (k, v) result -> field_of_key k = Some f -> P v) ->
    fields_ok f P trustee_fields ->
    fields_ok f P trustee_fields'.
Proof.
  intros Hnone. induction keys as [|key keys IH];
    intros result tf result' tf' H Hres Htf;
    cbn [DataPrivacyStatementExtractor.collect_trustee_fields] in H.
  - inversion H; subst. exact Htf.
  - destruct (Re.match_ DataPrivacyStatementExtractor.trustee_key key)
      as [m|] eqn:Em; [|now apply (IH result tf result' tf')].
    destruct (trustee_key_groups key m Em) as (num & name & Hnum & Hname).
    rewrite Hnum, Hname in H.
    set (tf1 := if negb (Dict.mem num tf) then Dict.set num [] tf else tf)
      in H.
    assert (fields_ok f P tf1) as Htf1.
    { unfold tf1. destruct (negb (Dict.mem num tf)); [|exact Htf].
      intros num'. rewrite fields_of_set.
      destruct (String.eqb num' num); [exact Hnone|apply Htf]. }
    eapply IH; [exact H| |].
    + intros k v Hin. apply Hres. now apply in_remove in Hin.
    + destruct (_ || _); [|exact Htf1].
      intros num'. rewrite fields_of_set.
      destruct (String.eqb num' num); [|apply Htf1].
      rewrite get_default_set.
      destruct (String.eqb f name) eqn:E; [|apply Htf1].
      apply String.eqb_eq in E. subst name.
      unfold Dict.get_default.
      destruct (Dict.get key result) as [v|] eqn:Ev; [|exact Hnone].
      apply (Hres key v); [now apply get_in|].
      unfold field_of_key. now rewrite Em.
Qed.

Lemma str_or_none_falsy v : str_or_none v -> str_or_falsy v.
Proof. destruct v; simpl; tauto. Qed.

Lemma written_date_str v : written_date v -> str_or_none v.
Proof. intros (dd & mm & yyyy & -> & _). exact I. Qed.

(** The entries the appending loop builds fit the schema of a signature. *)
Lemma append_signatures_typed nums trustee_fields :
  fields_ok "name" str_or_none trustee_fields ->
  fields_ok "date" str_or_none trustee_fields ->
  forall result l,
    Dict.get "trustee_signatures" result = Some (VList l) ->
    Forall (fun x => x <> VNone /\ well_typed (TModel TrusteeSignature) x) l ->
    exists result' l',
      DataPrivacyStatementExtractor.append_signatures nums trustee_fields
        result = Return result' /\
      Dict.get "trustee_signatures" result' = Some (VList l') /\
      Forall (fun x => x <> VNone /\ well_typed (TModel TrusteeSignature) x)
        l' /\
      forall k, k <> "trustee_signatures" ->
                Dict.get k result' = Dict.get k result.
Proof.
  intros Hname Hdate. induction nums as [|num nums IH]; intros result l Hl Hty;
    cbn [DataPrivacyStatementExtractor.append_signatures].
  - exists result, l. auto.
  - destruct (_ || _); [|now apply (IH result l)].
    destruct (clean_signature_date_returns _ (str_or_none_falsy _ (Hdate num)))
      as (date & -> & Hcase).
    cbn [bind]. rewrite Hl.
    destruct (IH (Dict.set "trustee_signatures"
                    (VList (l ++ [VDict
                      [("name",
                        Dict.get_default "name"
                          (DataPrivacyStatementExtractor.fields_of num
                             trustee_fields));
                       ("date", date);
                       ("signature",
                        if truthy
                             (Dict.get_default "signature"
                                (DataPrivacyStatementExtractor.fields_of num
                                   trustee_fields))
                        then VStr "Present" else VNone)]])%list) result)
                (l ++ [VDict
                      [("name",
                        Dict.get_default "name"
                          (DataPrivacyStatementExtractor.fields_of num
                             trustee_fields));
                       ("date", date);
                       ("signature",
                        if truthy
                             (Dict.get_default "signature"
                                (DataPrivacyStatementExtractor.fields_of num
                                   trustee_fields))
                        then VStr "Present" else VNone)]])%list)
      as (result' & l' & Hret & Hl' & Hty' & Hother).
    + apply get_set_same.
    + apply Forall_app. split; [exact Hty|]. constructor; [|constructor].
      split; [discriminate|].
      apply well_typed_model. intros name ft Hin.
      assert (str_or_none date) as Hd.
      { destruct Hcase as [->|Hw]; [apply Hdate|now apply written_date_str]. }
      simpl in Hin. destruct Hin as [H|[H|[H|[]]]]; inversion H; subst;
        apply well_typed_str.
      * apply Hname.
      * exact Hd.
      * unfold Dict.get_default. simpl. now destruct (truthy _).
    + exists result', l'. split; [exact Hret|]. split; [exact Hl'|].
      split; [exact Hty'|]. intros k Hk.
      now rewrite Hother, get_set_other by exact Hk.
Qed.

Lemma privacy_fallback_conforms chain text e :
  chain text = Raise e ->
  exists r,
    DataPrivacyStatementExtractor.extract chain text = Return (VDict r) /\
    is_return (validate DATA_PRIVACY_STATEMENT r) = true.
Proof.
  intros He. unfold DataPrivacyStatementExtractor.extract.
  rewrite (extract_fallback _ _ _ e He).
  regex_entries DATA_PRIVACY_STATEMENT text d Hd Hkeys.
  pose proof (regex_text_fields DATA_PRIVACY_STATEMENT text d
                ["trustee1_name"; "trustee1_date"; "trustee2_name";
                 "trustee2_date"]
                Hd ltac:(vm_compute; reflexivity)) as Hstr.
  pose proof (regex_flag_fields DATA_PRIVACY_STATEMENT text d
                ["identity_verification_consent";
                 "fraud_prevention_checks_consent";
                 "communication_preference_consent"]
                Hd ltac:(vm_compute; reflexivity)) as Hflags.
  pose proof (Hflags "identity_verification_consent" ltac:(simpl; tauto))
    as Hf1.
  pose proof (Hflags "fraud_prevention_checks_consent" ltac:(simpl; tauto))
    as Hf2.
  pose proof (Hflags "communication_preference_consent" ltac:(simpl; tauto))
    as Hf3.
  clear Hflags.
  rewrite Hd. clear Hd. cbn [bind as_dict].
  explode_dict d Hkeys.
  field_str Hstr "trustee1_name". field_str Hstr "trustee1_date".
  field_str Hstr "trustee2_name". field_str Hstr "trustee2_date". clear Hstr.
  unfold DataPrivacyStatementExtractor._process_trustee_signatures_from_flat_structure.
  match goal with
  | |- context [DataPrivacyStatementExtractor.collect_trustee_fields
                  (Dict.keys ?r0) ?r0 []] =>
      set (result0 := r0)
  end.
  vm_compute in result0.
  assert (forall f, f = "name" \/ f = "date" ->
            forall k v, In (k, v) result0 -> field_of_key k = Some f ->
                        str_or_none v) as Hentries.
  { intros f Hf key val Hin Hk. unfold result0 in Hin.
    repeat (destruct Hin as [Hin|Hin];
            [injection Hin as <- <-;
             first [exact I
                   | vm_compute in Hk; destruct Hf as [-> | ->];
                     discriminate Hk]|]).
    destruct Hin. }
  destruct (collect_trustee_fields_returns (Dict.keys result0) result0 [])
    as (result1 & tf & Hcollect & _ & Hget1).
  { intros key val Hin Hk. apply str_or_none_falsy.
    apply (Hentries "date" (or_intror eq_refl) key val Hin).
    unfold is_date_key in Hk. destruct (field_of_key key) as [f|];
      [|discriminate Hk].
    apply String.eqb_eq in Hk. now subst f. }
  { intros num. reflexivity. }
  pose proof (collect_fields_inv "name" str_or_none _ I _ _ _ _ Hcollect
                (Hentries "name" (or_introl eq_refl))
                (fun _ => I)) as Hnames.
  pose proof (collect_fields_inv "date" str_or_none _ I _ _ _ _ Hcollect
                (Hentries "date" (or_intror eq_refl))
                (fun _ => I)) as Hdates.
  rewrite Hcollect. cbn [bind].
  destruct (append_signatures_typed
              (PyStr.sorted (Dict.keys tf)) tf Hnames Hdates result1 [])
    as (result2 & l' & -> & Hl' & Hty & Hother).
  { rewrite Hget1 by reflexivity. reflexivity. }
  { constructor. }
  cbn [bind]. eexists. split; [reflexivity|].
  unfold validate.
  destruct (init_total DATA_PRIVACY_STATEMENT) as [sc Hsc].
  vm_compute in Hsc. injection Hsc as <-.
  change (BaseExtractor_init DATA_PRIVACY_STATEMENT)
    with (Return DataPrivacyStatement). cbn [bind].
  assert (forall k, In k DataPrivacyStatementExtractor.boolean_fields ->
            bool_or_none
              (Dict.get_default k
                 (DataPrivacyStatementExtractor._clean_boolean_fields result2)))
    as Hbool.
  { intros k Hk. unfold Dict.get_default,
      DataPrivacyStatementExtractor._clean_boolean_fields.
    rewrite clean_booleans_get
      by (repeat constructor; simpl; intuition discriminate).
    assert (k <> "trustee_signatures") as Hne
        by (intros ->; simpl in Hk; intuition discriminate).
    rewrite Hother by exact Hne.
    assert (is_trustee_key k = false) as Hnt
        by (simpl in Hk; intuition (subst; reflexivity)).
    rewrite Hget1 by exact Hnt. unfold result0.
    simpl in Hk. destruct Hk as [<-|[<-|[<-|[]]]].
    - flag_cases Hf1; vm_compute; exact I.
    - flag_cases Hf2; vm_compute; exact I.
    - flag_cases Hf3; vm_compute; exact I. }
  destruct (well_typed_model DataPrivacyStatement
              (DataPrivacyStatementExtractor._clean_boolean_fields result2))
    as [entity ->]; [|reflexivity].
  intros name ft Hin. simpl in Hin.
  destruct Hin as [H|[H|[H|[H|[]]]]]; inversion H; subst;
    try (apply well_typed_bool; apply Hbool; simpl; tauto).
  unfold Dict.get_default,
    DataPrivacyStatementExtractor._clean_boolean_fields.
  rewrite clean_booleans_other by (simpl; intuition discriminate).
  rewrite Hl'. now apply well_typed_list.
Qed.


(** The entity of every section but the beneficiary's fits the schema of
    the section when the call of the provider raises. *)
Lemma section_fallback_conforms chain section text :
  section <> BENEFICIARY_DETAILS ->
  (exists e, chain text = Raise e) ->
  exists r,
    extractor_extract section chain text = Return (VDict r) /\
    is_return (validate section r) = true.
Proof.
  intros Hsec [e He]. destruct section; unfold extractor_extract.
  - now apply (trust_fallback_conforms _ _ e).
  - now apply (donor_fallback_conforms _ _ e).
  - now apply (trustee_fallback_conforms _ _ e).
  - congruence.
  - now apply (bank_fallback_conforms _ _ e).
  - now apply (security_fallback_conforms _ _ e).
  - now apply (privacy_fallback_conforms _ _ e).
Qed.

(** X25.  When every call of the provider raises, every entity of the
    result map of [process_document], the beneficiary's apart, is a
    dictionary that the schema of its section accepts: [validate], which
    the pipeline never calls, would return on it.  The beneficiary's
    entity is the exception, its title can be the boolean [True]. *)
Theorem fallback_entities_conform {T : Type} (lc : LangChain T)
    (environ : list (string * string))
    (extracted_text : list (nat * string)) (sections : option (list string))
    (llm_provider : string) (model_name api_key : option string)
    (temperature : T)
    (results : results_t) (key : string) (entity : value) :
  (forall model section chain,
      chain_of lc model section = Return chain ->
      forall text, exists e, chain text = Raise e) ->
  process_document lc environ extracted_text sections llm_provider
    model_name api_key temperature = Return results ->
  Dict.get key results = Some entity ->
  key <> "beneficiary_details" ->
  exists section r validated,
    key = section_value section /\
    entity = VDict r /\
    validate section r = Return validated.
Proof.
  intros Hfail H Hget Hkey.
  apply process_document_entries in H as (entities & Hall & ->).
  apply (result_map_get _ _ _ _ _ Hall) in Hget
    as (section & _ & -> & Hrun).
  unfold extractor_run, LLMExtractor.__init__ in Hrun.
  destruct (init_total section) as [sc Hsc]. rewrite Hsc in Hrun.
  cbn [bind] in Hrun.
  destruct (get_llm lc llm_provider model_name api_key temperature environ)
    as [model|]; [|discriminate Hrun].
  cbn [bind] in Hrun.
  destruct (chain_of lc model section) as [chain|] eqn:Echain;
    [|discriminate Hrun].
  cbn [bind] in Hrun.
  destruct (section_fallback_conforms chain section
              (section_text extracted_text (pages_of section extracted_text)))
    as (r & Hr & Hvalid); [|apply (Hfail model section chain Echain)|].
  { intros ->. apply Hkey. reflexivity. }
  rewrite Hr in Hrun. injection Hrun as <-.
  destruct (is_return_exists _ Hvalid) as [validated Hv].
  exists section, r, validated. auto.
Qed.

Lemma fallback_entities_conform_witness :
  exists section r validated,
    "donor_details" = section_value section /\
    VDict [("title", VStr EmptyString); ("surname", VStr "Smith");
           ("forenames", VStr EmptyString);
           ("date_of_birth", VStr "1/2/2049");
           ("national_insurance_number", VStr EmptyString);
           ("permanent_residential_address", VStr EmptyString);
           ("postcode", VStr EmptyString);
           ("country_of_residence", VStr EmptyString);
           ("country_of_nationality", VStr EmptyString);
           ("deceased", VBool false)] = VDict r /\
    validate section r = Return validated.
Proof.
  apply (fallback_entities_conform failing_provider []
           [(0, "Donor details Surname: Smith Date of birth: 1-2-49")]
           (Some ["donor_details"]) "local" None None tt
           [("donor_details",
             VDict [("title", VStr EmptyString); ("surname", VStr "Smith");
                    ("forenames", VStr EmptyString);
                    ("date_of_birth", VStr "1/2/2049");
                    ("national_insurance_number", VStr EmptyString);
                    ("permanent_residential_address", VStr EmptyString);
                    ("postcode", VStr EmptyString);
                    ("country_of_residence", VStr EmptyString);
                    ("country_of_nationality", VStr EmptyString);
                    ("deceased", VBool false)])]).
  - intros model section chain Hchain text. exists ProviderError.
    injection Hchain as <-. reflexivity.
  - vm_compute. reflexivity.
  - reflexivity.
  - discriminate.
Defined.

(* ------------------------------------------------------------------ *)
(** ** What reaches the extractors from a text-based file *)

Lemma filter_Forall {A : Type} (P : A -> Prop) f (l : list A) :
  Forall P l -> Forall P (filter f l).
Proof.
  induction 1 as [|x l Hx _ IH]; simpl; [constructor|].
  destruct (f x); [now constructor|exact IH].
Qed.

(** X26.  In a file that does not count as scanned, the text an
    extractor is run on holds ASCII characters only, whatever the section:
    every page went through the cleaning, so a check mark, a ballot box or
    any other character outside ASCII of the form reaches neither the
    patterns nor the provider. *)
Theorem text_file_sections_ascii threshold (pdf_document : list Page)
    (section : DocumentSection) :
  _is_scanned_pdf threshold (map get_text pdf_document) = false ->
  let extracted_text := process_pdf threshold pdf_document in
  all_chars is_ascii
    (section_text extracted_text
       (get_pages section (PDFProcessor.identify_sections extracted_text)))
  = true.
Proof.
  intros Hscan. cbv zeta.
  destruct (identify_sections_spec section
              (process_pdf threshold pdf_document)) as [_ ->].
  assert (map fst (process_pdf threshold pdf_document)
          = seq 0 (List.length pdf_document)) as Hkeys.
  { rewrite process_pdf_spec.
    rewrite <- (length_map
                  (text_of (_is_scanned_pdf threshold
                              (map get_text pdf_document)))) at 1 2.
    apply combine_seq_keys. }
  unfold section_text. rewrite section_pages_texts
    by (rewrite Hkeys; apply seq_NoDup).
  apply all_chars_join; [reflexivity|].
  apply filter_Forall.
  rewrite process_pdf_spec, Hscan.
  rewrite <- (length_map (text_of false)), combine_seq_values.
  apply Forall_forall. intros t Ht. apply in_map_iff in Ht as (page & <- & _).
  apply clean_text_ascii.
Qed.

Lemma text_file_sections_ascii_witness :
  all_chars is_ascii
    (section_text
       (process_pdf 5
          [{| get_text := "Donor details" ++ TextProcessor.nl
                          ++ "Deceased: " ++ String (ascii_of_nat 226)
                               (String (ascii_of_nat 156)
                                  (String (ascii_of_nat 147) EmptyString));
              image_to_string := EmptyString |}])
       (get_pages DONOR_DETAILS
          (PDFProcessor.identify_sections
             (process_pdf 5
                [{| get_text := "Donor details" ++ TextProcessor.nl
                                ++ "Deceased: " ++ String (ascii_of_nat 226)
                                     (String (ascii_of_nat 156)
                                        (String (ascii_of_nat 147)
                                           EmptyString));
                    image_to_string := EmptyString |}]))))
  = true.
Proof.
  apply (text_file_sections_ascii 5
           [{| get_text := "Donor details" ++ TextProcessor.nl
                           ++ "Deceased: " ++ String (ascii_of_nat 226)
                                (String (ascii_of_nat 156)
                                   (String (ascii_of_nat 147) EmptyString));
               image_to_string := EmptyString |}]
           DONOR_DETAILS).
  vm_compute. reflexivity.
Defined.
